(** * aix-metadata-collector: a shallow embedding of the collectors

    The development follows the layout of the C++ sources:

    - [CLib]      : the few C/C++ library routines the collectors lean on
                    ([strtol], [std::getline], [operator>>], [rfind], ...);
    - [Types]     : [include/types.h], [src/types.cpp] and the shared helper
                    of [include/collector_base.h];
    - [Effects]   : a state monad over an abstract world, used for every call
                    that leaves the process (subprocesses, stat, getprocs64);
    - [CollectorBase] : the interface of [include/collector_base.h];
    - [PortCollector], [FileCollector], [ProcessCollector] : the collectors;
    - [Spec]      : the vocabulary of the specification (what it means to
                    read a text as an integer, the port of an address, the
                    block of attributes of a connection, ...);
    - [Samples]   : small hosts on which the collectors can be run;
    - [PortSchema], [FileSchema], [ProcessSchema] : names for the attribute
                    lists of the collectors and the command lines of the
                    port collector;
    - [JsonFormatter] : [src/json_formatter.cpp]; [JsonReader] and
                    [JsonLayout] : a reader of JSON text and names for the
                    pieces of a printed document;
    - [Cli]       : [src/main.cpp];
    - [ProcessDetails] : the six best-effort collectors of
                    [src/process_collector.cpp];
    - [MoreSamples] : further hosts;
    - the remaining modules hold the proofs.

    Data model: [std::string] is [string]; [std::vector] is [list]; fixed
    width integers are [Z] with the conversions written out where the source
    has a cast.  [strtol] is given for a [long] of 64 bits, and, as
    [strtol_in], for either data model of the AIX compilers: a [long] of
    32 bits (the 32-bit mode) or of 64 bits.  The width matters where a
    value is compared with a bound of 32 bits: the guard
    [value > INT32_MAX] of [ProcessCollector::parsePid] can only hold for
    a [long] of 64 bits, so that function and [collect] are given for
    both. *)

From Stdlib Require Import ZArith String Ascii List Bool Lia.
From Stdlib Require Import Numbers.DecimalString.
From Stdlib Require DecimalPos.
Import ListNotations.

Local Open Scope string_scope.
Local Open Scope Z_scope.

(* ================================================================== *)
(** * C and C++ library routines *)
(* ================================================================== *)

Module CLib.

(** [isspace] in the "C" locale: space, and the controls 9..13. *)
Definition isspace (c : ascii) : bool :=
  let n := nat_of_ascii c in
  Nat.eqb n 32 || (Nat.leb 9 n && Nat.leb n 13).

Definition isdigit (c : ascii) : bool :=
  let n := nat_of_ascii c in
  Nat.leb 48 n && Nat.leb n 57.

Definition digit_of (c : ascii) : Z := Z.of_nat (nat_of_ascii c) - 48.

Definition LONG_MAX : Z := 9223372036854775807.
Definition LONG_MIN : Z := -9223372036854775808.
Definition INT32_MAX : Z := 2147483647.

Definition empty (s : string) : bool :=
  match s with EmptyString => true | String _ _ => false end.

(** [s.c_str()] seen as a C string: the characters before the first NUL. *)
Fixpoint c_str (s : string) : string :=
  match s with
  | EmptyString => EmptyString
  | String c r => if Ascii.eqb c zero then EmptyString else String c (c_str r)
  end.

Fixpoint skip_space (s : string) : string :=
  match s with
  | EmptyString => EmptyString
  | String c r => if isspace c then skip_space r else s
  end.

(** The digit loop of [strtol]: accumulated value and the unread suffix. *)
Fixpoint strtol_digits (acc : Z) (s : string) : Z * string :=
  match s with
  | EmptyString => (acc, EmptyString)
  | String c r =>
      if isdigit c then strtol_digits (10 * acc + digit_of c) r else (acc, s)
  end.

(** What a call [strtol(nptr, &endPtr, 10)] leaves behind:
    the returned [long], the C string [endPtr] points at, and whether
    [endPtr == nptr] (no conversion was performed). *)
Record strtol_result : Type := mkStrtol {
  st_value : Z;
  st_end : string;
  st_noconv : bool
}.

Definition strtol_sign (s : string) : bool * string :=
  match s with
  | String c r =>
      if Ascii.eqb c "-" then (true, r)
      else if Ascii.eqb c "+" then (false, r)
      else (false, s)
  | EmptyString => (false, s)
  end.

Definition starts_with_digit (s : string) : bool :=
  match s with
  | String c _ => isdigit c
  | EmptyString => false
  end.

(** [strtol] in base 10: optional white space, optional sign, digits; the
    result saturates at [LONG_MIN]/[LONG_MAX]; without a digit nothing is
    consumed and 0 is returned. *)
Definition strtol (nptr : string) : strtol_result :=
  let s0 := c_str nptr in
  let '(neg, s2) := strtol_sign (skip_space s0) in
  if starts_with_digit s2 then
    let '(acc, rest) := strtol_digits 0 s2 in
    mkStrtol (if neg then Z.max LONG_MIN (- acc) else Z.min LONG_MAX acc)
             rest false
  else mkStrtol 0 s0 true.

(** A value brought into the range of [long]. *)
Definition clamp (v : Z) : Z := Z.max LONG_MIN (Z.min LONG_MAX v).






(** [while (std::getline(stream, line))]: the lines of a text; a final
    newline does not open another line. *)
Fixpoint getlines (s : string) : list string :=
  match s with
  | EmptyString => []
  | String c r =>
      if Ascii.eqb c "010" then EmptyString :: getlines r
      else match getlines r with
           | [] => [String c EmptyString]
           | l :: ls => String c l :: ls
           end
  end.

(** [while (lineStream >> token)]: maximal runs of non-space characters. *)
Fixpoint tokenize (s : string) : list string :=
  match s with
  | EmptyString => []
  | String c r =>
      if isspace c then tokenize r
      else match r with
           | EmptyString => [String c EmptyString]
           | String d _ =>
               if isspace d then String c EmptyString :: tokenize r
               else match tokenize r with
                    | [] => [String c EmptyString]
                    | t :: ts => String c t :: ts
                    end
           end
  end.

Fixpoint mem_char (c : ascii) (set : string) : bool :=
  match set with
  | EmptyString => false
  | String d r => Ascii.eqb c d || mem_char c r
  end.

(** [s.find_first_not_of(set)]; [None] is [npos]. *)
Fixpoint find_first_not_of (set : string) (s : string) : option nat :=
  match s with
  | EmptyString => None
  | String c r =>
      if mem_char c set then option_map S (find_first_not_of set r)
      else Some O
  end.

(** [s.rfind(c)]; [None] is [npos]. *)
Fixpoint rfind (c : ascii) (s : string) : option nat :=
  match s with
  | EmptyString => None
  | String a r =>
      match rfind c r with
      | Some i => Some (S i)
      | None => if Ascii.eqb a c then Some O else None
      end
  end.

(** [s.substr(pos)] and [s.substr(0, n)], for [pos], [n] within [s]. *)
Definition substr_from (s : string) (pos : nat) : string :=
  substring pos (String.length s - pos) s.

Definition substr_to (s : string) (n : nat) : string :=
  substring 0 n s.

(** [ostream << n] for an integer, in decimal. *)
Definition dec (z : Z) : string := NilZero.string_of_int (Z.to_int z).

(** Octal digits of a non-negative number, as [std::oct] prints them. *)
Fixpoint oct_digits (fuel : nat) (z : Z) (acc : string) : string :=
  match fuel with
  | O => acc
  | S f =>
      let d := ascii_of_nat (48 + Z.to_nat (z mod 8)) in
      if z <? 8 then String d acc else oct_digits f (z / 8) (String d acc)
  end.

Definition oct (z : Z) : string := oct_digits (S (Z.to_nat (Z.log2 z))) z "".

(** [static_cast<T>(v)] for a 32-bit signed and a 16-bit unsigned target. *)
Definition to_int32 (v : Z) : Z := (v + 2147483648) mod 4294967296 - 2147483648.
Definition to_uint16 (v : Z) : Z := v mod 65536.

End CLib.

(* ================================================================== *)
(** * include/types.h, src/types.cpp, include/collector_base.h *)
(* ================================================================== *)

Module Types.
Import CLib.

Record MetadataAttribute : Type := mkAttr {
  name : string;
  values : list string
}.

(** The two constructors of [MetadataAttribute]. *)
Definition attr1 (n v : string) : MetadataAttribute := mkAttr n [v].
Definition attrN (n : string) (v : list string) : MetadataAttribute := mkAttr n v.

Record MetadataResult : Type := mkResult {
  type : string;
  identifier : string;
  attributes : list MetadataAttribute;
  success : bool;
  errorMessage : string
}.

(** [MetadataResult() : success(false) {}] *)
Definition newResult : MetadataResult := mkResult "" "" [] false "".

Definition set_type (r : MetadataResult) (t : string) : MetadataResult :=
  mkResult t (identifier r) (attributes r) (success r) (errorMessage r).
Definition set_identifier (r : MetadataResult) (i : string) : MetadataResult :=
  mkResult (type r) i (attributes r) (success r) (errorMessage r).
Definition set_success (r : MetadataResult) (b : bool) : MetadataResult :=
  mkResult (type r) (identifier r) (attributes r) b (errorMessage r).
Definition set_errorMessage (r : MetadataResult) (m : string) : MetadataResult :=
  mkResult (type r) (identifier r) (attributes r) (success r) m.

(** [attributes.emplace_back(name, value)] *)
Definition addAttribute (r : MetadataResult) (n v : string) : MetadataResult :=
  mkResult (type r) (identifier r) (attributes r ++ [attr1 n v])
           (success r) (errorMessage r).

Definition addAttributeList (r : MetadataResult) (n : string) (v : list string)
  : MetadataResult :=
  mkResult (type r) (identifier r) (attributes r ++ [attrN n v])
           (success r) (errorMessage r).

(** The [int64_t] and [uint64_t] overloads; the argument is the value
    after the caller's cast. *)
Definition addAttributeInt (r : MetadataResult) (n : string) (v : Z)
  : MetadataResult := addAttribute r n (dec v).

Inductive QueryType : Type := Process | File | Port.

Inductive Protocol : Type := TCP | UDP | Both.

(** [CollectorBase::createErrorResult] *)
Definition createErrorResult (ident errorMsg : string) : MetadataResult :=
  let result := newResult in
  let result := set_success result false in
  let result := set_identifier result ident in
  let result := set_errorMessage result errorMsg in
  result.

(** The type tag the documentation of [MetadataResult::type] lists for
    each kind of collector. *)
Definition type_tag (q : QueryType) : string :=
  match q with
  | Process => "process"
  | File => "file"
  | Port => "port"
  end.

End Types.

(* ================================================================== *)
(** * Calls that leave the process *)
(* ================================================================== *)

Module Effects.

(** A computation that may consult and change the world outside. *)
Definition M (W A : Type) : Type := W -> A * W.

Definition ret {W A : Type} (a : A) : M W A := fun w => (a, w).

Definition bind {W A B : Type} (m : M W A) (k : A -> M W B) : M W B :=
  fun w => let '(a, w') := m w in k a w'.

Definition run {W A : Type} (m : M W A) (w : W) : A := fst (m w).

End Effects.

Notation "x <- m ;; k" := (Effects.bind m (fun x => k))
  (at level 61, m at next level, right associativity).
Notation "' p <- m ;; k" := (Effects.bind m (fun x => let p := x in k))
  (at level 61, p pattern, m at next level, right associativity).

(** [class CollectorBase]: the three operations every collector offers. *)
Module CollectorBase.

Record t (W : Type) : Type := make {
  collect : string -> Effects.M W Types.MetadataResult;
  getType : Types.QueryType;
  getName : string
}.

Arguments collect {W} _ _.
Arguments getType {W} _.
Arguments getName {W} _.

End CollectorBase.

(* ================================================================== *)
(** * src/port_collector.cpp *)
(* ================================================================== *)

Module PortCollector.
Import CLib Types Effects.

(** [struct ConnectionInfo] of [include/port_collector.h]. *)
Record ConnectionInfo : Type := mkConn {
  protocol : string;
  localAddress : string;
  localPort : string;
  remoteAddress : string;
  remotePort : string;
  state : string;
  pid : Z;
  processName : string;
  user : string
}.

(** [PortCollector::parsePort]; [Some port] stands for [true] with the
    out-parameter set. *)
Definition parsePort (identifier : string) : option Z :=
  let r := strtol identifier in
  if st_noconv r || negb (empty (st_end r)) then None
  else if (st_value r <=? 0) || (st_value r >? 65535) then None
  else Some (to_uint16 (st_value r)).

Definition hex_digits : string := "0123456789abcdefABCDEF".

(** The test of line 227: does the first token look like a socket address? *)
Definition is_socket_addr (tok : string) : bool :=
  (Nat.ltb 10 (String.length tok))
  && match find_first_not_of hex_digits tok with None => true | Some _ => false end.

(** Lines 245-260: does the local or the foreign port match [port]? *)
Definition port_matches (port : Z) (localPortStr foreignAddr : string) : bool :=
  let lp := strtol localPortStr in
  if negb (empty (st_end lp)) || negb (st_value lp =? port) then
    match rfind "." foreignAddr with
    | Some foreignLastDot =>
        let fp := strtol (substr_from foreignAddr (S foreignLastDot)) in
        if negb (empty (st_end fp)) || negb (st_value fp =? port) then false
        else true
    | None => false
    end
  else true.

(** Lines 206-236 of [parseNetstatOutput]: the columns of one line, [None]
    where the source says [continue]: the socket address (empty when the
    line has none), the local address, the foreign address and the state. *)
Definition netstatColumns (line : string)
  : option (string * string * string * string) :=
  if empty line then None else
  let tokens := tokenize line in
  if Nat.ltb (List.length tokens) 6 then None else
  let '(offset, socketAddr) :=
    if is_socket_addr (nth 0 tokens "") then (1%nat, nth 0 tokens "")
    else (0%nat, "") in
  if Nat.ltb (List.length tokens) (offset + 6) then None else
  let localAddr := nth (offset + 3) tokens "" in
  let foreignAddr := nth (offset + 4) tokens "" in
  let state := nth (offset + 5) tokens "" in
  Some (socketAddr, localAddr, foreignAddr, state).

(** Lines 238-278: the record built from the columns of a kept line, with
    the socket address; [None] where the source says [continue]. What is
    left of the loop body, the process lookup and the [push_back], is in
    [parseNetstatLines] below. *)
Definition parseNetstatLine (line : string) (port : Z) (proto : string)
  : option (string * ConnectionInfo) :=
  match netstatColumns line with
  | None => None
  | Some (socketAddr, localAddr, foreignAddr, state) =>
      match rfind "." localAddr with
      | None => None
      | Some lastDot =>
          let localPortStr := substr_from localAddr (S lastDot) in
          let localIp := substr_to localAddr lastDot in
          if negb (port_matches port localPortStr foreignAddr) then None else
          let '(remoteAddress, remotePort) :=
            match rfind "." foreignAddr with
            | Some foreignLastDot =>
                (substr_to foreignAddr foreignLastDot,
                 substr_from foreignAddr (S foreignLastDot))
            | None => (foreignAddr, "*")
            end in
          Some (socketAddr,
                mkConn proto localIp localPortStr remoteAddress remotePort
                       state 0 "" "")
      end
  end.

Definition set_process (info : ConnectionInfo) (procName : string)
    (newPid : option Z) (usr : string) : ConnectionInfo :=
  mkConn (protocol info) (localAddress info) (localPort info)
         (remoteAddress info) (remotePort info) (state info)
         (match newPid with Some p => p | None => pid info end)
         procName usr.

(** The assignments of lines 339-347 (and 362-369): command name, PID when
    the second column is numeric, user. *)
Definition attribute_row (info : ConnectionInfo) (tokens : list string)
  : ConnectionInfo :=
  let r := strtol (nth 1 tokens "") in
  set_process info (nth 0 tokens "")
              (if empty (st_end r) then Some (to_int32 (st_value r)) else None)
              (nth 2 tokens "").

(** The loop of lines 324-350 over the lines of the lsof output. *)
Fixpoint lsof_scan (lines : list string) (info : ConnectionInfo)
  : ConnectionInfo :=
  match lines with
  | [] => info
  | line :: rest =>
      if empty line then lsof_scan rest info else
      let tokens := tokenize line in
      if Nat.ltb (List.length tokens) 2 || String.eqb (nth 0 tokens "") "COMMAND"
      then lsof_scan rest info
      else if Nat.leb 3 (List.length tokens) then attribute_row info tokens
      else lsof_scan rest info
  end.

Section WithWorld.

(** The world outside the process, and what [popen]/[fgets]/[pclose] make
    of a command line: [None] when [popen] fails, otherwise the text read
    and the exit status. [AIX] says whether [_AIX] is defined. *)
Variable W : Type.
Variable popen_read : string -> M W (option (string * Z)).
Variable AIX : bool.

(** [PortCollector::executeCommand]; [output] is passed in because a
    failing [popen] leaves it as it was. *)
Definition executeCommand (cmd : string) (output : string)
  : M W (bool * string) :=
  r <- popen_read cmd ;;
  match r with
  | None => ret (false, output)
  | Some (text, status) => ret ((status =? 0) || negb (empty text), text)
  end.

(** [PortCollector::findProcessForPort] *)
Definition findProcessForPort (port : Z) (proto : string)
    (info : ConnectionInfo) : M W ConnectionInfo :=
  if AIX then
    let cmd := "lsof -i :" ++ dec port ++ " -n -P 2>/dev/null | grep -i " ++ proto in
    '(ok, output) <- executeCommand cmd "" ;;
    if negb ok || empty output then ret info
    else ret (lsof_scan (getlines output) info)
  else
    let cmd := "lsof -i :" ++ dec port
               ++ " -n -P 2>/dev/null | grep -v COMMAND | head -1" in
    '(ok, output) <- executeCommand cmd "" ;;
    if ok && negb (empty output) then
      let tokens := tokenize output in
      if Nat.leb 3 (List.length tokens) then ret (attribute_row info tokens)
      else ret info
    else ret info.

(** [PortCollector::parseNetstatOutput]: the loop over the lines, written
    over the list of lines still to read. *)
Fixpoint parseNetstatLines (lines : list string) (port : Z) (proto : string)
    (connections : list ConnectionInfo) : M W (list ConnectionInfo) :=
  match lines with
  | [] => ret connections
  | line :: rest =>
      match parseNetstatLine line port proto with
      | None => parseNetstatLines rest port proto connections
      | Some (socketAddr, info) =>
          info <- (if negb (empty socketAddr)
                   then findProcessForPort port proto info
                   else ret info) ;;
          parseNetstatLines rest port proto (connections ++ [info])
      end
  end.

Definition parseNetstatOutput (output : string) (port : Z) (proto : string)
    (connections : list ConnectionInfo) : M W (list ConnectionInfo) :=
  parseNetstatLines (getlines output) port proto connections.

(** [collectTcpConnections] and [collectUdpConnections] are the same text
    up to the word "tcp"/"udp"; [transport] is that word. *)
Definition collectConnections (transport : string) (port : Z)
    (connections : list ConnectionInfo) : M W (bool * list ConnectionInfo) :=
  let output := "" in
  let cmd := "netstat -Aan -f inet 2>/dev/null | grep " ++ transport in
  '(ok, output) <- executeCommand cmd output ;;
  '(ok, output) <-
     (if negb ok then
        let cmd := "netstat -an -f inet 2>/dev/null | grep " ++ transport in
        executeCommand cmd output
      else ret (true, output)) ;;
  if negb ok then ret (false, connections) else
  connections <- parseNetstatOutput output port transport connections ;;
  let cmd := "netstat -Aan -f inet6 2>/dev/null | grep " ++ transport in
  '(ok, output) <- executeCommand cmd output ;;
  connections <-
    (if ok then parseNetstatOutput output port (transport ++ "6") connections
     else ret connections) ;;
  ret (true, connections).

Definition collectTcpConnections := collectConnections "tcp".
Definition collectUdpConnections := collectConnections "udp".

(** Lines 42-52 of [collect]: the connections gathered for [m_protocol]. *)
Definition gatherConnections (m_protocol : Protocol) (port : Z)
  : M W (list ConnectionInfo) :=
  let connections := [] in
  connections <-
    (match m_protocol with
     | TCP | Both =>
         '(_, cs) <- collectTcpConnections port connections ;; ret cs
     | UDP => ret connections
     end) ;;
  connections <-
    (match m_protocol with
     | UDP | Both =>
         '(_, cs) <- collectUdpConnections port connections ;; ret cs
     | TCP => ret connections
     end) ;;
  ret connections.

End WithWorld.

(** The body of the [for (const auto& conn : connections)] loop of
    [collect] (lines 68-93), on the pair of [result] and [connIndex]. *)
Definition addConnection (st : MetadataResult * Z) (conn : ConnectionInfo)
  : MetadataResult * Z :=
  let '(result, connIndex) := st in
  let pfx := "connection_" ++ dec connIndex ++ "_" in
  let result := addAttribute result (pfx ++ "protocol") (protocol conn) in
  let result := addAttribute result (pfx ++ "local_address") (localAddress conn) in
  let result := addAttribute result (pfx ++ "local_port") (localPort conn) in
  let result := addAttribute result (pfx ++ "remote_address") (remoteAddress conn) in
  let result := addAttribute result (pfx ++ "remote_port") (remotePort conn) in
  let result := addAttribute result (pfx ++ "state") (state conn) in
  let result :=
    if pid conn >? 0 then addAttribute result (pfx ++ "pid") (dec (pid conn))
    else result in
  let result :=
    if negb (empty (processName conn))
    then addAttribute result (pfx ++ "process") (processName conn)
    else result in
  let result :=
    if negb (empty (user conn))
    then addAttribute result (pfx ++ "user") (user conn)
    else result in
  (result, connIndex + 1).

(** Lines 54-96 of [collect]: the Result made from the connections. *)
Definition assemble (result : MetadataResult) (ident : string)
    (connections : list ConnectionInfo) : MetadataResult :=
  match connections with
  | [] =>
      let result := set_success result true in
      let result := addAttribute result "status" "no_connections_found" in
      let result := addAttribute result "port" ident in
      result
  | _ :: _ =>
      let result := set_success result true in
      let result := addAttribute result "port" ident in
      let result := addAttributeInt result "num_connections"
                      (Z.of_nat (List.length connections)) in
      fst (fold_left addConnection connections (result, 0))
  end.

Section Collect.

Variable W : Type.
Variable popen_read : string -> M W (option (string * Z)).
Variable AIX : bool.

(** [PortCollector::collect], for a collector built with [m_protocol]. *)
Definition collect (m_protocol : Protocol) (ident : string)
  : M W MetadataResult :=
  let result := newResult in
  let result := set_type result "port" in
  let result := set_identifier result ident in
  match parsePort ident with
  | None => ret (createErrorResult ident ("Invalid port number: " ++ ident))
  | Some port =>
      connections <- gatherConnections W popen_read AIX m_protocol port ;;
      ret (assemble result ident connections)
  end.

(** The collector as an instance of the interface. *)
Definition collector (m_protocol : Protocol) : CollectorBase.t W :=
  CollectorBase.make W (collect m_protocol) Port "PortCollector".

End Collect.

End PortCollector.

(* ================================================================== *)
(** * src/file_collector.cpp *)
(* ================================================================== *)

Module FileCollector.
Import CLib Types Effects.

(** The fields of [struct stat64] the collector reads. *)
Record stat64_t : Type := mkStat {
  st_mode : Z;
  st_size : Z;
  st_dev : Z;
  st_ino : Z;
  st_nlink : Z;
  st_uid : Z;
  st_gid : Z;
  st_atime : Z;
  st_mtime : Z;
  st_ctime : Z;
  st_blksize : Z;
  st_blocks : Z;
  st_rdev : Z
}.

(** The mode constants of [<sys/stat.h>] (the octal values of POSIX). *)
Definition S_IFMT : Z := 0xF000.   (* 0170000 *)
Definition S_IFSOCK : Z := 0xC000. (* 0140000 *)
Definition S_IFLNK : Z := 0xA000.  (* 0120000 *)
Definition S_IFREG : Z := 0x8000.  (* 0100000 *)
Definition S_IFBLK : Z := 0x6000.  (* 0060000 *)
Definition S_IFDIR : Z := 0x4000.  (* 0040000 *)
Definition S_IFCHR : Z := 0x2000.  (* 0020000 *)
Definition S_IFIFO : Z := 0x1000.  (* 0010000 *)
Definition S_ISUID : Z := 0x800.   (* 04000 *)
Definition S_ISGID : Z := 0x400.   (* 02000 *)
Definition S_ISVTX : Z := 0x200.   (* 01000 *)
Definition S_IRUSR : Z := 0x100.   (* 0400 *)
Definition S_IWUSR : Z := 0x80.    (* 0200 *)
Definition S_IXUSR : Z := 0x40.    (* 0100 *)
Definition S_IRGRP : Z := 0x20.    (* 040 *)
Definition S_IWGRP : Z := 0x10.    (* 020 *)
Definition S_IXGRP : Z := 0x8.     (* 010 *)
Definition S_IROTH : Z := 0x4.
Definition S_IWOTH : Z := 0x2.
Definition S_IXOTH : Z := 0x1.

Definition is_type (mode kind : Z) : bool := Z.land mode S_IFMT =? kind.
Definition S_ISREG mode := is_type mode S_IFREG.
Definition S_ISDIR mode := is_type mode S_IFDIR.
Definition S_ISLNK mode := is_type mode S_IFLNK.
Definition S_ISBLK mode := is_type mode S_IFBLK.
Definition S_ISCHR mode := is_type mode S_IFCHR.
Definition S_ISFIFO mode := is_type mode S_IFIFO.
Definition S_ISSOCK mode := is_type mode S_IFSOCK.

(** [mode & bit] used as a condition. *)
Definition has (mode bit : Z) : bool := negb (Z.land mode bit =? 0).

(** [FileCollector::fileTypeToString] *)
Definition fileTypeToString (mode : Z) : string :=
  if S_ISREG mode then "regular"
  else if S_ISDIR mode then "directory"
  else if S_ISLNK mode then "symlink"
  else if S_ISBLK mode then "block_device"
  else if S_ISCHR mode then "character_device"
  else if S_ISFIFO mode then "fifo"
  else if S_ISSOCK mode then "socket"
  else "unknown".

(** [FileCollector::modeToSymbolic]: the nine cells of [symbolic], in the
    order the source fills them. *)
Definition modeToSymbolic (mode : Z) : string :=
  let s0 : ascii := if has mode S_IRUSR then "r"%char else "-"%char in
  let s1 : ascii := if has mode S_IWUSR then "w"%char else "-"%char in
  let s2 : ascii :=
    if has mode S_ISUID then (if has mode S_IXUSR then "s"%char else "S"%char)
    else (if has mode S_IXUSR then "x"%char else "-"%char) in
  let s3 : ascii := if has mode S_IRGRP then "r"%char else "-"%char in
  let s4 : ascii := if has mode S_IWGRP then "w"%char else "-"%char in
  let s5 : ascii :=
    if has mode S_ISGID then (if has mode S_IXGRP then "s"%char else "S"%char)
    else (if has mode S_IXGRP then "x"%char else "-"%char) in
  let s6 : ascii := if has mode S_IROTH then "r"%char else "-"%char in
  let s7 : ascii := if has mode S_IWOTH then "w"%char else "-"%char in
  let s8 : ascii :=
    if has mode S_ISVTX then (if has mode S_IXOTH then "t"%char else "T"%char)
    else (if has mode S_IXOTH then "x"%char else "-"%char) in
  String s0 (String s1 (String s2 (String s3 (String s4 (String s5
    (String s6 (String s7 (String s8 EmptyString)))))))).

Definition to_uint64 (v : Z) : Z := v mod 18446744073709551616.

(** The operating system as the file collector meets it. [tm] is
    [struct tm]; [strftime_iso] formats it with "%Y-%m-%dT%H:%M:%S". *)
Record OS (W : Type) : Type := mkOS {
  tm : Type;
  lstat64 : string -> M W (Z + stat64_t);      (* errno, or the buffer *)
  stat64 : string -> M W (Z + stat64_t);
  strerror : Z -> string;
  readlink : string -> M W (Z * string);       (* return value, buffer *)
  getpwuid : Z -> M W (option string);         (* pw_name *)
  getgrgid : Z -> M W (option string);         (* gr_name *)
  localtime : Z -> M W (option tm);
  strftime_iso : tm -> string;
  access : string -> Z -> M W Z;
  major : Z -> Z;
  minor : Z -> Z
}.

Arguments tm {W} _.
Arguments lstat64 {W} _ _.
Arguments stat64 {W} _ _.
Arguments strerror {W} _ _.
Arguments readlink {W} _ _.
Arguments getpwuid {W} _ _.
Arguments getgrgid {W} _ _.
Arguments localtime {W} _ _.
Arguments strftime_iso {W} _ _.
Arguments access {W} _ _ _.
Arguments major {W} _ _.
Arguments minor {W} _ _.

Definition R_OK : Z := 4.
Definition W_OK : Z := 2.
Definition X_OK : Z := 1.

Section WithOS.

Variable W : Type.
Variable os : OS W.

(** [FileCollector::timeToString] *)
Definition timeToString (timeVal : Z) : M W string :=
  tm_info <- localtime os timeVal ;;
  match tm_info with
  | None => ret "unknown"
  | Some t => ret (strftime_iso os t)
  end.

(** [FileCollector::collectSymlinkInfo] *)
Definition collectSymlinkInfo (path : string) (result : MetadataResult)
  : M W MetadataResult :=
  let result := addAttribute result "is_symlink" "true" in
  '(len, buf) <- readlink os path ;;
  if len >? 0 then
    let linkTarget := c_str (substr_to buf (Z.to_nat len)) in
    let result := addAttribute result "symlink_target" linkTarget in
    match linkTarget with
    | String "/"%char _ => ret (addAttribute result "symlink_type" "absolute")
    | _ => ret (addAttribute result "symlink_type" "relative")
    end
  else ret (addAttribute result "symlink_target" "unreadable").

(** [FileCollector::collectOwnership] *)
Definition collectOwnership (statBuf : stat64_t) (result : MetadataResult)
  : M W MetadataResult :=
  let result := addAttributeInt result "uid" (st_uid statBuf) in
  pwd <- getpwuid os (st_uid statBuf) ;;
  let result :=
    match pwd with
    | Some pw_name => addAttribute result "owner" pw_name
    | None => addAttribute result "owner" "unknown"
    end in
  let result := addAttributeInt result "gid" (st_gid statBuf) in
  grp <- getgrgid os (st_gid statBuf) ;;
  match grp with
  | Some gr_name => ret (addAttribute result "group" gr_name)
  | None => ret (addAttribute result "group" "unknown")
  end.

(** [FileCollector::collectAccessInfo] *)
Definition collectAccessInfo (path : string) (result : MetadataResult)
  : M W MetadataResult :=
  r <- access os path R_OK ;;
  w <- access os path W_OK ;;
  x <- access os path X_OK ;;
  let flag (v : Z) : string := if v =? 0 then "true" else "false" in
  let result := addAttribute result "current_user_readable" (flag r) in
  let result := addAttribute result "current_user_writable" (flag w) in
  let result := addAttribute result "current_user_executable" (flag x) in
  ret result.

(** Lines 99-156 of [collectStats]: what is emitted once [lstatBuf] and
    [statBuf] are settled. *)
Definition emitStats (lstatBuf statBuf : stat64_t) (result : MetadataResult)
  : M W MetadataResult :=
  let result := addAttribute result "type" (fileTypeToString (st_mode lstatBuf)) in
  let result := addAttributeInt result "size" (to_uint64 (st_size statBuf)) in
  let result := addAttributeInt result "device" (to_uint64 (st_dev statBuf)) in
  let result := addAttributeInt result "inode" (to_uint64 (st_ino statBuf)) in
  let result := addAttributeInt result "nlink" (to_uint64 (st_nlink statBuf)) in
  let result := addAttribute result "mode_octal"
                  ("0" ++ oct (Z.land (st_mode statBuf) 0xFFF)) in
  let result := addAttribute result "mode_symbolic"
                  (modeToSymbolic (st_mode statBuf)) in
  let result := if has (st_mode statBuf) S_ISUID
                then addAttribute result "setuid" "true" else result in
  let result := if has (st_mode statBuf) S_ISGID
                then addAttribute result "setgid" "true" else result in
  let result := if has (st_mode statBuf) S_ISVTX
                then addAttribute result "sticky" "true" else result in
  result <- collectOwnership statBuf result ;;
  a <- timeToString (st_atime statBuf) ;;
  let result := addAttribute result "access_time" a in
  m <- timeToString (st_mtime statBuf) ;;
  let result := addAttribute result "modify_time" m in
  c <- timeToString (st_ctime statBuf) ;;
  let result := addAttribute result "change_time" c in
  let result := addAttributeInt result "atime_epoch" (st_atime statBuf) in
  let result := addAttributeInt result "mtime_epoch" (st_mtime statBuf) in
  let result := addAttributeInt result "ctime_epoch" (st_ctime statBuf) in
  let result := addAttributeInt result "block_size" (st_blksize statBuf) in
  let result := addAttributeInt result "blocks" (st_blocks statBuf) in
  let result :=
    if S_ISBLK (st_mode statBuf) || S_ISCHR (st_mode statBuf) then
      let result := addAttributeInt result "rdev_major"
                      (major os (st_rdev statBuf)) in
      addAttributeInt result "rdev_minor" (minor os (st_rdev statBuf))
    else result in
  ret result.

(** [FileCollector::collectStats] *)
Definition collectStats (path : string) (result : MetadataResult)
  : M W (bool * MetadataResult) :=
  l <- lstat64 os path ;;
  match l with
  | inl err =>
      let errMsg := "Cannot stat file '" ++ path ++ "': " ++ strerror os err in
      let result := set_success result false in
      let result := set_errorMessage result errMsg in
      ret (false, result)
  | inr lstatBuf =>
      let isSymlink := S_ISLNK (st_mode lstatBuf) in
      '(statBuf, result) <-
        (if isSymlink then
           s <- stat64 os path ;;
           let '(statBuf, result) :=
             match s with
             | inl _ => (lstatBuf, addAttribute result "symlink_broken" "true")
             | inr b => (b, result)
             end in
           result <- collectSymlinkInfo path result ;;
           ret (statBuf, result)
         else ret (lstatBuf, result)) ;;
      result <- emitStats lstatBuf statBuf result ;;
      ret (true, result)
  end.

(** [FileCollector::collect] *)
Definition collect (ident : string) : M W MetadataResult :=
  let result := newResult in
  let result := set_type result "file" in
  let result := set_identifier result ident in
  if empty ident then ret (createErrorResult ident "Empty file path")
  else
    '(ok, result) <- collectStats ident result ;;
    if negb ok then ret result
    else
      let result := set_success result true in
      collectAccessInfo ident result.

Definition collector : CollectorBase.t W :=
  CollectorBase.make W collect File "FileCollector".

End WithOS.

End FileCollector.

(* ================================================================== *)
(** * src/process_collector.cpp *)
(* ================================================================== *)

Module ProcessCollector.
Import CLib Types Effects.

(** [ProcessCollector::parsePid] *)
Definition parsePid (identifier : string) : option Z :=
  let r := strtol identifier in
  if st_noconv r || negb (empty (st_end r)) then None
  else if (st_value r <=? 0) || (st_value r >? INT32_MAX) then None
  else Some (to_int32 (st_value r)).


(** The operating system as the process collector meets it.
    [getprocs64 pid] gives the count returned and the entry filled in;
    [emitBasicInfo] is the run of [addAttribute] calls of lines 103-168 for
    such an entry; the six best-effort collectors called after the basic
    information only append attributes and are taken as they come. *)
Record OS (W : Type) : Type := mkOS {
  procentry64 : Type;
  pi_pid : procentry64 -> Z;
  getprocs64 : Z -> M W (Z * procentry64);
  emitBasicInfo : procentry64 -> MetadataResult -> M W MetadataResult;
  collectExecutablePath : Z -> MetadataResult -> M W MetadataResult;
  collectWorkingDirectory : Z -> MetadataResult -> M W MetadataResult;
  collectCommandLine : Z -> MetadataResult -> M W MetadataResult;
  collectCredentials : Z -> MetadataResult -> M W MetadataResult;
  collectOpenFiles : Z -> MetadataResult -> M W MetadataResult;
  collectWparInfo : Z -> MetadataResult -> M W MetadataResult
}.

Arguments procentry64 {W} _.
Arguments pi_pid {W} _ _.
Arguments getprocs64 {W} _ _.
Arguments emitBasicInfo {W} _ _ _.
Arguments collectExecutablePath {W} _ _ _.
Arguments collectWorkingDirectory {W} _ _ _.
Arguments collectCommandLine {W} _ _ _.
Arguments collectCredentials {W} _ _ _.
Arguments collectOpenFiles {W} _ _ _.
Arguments collectWparInfo {W} _ _ _.

Section WithOS.

Variable W : Type.
Variable os : OS W.
Variable AIX : bool.

(** [ProcessCollector::collectBasicInfo] *)
Definition collectBasicInfo (pid : Z) (result : MetadataResult)
  : M W (bool * MetadataResult) :=
  if AIX then
    '(count, procInfo) <- getprocs64 os pid ;;
    if negb (count =? 1) || negb (pi_pid os procInfo =? pid)
    then ret (false, result)
    else
      result <- emitBasicInfo os procInfo result ;;
      ret (true, result)
  else
    let result := addAttributeInt result "pid" pid in
    let result := addAttribute result "_note"
                    "Process info collection requires AIX" in
    ret (true, result).

(** [ProcessCollector::collect] *)
Definition collect (ident : string) : M W MetadataResult :=
  let result := newResult in
  let result := set_type result "process" in
  let result := set_identifier result ident in
  match parsePid ident with
  | None => ret (createErrorResult ident ("Invalid PID format: " ++ ident))
  | Some pid =>
      '(ok, result) <- collectBasicInfo pid result ;;
      if negb ok then
        ret (createErrorResult ident
               ("Process not found or access denied for PID: " ++ ident))
      else
        let result := set_success result true in
        result <- collectExecutablePath os pid result ;;
        result <- collectWorkingDirectory os pid result ;;
        result <- collectCommandLine os pid result ;;
        result <- collectCredentials os pid result ;;
        result <- collectOpenFiles os pid result ;;
        result <- collectWparInfo os pid result ;;
        ret result
  end.


Definition collector : CollectorBase.t W :=
  CollectorBase.make W collect Process "ProcessCollector".

End WithOS.

End ProcessCollector.

(* ================================================================== *)
(** * The specification's vocabulary *)
(* ================================================================== *)

Module Spec.
Import CLib Types.

(** ** Reading a text as a base-10 integer *)

Fixpoint all_digits (s : string) : bool :=
  match s with
  | EmptyString => true
  | String c r => isdigit c && all_digits r
  end.

(** A numeral is a non-empty run of decimal digits; its value is the sum
    of its digits weighted by their position. *)
Definition numeral (s : string) : Prop := s <> EmptyString /\ all_digits s = true.

Fixpoint numeral_value (s : string) : Z :=
  match s with
  | EmptyString => 0
  | String c r => digit_of c * 10 ^ Z.of_nat (String.length r) + numeral_value r
  end.

(** [base10_integer s v]: the text [s] reads as the integer [v]: white
    space, then an optional sign, then a numeral and nothing more. *)
Inductive base10_integer : string -> Z -> Prop :=
| b10_space (c : ascii) (s : string) (v : Z) :
    isspace c = true -> base10_integer s v -> base10_integer (String c s) v
| b10_plus (ds : string) :
    numeral ds -> base10_integer (String "+" ds) (numeral_value ds)
| b10_minus (ds : string) :
    numeral ds -> base10_integer (String "-" ds) (- numeral_value ds)
| b10_plain (ds : string) :
    numeral ds -> base10_integer ds (numeral_value ds).

(** An identifier is a valid port (PID) when it reads as an integer of the
    range. The identifier is the C string the collector is given. *)
Definition valid_port (ident : string) (p : Z) : Prop :=
  base10_integer (c_str ident) p /\ 1 <= p <= 65535.

Definition valid_pid (ident : string) (p : Z) : Prop :=
  base10_integer (c_str ident) p /\ 1 <= p <= INT32_MAX.


(** ** Addresses of the form host.port *)

(** What follows the last occurrence of [c] in [s], if [c] occurs. *)
Fixpoint after_last (c : ascii) (s : string) : option string :=
  match s with
  | EmptyString => None
  | String a r =>
      match after_last c r with
      | Some t => Some t
      | None => if Ascii.eqb a c then Some r else None
      end
  end.

Definition port_token (addr : string) : option string := after_last "." addr.

(** The port token of an address reads as the port [p]. *)
Definition names_port (addr : string) (p : Z) : Prop :=
  exists t, port_token addr = Some t /\ base10_integer (c_str t) p.

Definition contains (c : ascii) (s : string) : bool := mem_char c s.

(** ** Results *)

(** Section 3 of the specification: the type is the tag of the collector
    that was invoked, and every attribute attached has a value. *)
Definition well_formed (q : QueryType) (r : MetadataResult) : Prop :=
  type r = type_tag q /\
  Forall (fun a => values a <> []) (attributes r).

(** The attributes of the connection at position [i]: the six that are
    always there, then pid, process and user where they are known. *)
Definition connection_block (i : nat) (c : PortCollector.ConnectionInfo)
  : list MetadataAttribute :=
  let pfx := "connection_" ++ dec (Z.of_nat i) ++ "_" in
  [ attr1 (pfx ++ "protocol") (PortCollector.protocol c);
    attr1 (pfx ++ "local_address") (PortCollector.localAddress c);
    attr1 (pfx ++ "local_port") (PortCollector.localPort c);
    attr1 (pfx ++ "remote_address") (PortCollector.remoteAddress c);
    attr1 (pfx ++ "remote_port") (PortCollector.remotePort c);
    attr1 (pfx ++ "state") (PortCollector.state c) ]
  ++ (if 0 <? PortCollector.pid c
      then [attr1 (pfx ++ "pid") (dec (PortCollector.pid c))] else [])
  ++ (if empty (PortCollector.processName c) then []
      else [attr1 (pfx ++ "process") (PortCollector.processName c)])
  ++ (if empty (PortCollector.user c) then []
      else [attr1 (pfx ++ "user") (PortCollector.user c)]).

(** The blocks of the connections from position [i] on. *)
Fixpoint connection_blocks (i : nat) (cs : list PortCollector.ConnectionInfo)
  : list MetadataAttribute :=
  match cs with
  | [] => []
  | c :: rest => connection_block i c ++ connection_blocks (S i) rest
  end.

Definition has_protocol (p : string) (c : PortCollector.ConnectionInfo) : Prop :=
  PortCollector.protocol c = p.

(** Two records describe the same connection: they agree on everything
    but the process attribution. *)
Definition same_endpoint (c d : PortCollector.ConnectionInfo) : Prop :=
  PortCollector.protocol c = PortCollector.protocol d /\
  PortCollector.localAddress c = PortCollector.localAddress d /\
  PortCollector.localPort c = PortCollector.localPort d /\
  PortCollector.remoteAddress c = PortCollector.remoteAddress d /\
  PortCollector.remotePort c = PortCollector.remotePort d /\
  PortCollector.state c = PortCollector.state d.

(** The kept lines of a netstat listing, in order, each with its socket
    address and the record built from it. *)
Fixpoint keptRecords (lines : list string) (port : Z) (proto : string)
  : list (string * PortCollector.ConnectionInfo) :=
  match lines with
  | [] => []
  | line :: rest =>
      match PortCollector.parseNetstatLine line port proto with
      | Some x => x :: keptRecords rest port proto
      | None => keptRecords rest port proto
      end
  end.

(** A returned record [c] stems from the kept line [x]: same connection,
    and untouched when the line had no socket address. *)
Definition stems_from (c : PortCollector.ConnectionInfo)
    (x : string * PortCollector.ConnectionInfo) : Prop :=
  same_endpoint c (snd x) /\ (fst x = EmptyString -> c = snd x).

(** A Result grows into another when attributes are appended and nothing
    else changes. *)
Definition grows (r r' : MetadataResult) : Prop :=
  exists tail,
    r' = mkResult (type r) (identifier r) (attributes r ++ tail)
                  (success r) (errorMessage r).

(** The Result [r] after the first seven attributes of the file
    statistics: type, size, device, inode, nlink, mode_octal and
    mode_symbolic. *)
Definition stats_head (lstatBuf statBuf : FileCollector.stat64_t)
    (r : MetadataResult) : MetadataResult :=
  let r := addAttribute r "type"
             (FileCollector.fileTypeToString (FileCollector.st_mode lstatBuf)) in
  let r := addAttributeInt r "size"
             (FileCollector.to_uint64 (FileCollector.st_size statBuf)) in
  let r := addAttributeInt r "device"
             (FileCollector.to_uint64 (FileCollector.st_dev statBuf)) in
  let r := addAttributeInt r "inode"
             (FileCollector.to_uint64 (FileCollector.st_ino statBuf)) in
  let r := addAttributeInt r "nlink"
             (FileCollector.to_uint64 (FileCollector.st_nlink statBuf)) in
  let r := addAttribute r "mode_octal"
             ("0" ++ oct (Z.land (FileCollector.st_mode statBuf) 0xFFF)) in
  addAttribute r "mode_symbolic"
    (FileCollector.modeToSymbolic (FileCollector.st_mode statBuf)).

(** ** Symbolic permissions *)

(** The plain rendering: cell [i] of "rwxrwxrwx" where permission bit
    [8 - i] is set, a dash where it is not. *)
Definition plain_cell (mode : Z) (i : nat) : ascii :=
  if Z.testbit mode (8 - Z.of_nat i)
  then match get i "rwxrwxrwx" with Some c => c | None => "-"%char end
  else "-"%char.

(** The substitution in an execute cell when the special bit is set:
    lower case over an [x], upper case over a dash. *)
Definition special_cell (special : bool) (lower upper cell : ascii) : ascii :=
  if special then (if Ascii.eqb cell "x" then lower else upper) else cell.

Definition symbolic (mode : Z) : string :=
  let cell := plain_cell mode in
  String (cell 0%nat) (String (cell 1%nat)
  (String (special_cell (Z.testbit mode 11) "s" "S" (cell 2%nat))
  (String (cell 3%nat) (String (cell 4%nat)
  (String (special_cell (Z.testbit mode 10) "s" "S" (cell 5%nat))
  (String (cell 6%nat) (String (cell 7%nat)
  (String (special_cell (Z.testbit mode 9) "t" "T" (cell 8%nat))
   EmptyString)))))))).

End Spec.

(* ================================================================== *)
(** * Sample hosts *)
(* ================================================================== *)

Module Samples.
Import CLib Types Effects.

(** A host on which no subprocess can be started. *)
Definition silent_host (cmd : string) : M unit (option (string * Z)) :=
  fun w => (None, w).

Definition sshd_listing : string :=
  "f1000e0001891398 tcp4 0 0 *.22 *.* LISTEN".

Definition peer_listing : string :=
  "tcp4 0 0 localhost 10.0.0.5.22 ESTABLISHED".

(** A host whose IPv4 TCP listing is [sshd_listing] and whose lsof knows
    the owner of port 22; every other command fails. *)
Definition ssh_host (cmd : string) : M unit (option (string * Z)) :=
  fun w =>
    (if String.eqb cmd "netstat -Aan -f inet 2>/dev/null | grep tcp"
     then Some (sshd_listing ++ String "010" EmptyString, 0)
     else if String.eqb cmd "lsof -i :22 -n -P 2>/dev/null | grep -i tcp"
     then Some ("COMMAND PID USER" ++ String "010" "sshd 1234 root 3u IPv4", 0)
     else None, w).

(** A file system with one regular file of mode 0644. *)
Definition passwd_stat : FileCollector.stat64_t :=
  FileCollector.mkStat 0x81A4 100 1 2 1 0 0 5 6 7 4096 8 0.

Definition passwd_os : FileCollector.OS unit :=
  FileCollector.mkOS unit unit
    (fun path w => (if String.eqb path "/etc/passwd" then inr passwd_stat
                    else inl 2, w))
    (fun path w => (inl 2, w))
    (fun err => "No such file or directory")
    (fun path w => ((-1, ""), w))
    (fun uid w => (Some "root", w))
    (fun gid w => (None, w))
    (fun t w => (Some tt, w))
    (fun _ => "1970-01-01T00:00:05")
    (fun path mode w => (0, w))
    (fun dev => 0) (fun dev => 0).

(** A process table without any process. *)
Definition empty_table : ProcessCollector.OS unit :=
  ProcessCollector.mkOS unit unit (fun _ => 0)
    (fun pid w => ((0, tt), w))
    (fun _ r w => (r, w))
    (fun _ r w => (r, w)) (fun _ r w => (r, w)) (fun _ r w => (r, w))
    (fun _ r w => (r, w)) (fun _ r w => (r, w)) (fun _ r w => (r, w)).

End Samples.

(* ================================================================== *)
(** * Names and rows: vocabulary for the port collector *)
(* ================================================================== *)

Module PortSchema.
Import CLib Types Effects PortCollector.

(** The prefix [collect] gives to the attributes of the connection at
    position [i]. *)
Definition connection_prefix (i : nat) : string :=
  "connection_" ++ dec (Z.of_nat i) ++ "_".

(** The attribute names of a connection, without the prefix. *)
Definition connection_fields (c : ConnectionInfo) : list string :=
  ["protocol"; "local_address"; "local_port"; "remote_address";
   "remote_port"; "state"]
  ++ (if 0 <? pid c then ["pid"] else [])
  ++ (if empty (processName c) then [] else ["process"])
  ++ (if empty (user c) then [] else ["user"]).

Definition all_connection_fields : list string :=
  ["protocol"; "local_address"; "local_port"; "remote_address";
   "remote_port"; "state"; "pid"; "process"; "user"].

(** A line of lsof output that the loop of [findProcessForPort] passes
    over: empty, fewer than three columns, or the header. *)
Definition lsof_skipped (line : string) : bool :=
  empty line
  || Nat.ltb (List.length (tokenize line)) 3
  || String.eqb (nth 0 (tokenize line) "") "COMMAND".

(** A record as [parseNetstatOutput] builds it before any process lookup. *)
Definition unattributed (c : ConnectionInfo) : Prop :=
  pid c = 0 /\ processName c = "" /\ user c = "".

(** The first token of a line, the one tested for a socket address. *)
Definition first_token (line : string) : string := nth 0 (tokenize line) "".

(** A world that also keeps the list of the command lines handed to
    [popen], in order. *)
Definition recording {W : Type}
    (popen_read : string -> M W (option (string * Z)))
  : string -> M (W * list string) (option (string * Z)) :=
  fun cmd st =>
    let '(r, w1) := popen_read cmd (fst st) in
    (r, (w1, (snd st ++ [cmd])%list)).

(** [m1] is [m] run in the recording world: same value, same world, and
    every command line it adds to the record satisfies [ok]. *)
Definition records {W A : Type} (ok : string -> Prop) (m : M W A)
    (m1 : M (W * list string) A) : Prop :=
  forall (w : W) (log : list string),
  exists added : list string,
    m1 (w, log) = (fst (m w), (snd (m w), (log ++ added)%list))
    /\ Forall ok added.

(** The command lines of the source, for a port and a protocol tag. *)
Definition lsof_command (AIX : bool) (port : Z) (proto : string) : string :=
  if AIX
  then "lsof -i :" ++ dec port ++ " -n -P 2>/dev/null | grep -i " ++ proto
  else "lsof -i :" ++ dec port
       ++ " -n -P 2>/dev/null | grep -v COMMAND | head -1".

Definition transport_commands (AIX : bool) (port : Z) (transport : string)
  : list string :=
  [ "netstat -Aan -f inet 2>/dev/null | grep " ++ transport;
    "netstat -an -f inet 2>/dev/null | grep " ++ transport;
    "netstat -Aan -f inet6 2>/dev/null | grep " ++ transport;
    lsof_command AIX port transport;
    lsof_command AIX port (transport ++ "6") ].

Definition commands_for (AIX : bool) (m_protocol : Protocol) (port : Z)
  : list string :=
  match m_protocol with
  | TCP => transport_commands AIX port "tcp"
  | UDP => transport_commands AIX port "udp"
  | Both => (transport_commands AIX port "tcp"
             ++ transport_commands AIX port "udp")%list
  end.

End PortSchema.

(* ================================================================== *)
(** * Attribute lists: vocabulary for the file collector *)
(* ================================================================== *)

Module FileSchema.
Import CLib Types Effects FileCollector.

(** [r'] is [r] with the attributes [tail] appended. *)
Definition extends (tail : list MetadataAttribute) (r r' : MetadataResult)
  : Prop :=
  r' = mkResult (type r) (identifier r) (attributes r ++ tail)
                (success r) (errorMessage r).

Definition flag_attribute (b : bool) (n : string) : list MetadataAttribute :=
  if b then [attr1 n "true"] else [].

(** What is recorded about a symbolic link: whether its target could be
    examined, and what [readlink] returned ([len] bytes in [buf]). *)
Definition link_attributes (broken : bool) (len : Z) (buf : string)
  : list MetadataAttribute :=
  flag_attribute broken "symlink_broken"
  ++ attr1 "is_symlink" "true"
  :: (if len >? 0 then
        let target := c_str (substr_to buf (Z.to_nat len)) in
        [ attr1 "symlink_target" target;
          attr1 "symlink_type"
            (match target with
             | String "/"%char _ => "absolute"
             | _ => "relative"
             end) ]
      else [attr1 "symlink_target" "unreadable"]).

(** The statistics: [lst] describes the path itself, [st] the entity the
    numbers are taken from. *)
Definition stat_attributes (lst st : stat64_t)
    (owner group atime mtime ctime : string) (rmajor rminor : Z)
  : list MetadataAttribute :=
  [ attr1 "type" (fileTypeToString (st_mode lst));
    attr1 "size" (dec (to_uint64 (st_size st)));
    attr1 "device" (dec (to_uint64 (st_dev st)));
    attr1 "inode" (dec (to_uint64 (st_ino st)));
    attr1 "nlink" (dec (to_uint64 (st_nlink st)));
    attr1 "mode_octal" ("0" ++ oct (Z.land (st_mode st) 0xFFF));
    attr1 "mode_symbolic" (modeToSymbolic (st_mode st)) ]
  ++ flag_attribute (has (st_mode st) S_ISUID) "setuid"
  ++ flag_attribute (has (st_mode st) S_ISGID) "setgid"
  ++ flag_attribute (has (st_mode st) S_ISVTX) "sticky"
  ++ [ attr1 "uid" (dec (st_uid st));
       attr1 "owner" owner;
       attr1 "gid" (dec (st_gid st));
       attr1 "group" group;
       attr1 "access_time" atime;
       attr1 "modify_time" mtime;
       attr1 "change_time" ctime;
       attr1 "atime_epoch" (dec (st_atime st));
       attr1 "mtime_epoch" (dec (st_mtime st));
       attr1 "ctime_epoch" (dec (st_ctime st));
       attr1 "block_size" (dec (st_blksize st));
       attr1 "blocks" (dec (st_blocks st)) ]
  ++ (if S_ISBLK (st_mode st) || S_ISCHR (st_mode st)
      then [ attr1 "rdev_major" (dec rmajor); attr1 "rdev_minor" (dec rminor) ]
      else []).

Definition access_flag (v : Z) : string := if v =? 0 then "true" else "false".

Definition access_attributes (r w x : Z) : list MetadataAttribute :=
  [ attr1 "current_user_readable" (access_flag r);
    attr1 "current_user_writable" (access_flag w);
    attr1 "current_user_executable" (access_flag x) ].

Definition failed {A B : Type} (r : A + B) : bool :=
  match r with inl _ => true | inr _ => false end.

(** The buffer the statistics are taken from: that of the path itself,
    unless the path is a symbolic link whose target [stat64] could
    examine. *)
Definition stat_source (lst : stat64_t) (target : Z + stat64_t) : stat64_t :=
  if S_ISLNK (st_mode lst)
  then match target with inr b => b | inl _ => lst end
  else lst.

Definition is_device (mode : Z) : bool := S_ISBLK mode || S_ISCHR mode.

(** The names of the attributes of a successful file Result, from what
    decides them: is the path a link, was the link broken, could the link be
    read, the three special bits, is the entity a device. *)
Definition file_attribute_names (link broken readable suid sgid sticky device : bool)
  : list string :=
  (if link
   then (if broken then ["symlink_broken"] else [])
        ++ ["is_symlink"; "symlink_target"]
        ++ (if readable then ["symlink_type"] else [])
   else [])
  ++ ["type"; "size"; "device"; "inode"; "nlink"; "mode_octal"; "mode_symbolic"]
  ++ (if suid then ["setuid"] else [])
  ++ (if sgid then ["setgid"] else [])
  ++ (if sticky then ["sticky"] else [])
  ++ ["uid"; "owner"; "gid"; "group"; "access_time"; "modify_time";
      "change_time"; "atime_epoch"; "mtime_epoch"; "ctime_epoch";
      "block_size"; "blocks"]
  ++ (if device then ["rdev_major"; "rdev_minor"] else [])
  ++ ["current_user_readable"; "current_user_writable";
      "current_user_executable"].

(** Are the texts of a list pairwise different? *)
Fixpoint distinct (l : list string) : bool :=
  match l with
  | [] => true
  | x :: r => negb (existsb (String.eqb x) r) && distinct r
  end.

(** The value of a text of octal digits. *)
Fixpoint oct_value (s : string) : Z :=
  match s with
  | EmptyString => 0
  | String c r => digit_of c * 8 ^ Z.of_nat (String.length r) + oct_value r
  end.

Fixpoint all_octal (s : string) : bool :=
  match s with
  | EmptyString => true
  | String c r =>
      (Nat.leb 48 (nat_of_ascii c) && Nat.leb (nat_of_ascii c) 55) && all_octal r
  end.

End FileSchema.

(* ================================================================== *)
(** * include/json_formatter.h, src/json_formatter.cpp *)
(* ================================================================== *)

Module JsonFormatter.
Import CLib Types.

Definition dquote : ascii := "034".
Definition backslash : ascii := "092".
Definition newline : string := String "010" EmptyString.

(** The text [s] between two quotation marks, as the formatter writes
    every name and every string value. *)
Definition quoted (s : string) : string :=
  String dquote (s ++ String dquote EmptyString).

Definition hex_digit (n : nat) : ascii :=
  if Nat.ltb n 10 then ascii_of_nat (48 + n) else ascii_of_nat (87 + n).

(** [<< std::hex << std::setfill('0') << std::setw(4) << n], for
    [n < 65536]. *)
Definition hex4 (n : nat) : string :=
  String (hex_digit (Nat.modulo (Nat.div n 4096) 16))
    (String (hex_digit (Nat.modulo (Nat.div n 256) 16))
       (String (hex_digit (Nat.modulo (Nat.div n 16) 16))
          (String (hex_digit (Nat.modulo n 16)) EmptyString))).

(** The body of the loop of [escapeString]: what one character adds. *)
Definition escapeChar (c : ascii) : string :=
  if Ascii.eqb c dquote then String backslash (String dquote EmptyString)
  else if Ascii.eqb c backslash
  then String backslash (String backslash EmptyString)
  else if Ascii.eqb c "008" then String backslash "b"
  else if Ascii.eqb c "012" then String backslash "f"
  else if Ascii.eqb c "010" then String backslash "n"
  else if Ascii.eqb c "013" then String backslash "r"
  else if Ascii.eqb c "009" then String backslash "t"
  else if Nat.ltb (nat_of_ascii c) 32
  then String backslash (String "u" (hex4 (nat_of_ascii c)))
  else String c EmptyString.

(** [JsonFormatter::escapeString] *)
Fixpoint escapeString (str : string) : string :=
  match str with
  | EmptyString => EmptyString
  | String c r => escapeChar c ++ escapeString r
  end.

Fixpoint spaces (n : nat) : string :=
  match n with
  | O => EmptyString
  | S k => String " " (spaces k)
  end.

(** [JsonFormatter::indent]: [std::string(level * 2, ' ')]; the callers
    pass 0, 1 or 2. *)
Definition indent (level : Z) : string := spaces (Z.to_nat (level * 2)).

(** The loop over [attr.values] of [formatAttribute], with its [first]
    flag. *)
Fixpoint formatValues (sp : string) (first : bool) (vs : list string)
  : string :=
  match vs with
  | [] => EmptyString
  | value :: rest =>
      (if first then EmptyString else "," ++ sp)
      ++ quoted (escapeString value) ++ formatValues sp false rest
  end.

(** [JsonFormatter::formatAttribute] *)
Definition formatAttribute (attr : MetadataAttribute) (prettyPrint : bool)
  (indentLevel : Z) : string :=
  let sp := if prettyPrint then " " else EmptyString in
  indent (if prettyPrint then indentLevel else 0)
  ++ quoted (escapeString (name attr)) ++ ":" ++ sp
  ++ match values attr with
     | [v] => quoted (escapeString v)
     | [] => "null"
     | vs => "[" ++ formatValues sp true vs ++ "]"
     end.

(** The loop over [result.attributes] of [format], with its [firstAttr]
    flag. *)
Fixpoint formatAttributes (nl : string) (prettyPrint : bool)
  (firstAttr : bool) (attrs : list MetadataAttribute) : string :=
  match attrs with
  | [] => EmptyString
  | attr :: rest =>
      (if firstAttr then EmptyString else "," ++ nl)
      ++ formatAttribute attr prettyPrint 2
      ++ formatAttributes nl prettyPrint false rest
  end.

(** [JsonFormatter::format] *)
Definition format (result : MetadataResult) (prettyPrint : bool) : string :=
  let nl := if prettyPrint then newline else EmptyString in
  let sp := if prettyPrint then " " else EmptyString in
  let ind := indent (if prettyPrint then 1 else 0) in
  "{" ++ nl
  ++ ind ++ quoted "success" ++ ":" ++ sp
  ++ (if success result then "true" else "false") ++ "," ++ nl
  ++ ind ++ quoted "type" ++ ":" ++ sp
  ++ quoted (escapeString (type result)) ++ "," ++ nl
  ++ ind ++ quoted "identifier" ++ ":" ++ sp
  ++ quoted (escapeString (identifier result)) ++ "," ++ nl
  ++ (if negb (success result) && negb (empty (errorMessage result))
      then ind ++ quoted "error" ++ ":" ++ sp
           ++ quoted (escapeString (errorMessage result)) ++ "," ++ nl
      else EmptyString)
  ++ ind ++ quoted "attributes" ++ ":" ++ sp ++ "{" ++ nl
  ++ formatAttributes nl prettyPrint true (attributes result)
  ++ nl ++ ind ++ "}" ++ nl
  ++ "}".

(** The loop [while (std::getline(stream, line))] of [formatArray]:
    every line of one formatted result behind [indent(1)]. *)
Fixpoint indentLines (firstLine : bool) (lines : list string) : string :=
  match lines with
  | [] => EmptyString
  | line :: rest =>
      (if firstLine then EmptyString else newline)
      ++ indent 1 ++ line ++ indentLines false rest
  end.

Fixpoint formatResults (nl : string) (prettyPrint : bool) (first : bool)
  (results : list MetadataResult) : string :=
  match results with
  | [] => EmptyString
  | result :: rest =>
      (if first then EmptyString else "," ++ nl)
      ++ (let resultJson := format result prettyPrint in
          if prettyPrint then indentLines true (getlines resultJson)
          else resultJson)
      ++ formatResults nl prettyPrint false rest
  end.

(** [JsonFormatter::formatArray] *)
Definition formatArray (results : list MetadataResult) (prettyPrint : bool)
  : string :=
  let nl := if prettyPrint then newline else EmptyString in
  "[" ++ nl ++ formatResults nl prettyPrint true results ++ nl ++ "]".

End JsonFormatter.

(* ================================================================== *)
(** * Reading JSON text *)
(* ================================================================== *)

(** The string production of the JSON grammar (RFC 8259, section 7), as
    a reader over bytes, and two predicates on output text.  Nothing here
    comes from the program; it is what a consumer of the output does. *)
Module JsonReader.
Import CLib.
Import JsonFormatter.

Definition hex_value (c : ascii) : option nat :=
  let n := nat_of_ascii c in
  if Nat.leb 48 n && Nat.leb n 57 then Some (n - 48)%nat
  else if Nat.leb 97 n && Nat.leb n 102 then Some (n - 87)%nat
  else if Nat.leb 65 n && Nat.leb n 70 then Some (n - 55)%nat
  else None.

(** The character a two-character escape stands for. *)
Definition simple_escape (e : ascii) : option ascii :=
  if Ascii.eqb e dquote then Some dquote
  else if Ascii.eqb e backslash then Some backslash
  else if Ascii.eqb e "/" then Some "/"%char
  else if Ascii.eqb e "b" then Some "008"%char
  else if Ascii.eqb e "f" then Some "012"%char
  else if Ascii.eqb e "n" then Some "010"%char
  else if Ascii.eqb e "r" then Some "013"%char
  else if Ascii.eqb e "t" then Some "009"%char
  else None.

Definition push (c : ascii) (r : option (string * string))
  : option (string * string) :=
  match r with
  | Some (s, rest) => Some (String c s, rest)
  | None => None
  end.

(** Reads the characters of a string after its opening quotation mark,
    up to and including the closing one: the string denoted and the text
    left.  A raw control character or quotation mark inside the string,
    an unknown escape, and a [\u] escape outside ASCII are refused. *)
Fixpoint read_chars (s : string) : option (string * string) :=
  match s with
  | EmptyString => None
  | String c r =>
      if Ascii.eqb c dquote then Some (EmptyString, r)
      else if Ascii.eqb c backslash then
        match r with
        | EmptyString => None
        | String e r1 =>
            if Ascii.eqb e "u" then
              match r1 with
              | String h1 (String h2 (String h3 (String h4 r2))) =>
                  match hex_value h1, hex_value h2, hex_value h3,
                        hex_value h4 with
                  | Some a, Some b, Some c', Some d =>
                      let n := (((a * 16 + b) * 16 + c') * 16 + d)%nat in
                      if Nat.ltb n 128
                      then push (ascii_of_nat n) (read_chars r2)
                      else None
                  | _, _, _, _ => None
                  end
              | _ => None
              end
            else
              match simple_escape e with
              | Some x => push x (read_chars r1)
              | None => None
              end
        end
      else if Nat.ltb (nat_of_ascii c) 32 then None
      else push c (read_chars r)
  end.

(** A string in quotation marks at the head of a text. *)
Definition read_string (s : string) : option (string * string) :=
  match s with
  | String c r => if Ascii.eqb c dquote then read_chars r else None
  | EmptyString => None
  end.

Definition is_ws (c : ascii) : bool :=
  Ascii.eqb c " " || Ascii.eqb c "010" || Ascii.eqb c "013"
  || Ascii.eqb c "009".

Fixpoint skip_ws (s : string) : string :=
  match s with
  | EmptyString => EmptyString
  | String c r => if is_ws c then skip_ws r else s
  end.

Fixpoint strip_prefix (p s : string) : option string :=
  match p with
  | EmptyString => Some s
  | String a p1 =>
      match s with
      | String b s1 => if Ascii.eqb a b then strip_prefix p1 s1 else None
      | EmptyString => None
      end
  end.

(** Insignificant white space, then the given text. *)
Definition token (t s : string) : option string :=
  strip_prefix t (skip_ws s).

Definition and_then {A B : Type} (m : option A) (k : A -> option B)
  : option B :=
  match m with
  | Some a => k a
  | None => None
  end.

(** A member name: a string, then a colon; the name must be [k]. *)
Definition key (k s : string) : option string :=
  and_then (read_string (skip_ws s)) (fun '(n, r) =>
    if String.eqb n k then token ":" r else None).

Definition read_bool (s : string) : option (bool * string) :=
  match token "true" s with
  | Some r => Some (true, r)
  | None =>
      match token "false" s with
      | Some r => Some (false, r)
      | None => None
      end
  end.

(** The elements of a non-empty array of strings, after its opening
    bracket, up to and including the closing one. *)
Fixpoint read_elements (fuel : nat) (s : string)
  : option (list string * string) :=
  match fuel with
  | O => None
  | S f =>
      and_then (read_string (skip_ws s)) (fun '(v, r) =>
        match skip_ws r with
        | String c r1 =>
            if Ascii.eqb c "," then
              and_then (read_elements f r1) (fun '(vs, r2) =>
                Some (v :: vs, r2))
            else if Ascii.eqb c "]" then Some ([v], r1)
            else None
        | EmptyString => None
        end)
  end.

(** The value of an attribute: a string stands for the list of itself,
    [null] for the empty list, an array of strings for its elements. *)
Definition read_value (s : string) : option (list string * string) :=
  match skip_ws s with
  | EmptyString => None
  | String c r =>
      if Ascii.eqb c dquote then
        and_then (read_chars r) (fun '(v, r1) => Some ([v], r1))
      else if Ascii.eqb c "[" then
        match token "]" r with
        | Some r1 => Some ([], r1)
        | None => read_elements (String.length r) r
        end
      else
        and_then (strip_prefix "null" (String c r)) (fun r1 =>
          Some ([], r1))
  end.

(** The members of a non-empty object of attributes, after its opening
    brace, up to and including the closing one. *)
Fixpoint read_members (fuel : nat) (s : string)
  : option (list Types.MetadataAttribute * string) :=
  match fuel with
  | O => None
  | S f =>
      and_then (read_string (skip_ws s)) (fun '(n, r) =>
      and_then (token ":" r) (fun r1 =>
      and_then (read_value r1) (fun '(vs, r2) =>
        match skip_ws r2 with
        | String c r3 =>
            if Ascii.eqb c "," then
              and_then (read_members f r3) (fun '(ms, r4) =>
                Some (Types.mkAttr n vs :: ms, r4))
            else if Ascii.eqb c "}" then Some ([Types.mkAttr n vs], r3)
            else None
        | EmptyString => None
        end)))
  end.

Definition read_object (s : string)
  : option (list Types.MetadataAttribute * string) :=
  and_then (token "{" s) (fun r =>
    match token "}" r with
    | Some r1 => Some ([], r1)
    | None => read_members (String.length r) r
    end).

(** The end of a document: the attributes, both closing braces, and
    nothing but white space after them. *)
Definition read_tail (s : string)
  : option (list Types.MetadataAttribute) :=
  and_then (key "attributes" s) (fun r =>
  and_then (read_object r) (fun '(attrs, r1) =>
  and_then (token "}" r1) (fun r2 =>
    if empty (skip_ws r2) then Some attrs else None))).

(** A whole document: the members [success], [type], [identifier], an
    optional [error], and [attributes], in this order.  A document
    without [error] is read with an empty error message. *)
Definition read_result (s : string) : option Types.MetadataResult :=
  and_then (token "{" s) (fun r =>
  and_then (key "success" r) (fun r =>
  and_then (read_bool r) (fun '(ok, r) =>
  and_then (token "," r) (fun r =>
  and_then (key "type" r) (fun r =>
  and_then (read_string (skip_ws r)) (fun '(ty, r) =>
  and_then (token "," r) (fun r =>
  and_then (key "identifier" r) (fun r =>
  and_then (read_string (skip_ws r)) (fun '(ident, r) =>
  and_then (token "," r) (fun r =>
    match key "error" r with
    | Some r1 =>
        and_then (read_string (skip_ws r1)) (fun '(msg, r2) =>
        and_then (token "," r2) (fun r3 =>
        and_then (read_tail r3) (fun attrs =>
          Some (Types.mkResult ty ident attrs ok msg))))
    | None =>
        and_then (read_tail r) (fun attrs =>
          Some (Types.mkResult ty ident attrs ok EmptyString))
    end)))))))))).

Fixpoint all_chars (p : ascii -> bool) (s : string) : bool :=
  match s with
  | EmptyString => true
  | String c r => p c && all_chars p r
  end.

Definition is_control (c : ascii) : bool := Nat.ltb (nat_of_ascii c) 32.

Definition is_newline (c : ascii) : bool := Ascii.eqb c "010".

End JsonReader.

(* ================================================================== *)
(** * The layout of a document *)
(* ================================================================== *)

(** Names for pieces of the text [format] prints, used to state how the
    output reads back. *)
Module JsonLayout.
Import CLib JsonFormatter JsonReader.

(** White space only. *)
Definition blank (w : string) : Prop := all_chars is_ws w = true.

(** The separators [sp] and [nl] of [format]. *)
Definition sp_of (p : bool) : string := if p then " " else EmptyString.
Definition nl_of (p : bool) : string := if p then newline else EmptyString.

(** The value part of [formatAttribute]. *)
Definition value_text (p : bool) (vs : list string) : string :=
  match vs with
  | [v] => quoted (escapeString v)
  | [] => "null"
  | _ => ("[" ++ formatValues (sp_of p) true vs ++ "]")%string
  end.

(** What [format] prints from the member [attributes] on. *)
Definition tail_text (p : bool) (attrs : list Types.MetadataAttribute)
  : string :=
  (indent (if p then 1 else 0) ++ quoted "attributes"
   ++ String ":" (sp_of p
   ++ String "{" (nl_of p ++ formatAttributes (nl_of p) p true attrs
   ++ nl_of p ++ indent (if p then 1 else 0)
   ++ String "}" (nl_of p ++ "}"))))%string.

End JsonLayout.

(* ================================================================== *)
(** * src/main.cpp *)
(* ================================================================== *)

Module Cli.
Import CLib Effects.

Definition VERSION : string := "1.0.0".
Definition PROGRAM_NAME : string := "aix-metadata-collector".

(** Text written line by line; [std::endl] and ["\n"] both end a line. *)
Fixpoint unlines (ls : list string) : string :=
  match ls with
  | [] => EmptyString
  | l :: r => l ++ String "010" (unlines r)
  end.

(** What [printUsage] writes to standard output. *)
Definition usage_text : string :=
  unlines
    [ "AIX Metadata Collector v" ++ VERSION;
      "";
      "Usage:";
      "  " ++ PROGRAM_NAME ++ " --process <pid>";
      "  " ++ PROGRAM_NAME ++ " --file <path>";
      "  " ++ PROGRAM_NAME ++ " --port <port> [--protocol tcp|udp|both]";
      "  " ++ PROGRAM_NAME ++ " --help";
      "  " ++ PROGRAM_NAME ++ " --version";
      "";
      "Options:";
      "  -p, --process <pid>     Collect metadata for a process by PID";
      "  -f, --file <path>       Collect metadata for a file by path";
      "  -P, --port <port>       Collect metadata for network connections on a port";
      "  --protocol <proto>      Protocol filter for port queries (tcp, udp, or both)";
      "                          Default: both";
      "  --compact               Output compact JSON (no pretty printing)";
      "  -h, --help              Show this help message";
      "  -v, --version           Show version information";
      "";
      "Examples:";
      "  " ++ PROGRAM_NAME ++ " --process 1234";
      "  " ++ PROGRAM_NAME ++ " --file /etc/passwd";
      "  " ++ PROGRAM_NAME ++ " --port 22 --protocol tcp";
      "  " ++ PROGRAM_NAME ++ " -p 1 --compact";
      "";
      "Output:";
      "  Results are output in JSON format to stdout.";
      "  Errors are output to stderr.";
      "";
      "Notes:";
      "  - Some operations may require root privileges for full information.";
      "  - Process and port queries may have limited data without elevated access.";
      "" ].

(** What [printVersion] writes to standard output. *)
Definition version_text : string :=
  unlines [ PROGRAM_NAME ++ " version " ++ VERSION; "Built for AIX 7.2." ].

(** [CommandLineArgs::Mode] *)
Inductive Mode : Type :=
  | ModeNone | ModeProcess | ModeFile | ModePort | ModeHelp | ModeVersion.

(** [struct CommandLineArgs] *)
Record CommandLineArgs : Type := mkArgs {
  mode : Mode;
  identifier : string;
  protocol : Types.Protocol;
  prettyPrint : bool;
  valid : bool;
  errorMessage : string
}.

(** The member initialisers of [CommandLineArgs]. *)
Definition newArgs : CommandLineArgs :=
  mkArgs ModeNone "" Types.Both true true "".

Definition set_mode (a : CommandLineArgs) (m : Mode) : CommandLineArgs :=
  mkArgs m (identifier a) (protocol a) (prettyPrint a) (valid a)
         (errorMessage a).

(** [args.mode = m; args.identifier = argv[++i];] *)
Definition set_query (a : CommandLineArgs) (m : Mode) (ident : string)
  : CommandLineArgs :=
  mkArgs m ident (protocol a) (prettyPrint a) (valid a) (errorMessage a).

Definition set_protocol (a : CommandLineArgs) (p : Types.Protocol)
  : CommandLineArgs :=
  mkArgs (mode a) (identifier a) p (prettyPrint a) (valid a) (errorMessage a).

Definition set_prettyPrint (a : CommandLineArgs) (b : bool)
  : CommandLineArgs :=
  mkArgs (mode a) (identifier a) (protocol a) b (valid a) (errorMessage a).

(** [args.valid = false; args.errorMessage = msg; return args;] *)
Definition reject (a : CommandLineArgs) (msg : string) : CommandLineArgs :=
  mkArgs (mode a) (identifier a) (protocol a) (prettyPrint a) false msg.

(** The [for] loop of [parseArgs] and the check after it, over the
    arguments not yet looked at.  An argument is a C string, so
    [strcmp(a, b) == 0] is equality of strings. *)
Fixpoint parseArgs_from (argv : list string) (args : CommandLineArgs)
  : CommandLineArgs :=
  match argv with
  | [] =>
      match mode args with
      | ModeNone =>
          reject args
            "No operation specified. Use --process, --file, or --port"
      | _ => args
      end
  | arg :: rest =>
      if String.eqb arg "-h" || String.eqb arg "--help"
      then set_mode args ModeHelp
      else if String.eqb arg "-v" || String.eqb arg "--version"
      then set_mode args ModeVersion
      else if String.eqb arg "-p" || String.eqb arg "--process" then
        match rest with
        | [] => reject args "Missing PID argument for --process"
        | value :: rest1 =>
            parseArgs_from rest1 (set_query args ModeProcess value)
        end
      else if String.eqb arg "-f" || String.eqb arg "--file" then
        match rest with
        | [] => reject args "Missing path argument for --file"
        | value :: rest1 =>
            parseArgs_from rest1 (set_query args ModeFile value)
        end
      else if String.eqb arg "-P" || String.eqb arg "--port" then
        match rest with
        | [] => reject args "Missing port argument for --port"
        | value :: rest1 =>
            parseArgs_from rest1 (set_query args ModePort value)
        end
      else if String.eqb arg "--protocol" then
        match rest with
        | [] => reject args "Missing protocol argument for --protocol"
        | proto :: rest1 =>
            if String.eqb proto "tcp"
            then parseArgs_from rest1 (set_protocol args Types.TCP)
            else if String.eqb proto "udp"
            then parseArgs_from rest1 (set_protocol args Types.UDP)
            else if String.eqb proto "both"
            then parseArgs_from rest1 (set_protocol args Types.Both)
            else reject args "Invalid protocol. Use: tcp, udp, or both"
        end
      else if String.eqb arg "--compact"
      then parseArgs_from rest (set_prettyPrint args false)
      else reject args ("Unknown argument: " ++ arg)
  end.

(** [parseArgs], given [argv[1]], ..., [argv[argc - 1]]. *)
Definition parseArgs (argv : list string) : CommandLineArgs :=
  let args := newArgs in
  match argv with
  | [] => set_mode args ModeHelp
  | _ => parseArgs_from argv args
  end.

(** What a run of the program leaves: its exit status and what it wrote
    to standard output and to standard error. *)
Record Run : Type := mkRun {
  exit_code : Z;
  out : string;
  err : string
}.

(** The end of [main]: the result as JSON, and the exit status. *)
Definition report (result : Types.MetadataResult) (pretty : bool) : Run :=
  let json := JsonFormatter.format result pretty in
  mkRun (if Types.success result then 0 else 1)
        (json ++ String "010" EmptyString) "".

Section WithHost.

Variable W : Type.
Variable popen_read : string -> M W (option (string * Z)).
Variable file_os : FileCollector.OS W.
Variable process_os : ProcessCollector.OS W.
Variable AIX : bool.

(** [main], given [argv[1]], ..., [argv[argc - 1]]. *)
Definition main (argv : list string) : M W Run :=
  let args := parseArgs argv in
  if negb (valid args) then
    ret (mkRun 1 ""
           (unlines [ "Error: " ++ errorMessage args;
                      "Use --help for usage information." ]))
  else
    match mode args with
    | ModeHelp => ret (mkRun 0 usage_text "")
    | ModeVersion => ret (mkRun 0 version_text "")
    | ModeProcess =>
        result <- ProcessCollector.collect W process_os AIX
                    (identifier args) ;;
        ret (report result (prettyPrint args))
    | ModeFile =>
        result <- FileCollector.collect W file_os (identifier args) ;;
        ret (report result (prettyPrint args))
    | ModePort =>
        result <- PortCollector.collect W popen_read AIX (protocol args)
                    (identifier args) ;;
        ret (report result (prettyPrint args))
    | ModeNone =>
        ret (mkRun 1 "" (unlines [ "Error: Internal error - unknown mode" ]))
    end.

End WithHost.

(** The options that select a mode. *)
Definition selects (m : Mode) (opt : string) : bool :=
  match m with
  | ModeProcess => String.eqb opt "-p" || String.eqb opt "--process"
  | ModeFile => String.eqb opt "-f" || String.eqb opt "--file"
  | ModePort => String.eqb opt "-P" || String.eqb opt "--port"
  | _ => false
  end.

Definition is_query (m : Mode) : bool :=
  match m with
  | ModeProcess | ModeFile | ModePort => true
  | _ => false
  end.

(** The state of [parseArgs] between two arguments, [seen] being the
    arguments behind it: nothing has been rejected, and a query mode was
    set by one of its options, with the argument after it as the
    identifier. *)
Definition between (seen : list string) (a : CommandLineArgs) : Prop :=
  valid a = true
  /\ (is_query (mode a) = false -> mode a = ModeNone)
  /\ (is_query (mode a) = true ->
      exists pre opt post,
        seen = (pre ++ opt :: identifier a :: post)%list
        /\ selects (mode a) opt = true).

(** What [parseArgs] promises about its result for the arguments [argv]. *)
Definition parsed (argv : list string) (a : CommandLineArgs) : Prop :=
  (valid a = true -> mode a <> ModeNone)
  /\ (valid a = false -> errorMessage a <> EmptyString)
  /\ (valid a = true -> is_query (mode a) = true ->
      exists pre opt post,
        argv = (pre ++ opt :: identifier a :: post)%list
        /\ selects (mode a) opt = true).

End Cli.

(* ================================================================== *)
(** * src/process_collector.cpp: the collectors behind [collect] *)
(* ================================================================== *)

Module ProcessDetails.
Import CLib Types Effects.

(** The fields of [struct prcred] the collector reads. *)
Record prcred : Type := mkCred {
  pr_euid : Z;
  pr_egid : Z;
  pr_ruid : Z;
  pr_rgid : Z;
  pr_suid : Z;
  pr_sgid : Z
}.

(** The operating system as the six best-effort collectors meet it.
    [basicAttributes] stands for the attributes lines 103-168 add for a
    process entry.  [ifstream path] is the whole text of the file when it
    could be opened.  [getargs] gives its return value and the argument
    buffer; a buffer of fewer than [ARGS_BUFFER] bytes stands for one
    filled up with NULs, as [memset] leaves it.  [read_prcred path] is the structure when [open] succeeded and
    [read] filled it.  [opendir path] gives the names [readdir] returns
    until it returns null. *)
Record Host (W : Type) : Type := mkHost {
  procentry64 : Type;
  pi_pid : procentry64 -> Z;
  pi_cid : procentry64 -> Z;                   (* cid_t, an unsigned short *)
  pi_comm : procentry64 -> string;
  getprocs64 : Z -> M W (Z * procentry64);
  basicAttributes : procentry64 -> M W (list MetadataAttribute);
  readlink : string -> M W (Z * string);       (* return value, buffer *)
  ifstream : string -> M W (option string);
  getargs : procentry64 -> M W (Z * string);   (* return value, buffer *)
  read_prcred : string -> M W (option prcred);
  getpwuid : Z -> M W (option string);         (* pw_name *)
  opendir : string -> M W (option (list string))
}.

Arguments procentry64 {W} _.
Arguments pi_pid {W} _ _.
Arguments pi_cid {W} _ _.
Arguments pi_comm {W} _ _.
Arguments getprocs64 {W} _ _.
Arguments basicAttributes {W} _ _.
Arguments readlink {W} _ _.
Arguments ifstream {W} _ _.
Arguments getargs {W} _ _.
Arguments read_prcred {W} _ _.
Arguments getpwuid {W} _ _.
Arguments opendir {W} _ _.

(** [path << "/proc/" << pid << leaf] *)
Definition proc_path (pid : Z) (leaf : string) : string :=
  "/proc/" ++ dec pid ++ leaf.

(** [linkTarget[len] = '\0'; std::string(linkTarget)] *)
Definition link_text (len : Z) (buf : string) : string :=
  c_str (substr_to buf (Z.to_nat len)).

(** [ptr += n] within a buffer. *)
Fixpoint advance (n : nat) (ptr : string) : string :=
  match n, ptr with
  | O, _ => ptr
  | S _, EmptyString => EmptyString
  | S k, String _ r => advance k r
  end.

Definition ARGS_BUFFER : nat := 4096.

(** The loop of [collectCommandLine] over the argument buffer: [ptr] is
    the part of the buffer from the pointer on, its end the end of the
    buffer.  Every turn moves the pointer on, so [ARGS_BUFFER] turns are
    enough. *)
Fixpoint joinArgs (fuel : nat) (ptr : string) (first : bool)
  (cmdline : string) : string :=
  match fuel with
  | O => cmdline
  | S f =>
      match ptr with
      | EmptyString => cmdline
      | String c _ =>
          if Ascii.eqb c zero then cmdline
          else
            let arg := c_str ptr in
            let cmdline := cmdline ++ (if first then "" else " ") ++ arg in
            joinArgs f (advance (String.length arg + 1) ptr) false cmdline
      end
  end.

(** [std::getline(iss, field, ':')] on a string stream: the stream is
    the text not yet read, or [None] once the end of the text has been
    met.  The call fails on such a stream and when nothing is left to
    extract; otherwise it gives the field and the stream behind it. *)
Fixpoint split_at (d : ascii) (s : string) : string * option string :=
  match s with
  | EmptyString => (EmptyString, None)
  | String c r =>
      if Ascii.eqb c d then (EmptyString, Some r)
      else let '(field, rest) := split_at d r in (String c field, rest)
  end.

Definition getline_delim (d : ascii) (stream : option string)
  : option (string * option string) :=
  match stream with
  | None => None
  | Some EmptyString => None
  | Some s => Some (split_at d s)
  end.

(** The four [getline] calls on one line of [/etc/corrals/index]:
    [wparId], [wparType], [wparName], [kernelCidStr]. *)
Definition parseIndexLine (line : string)
  : option (string * string * string * string) :=
  match getline_delim ":" (Some line) with
  | None => None
  | Some (wparId, s1) =>
      match getline_delim ":" s1 with
      | None => None
      | Some (wparType, s2) =>
          match getline_delim ":" s2 with
          | None => None
          | Some (wparName, s3) =>
              match getline_delim ":" s3 with
              | None => None
              | Some (kernelCidStr, _) =>
                  Some (wparId, wparType, wparName, kernelCidStr)
              end
          end
      end
  end.

(** [std::atoi], as [(int) strtol(s, NULL, 10)]. *)
Definition atoi (s : string) : Z := to_int32 (st_value (strtol s)).

(** The decoding of the WPAR type. *)
Definition wparTypeName (wparType : string) : string :=
  if String.eqb wparType "S" then "system"
  else if String.eqb wparType "A" then "application"
  else if String.eqb wparType "L" then "versioned"
  else wparType.

(** The loop over the lines of the index file, left at the first line
    whose kernel CID is [wparCid]. *)
Fixpoint scanIndex (wparCid : Z) (lines : list string)
  (result : MetadataResult) : MetadataResult :=
  match lines with
  | [] => result
  | line :: rest =>
      match parseIndexLine line with
      | Some (wparId, wparType, wparName, kernelCidStr) =>
          if atoi kernelCidStr =? wparCid then
            let result := addAttribute result "wpar_name" wparName in
            let result := addAttribute result "wpar_id" wparId in
            addAttribute result "wpar_type" (wparTypeName wparType)
          else scanIndex wparCid rest result
      | None => scanIndex wparCid rest result
      end
  end.

Section WithHost.

Variable W : Type.
Variable host : Host W.
Variable AIX : bool.

(** Lines 103-168 of [collectBasicInfo]: a run of [addAttribute] calls. *)
Definition emitBasicInfo (procInfo : procentry64 host)
  (result : MetadataResult) : M W MetadataResult :=
  attrs <- basicAttributes host procInfo ;;
  ret (mkResult (type result) (identifier result)
         (attributes result ++ attrs) (success result)
         (errorMessage result)).

(** [ProcessCollector::collectExecutablePath] *)
Definition collectExecutablePath (pid : Z) (result : MetadataResult)
  : M W MetadataResult :=
  if AIX then
    '(len, buf) <- readlink host (proc_path pid "/object/a.out") ;;
    if len >? 0
    then ret (addAttribute result "exe_path" (link_text len buf))
    else
      '(count, procInfo) <- getprocs64 host pid ;;
      if count =? 1
      then ret (addAttribute result "exe_name" (pi_comm host procInfo))
      else ret result
  else
    '(len, buf) <- readlink host (proc_path pid "/exe") ;;
    if len >? 0
    then ret (addAttribute result "exe_path" (link_text len buf))
    else ret result.

(** [ProcessCollector::collectWorkingDirectory]; both branches of the
    [#ifdef] read the same link. *)
Definition collectWorkingDirectory (pid : Z) (result : MetadataResult)
  : M W MetadataResult :=
  '(len, buf) <- readlink host (proc_path pid "/cwd") ;;
  if len >? 0
  then ret (addAttribute result "cwd" (link_text len buf))
  else ret result.

(** [ProcessCollector::collectCommandLine] *)
Definition collectCommandLine (pid : Z) (result : MetadataResult)
  : M W MetadataResult :=
  if AIX then
    '(count, procInfo) <- getprocs64 host pid ;;
    if count =? 1 then
      '(rc, argsBuffer) <- getargs host procInfo ;;
      if rc =? 0 then
        let cmdline :=
          joinArgs ARGS_BUFFER (substr_to argsBuffer ARGS_BUFFER) true "" in
        if negb (empty cmdline)
        then ret (addAttribute result "cmdline" cmdline)
        else ret result
      else ret result
    else ret result
  else
    file <- ifstream host (proc_path pid "/cmdline") ;;
    match file with
    | Some text => ret (addAttribute result "cmdline" (c_str text))
    | None => ret result
    end.

(** [ProcessCollector::collectCredentials] *)
Definition collectCredentials (pid : Z) (result : MetadataResult)
  : M W MetadataResult :=
  if AIX then
    read <- read_prcred host (proc_path pid "/cred") ;;
    match read with
    | Some cred =>
        let result := addAttributeInt result "euid" (pr_euid cred) in
        let result := addAttributeInt result "egid" (pr_egid cred) in
        let result := addAttributeInt result "ruid" (pr_ruid cred) in
        let result := addAttributeInt result "rgid" (pr_rgid cred) in
        let result := addAttributeInt result "suid" (pr_suid cred) in
        let result := addAttributeInt result "sgid" (pr_sgid cred) in
        pwd <- getpwuid host (pr_euid cred) ;;
        match pwd with
        | Some pw_name => ret (addAttribute result "effective_user" pw_name)
        | None => ret result
        end
    | None => ret result
    end
  else ret result.

(** The [readdir] loop of [collectOpenFiles]. *)
Fixpoint scanFds (fdDirPath : string) (entries : list string)
  (openFds : list string) : M W (list string) :=
  match entries with
  | [] => ret openFds
  | d_name :: rest =>
      match d_name with
      | String "."%char _ => scanFds fdDirPath rest openFds
      | _ =>
          '(len, buf) <- readlink host (fdDirPath ++ "/" ++ d_name) ;;
          if len >? 0
          then scanFds fdDirPath rest
                 (openFds ++ [(d_name ++ ":" ++ link_text len buf)%string])%list
          else scanFds fdDirPath rest (openFds ++ [d_name])%list
      end
  end.

(** [ProcessCollector::collectOpenFiles] *)
Definition collectOpenFiles (pid : Z) (result : MetadataResult)
  : M W MetadataResult :=
  if AIX then
    let fdDirPath := proc_path pid "/fd" in
    dir <- opendir host fdDirPath ;;
    match dir with
    | None => ret result
    | Some entries =>
        openFds <- scanFds fdDirPath entries [] ;;
        match openFds with
        | [] => ret result
        | _ => ret (addAttributeList result "open_files" openFds)
        end
    end
  else
    ret (addAttribute result "open_files_note"
           "Open files collection requires AIX").

(** [ProcessCollector::collectWparInfo] *)
Definition collectWparInfo (pid : Z) (result : MetadataResult)
  : M W MetadataResult :=
  if AIX then
    '(count, procInfo) <- getprocs64 host pid ;;
    if (count =? 1) && (pi_pid host procInfo =? pid) then
      let wparCid := pi_cid host procInfo in
      let result := addAttributeInt result "wpar_cid" wparCid in
      if wparCid =? 0 then ret (addAttribute result "is_container" "false")
      else
        let result := addAttribute result "is_container" "true" in
        indexFile <- ifstream host "/etc/corrals/index" ;;
        match indexFile with
        | Some text => ret (scanIndex wparCid (getlines text) result)
        | None => ret result
        end
    else ret result
  else
    let result := addAttributeInt result "wpar_cid" 0 in
    let result := addAttribute result "is_container" "false" in
    ret (addAttribute result "wpar_note" "WPAR detection requires AIX").

(** The process collector's operating system, with the six collectors
    as the source has them. *)
Definition os : ProcessCollector.OS W :=
  ProcessCollector.mkOS W (procentry64 host) (pi_pid host)
    (getprocs64 host) emitBasicInfo
    collectExecutablePath collectWorkingDirectory collectCommandLine
    collectCredentials collectOpenFiles collectWparInfo.

(** [ProcessCollector::collect] over these collectors. *)
Definition collect (ident : string) : M W MetadataResult :=
  ProcessCollector.collect W os AIX ident.

End WithHost.

End ProcessDetails.

(* ================================================================== *)
(** * Attribute lists: vocabulary for the process collector *)
(* ================================================================== *)

Module ProcessSchema.
Import CLib Types Effects ProcessDetails.

(** No attribute, or one attribute called [n]. *)
Definition optional (n : string) (l : list MetadataAttribute) : Prop :=
  l = [] \/ exists v : string, l = [attr1 n v].

(** What a build without [_AIX] reports before and after the optional
    attributes. *)
Definition stub_head (pid : Z) : list MetadataAttribute :=
  [ attr1 "pid" (dec pid);
    attr1 "_note" "Process info collection requires AIX" ].

Definition stub_tail : list MetadataAttribute :=
  [ attr1 "open_files_note" "Open files collection requires AIX";
    attr1 "wpar_cid" "0";
    attr1 "is_container" "false";
    attr1 "wpar_note" "WPAR detection requires AIX" ].

(** The names the six collectors use on AIX. *)
Definition detail_names : list string :=
  [ "exe_path"; "exe_name"; "cwd"; "cmdline";
    "euid"; "egid"; "ruid"; "rgid"; "suid"; "sgid"; "effective_user";
    "open_files";
    "wpar_cid"; "is_container"; "wpar_name"; "wpar_id"; "wpar_type" ].

Definition known (l : list MetadataAttribute) : Prop :=
  Forall (fun a => In (name a) detail_names) l.

(** The lists of names each of the six collectors can add on AIX. *)
Definition exe_names : list (list string) :=
  [ []; ["exe_path"]; ["exe_name"] ].
Definition cwd_names : list (list string) := [ []; ["cwd"] ].
Definition cmdline_names : list (list string) := [ []; ["cmdline"] ].
Definition cred_names : list (list string) :=
  [ [];
    ["euid"; "egid"; "ruid"; "rgid"; "suid"; "sgid"];
    ["euid"; "egid"; "ruid"; "rgid"; "suid"; "sgid"; "effective_user"] ].
Definition files_names : list (list string) := [ []; ["open_files"] ].
Definition wpar_names : list (list string) :=
  [ [];
    ["wpar_cid"; "is_container"];
    ["wpar_cid"; "is_container"; "wpar_name"; "wpar_id"; "wpar_type"] ].

(** Every list of [A] followed by every list of [B]. *)
Definition followed_by (A B : list (list string)) : list (list string) :=
  flat_map (fun a => map (app a) B) A.

(** The lists of names the six collectors can add together, in the order
    [collect] calls them. *)
Definition detail_shapes : list (list string) :=
  followed_by exe_names
    (followed_by cwd_names
       (followed_by cmdline_names
          (followed_by cred_names
             (followed_by files_names wpar_names)))).

(** A directory entry the loop of [collectOpenFiles] passes over. *)
Definition dot_entry (d_name : string) : bool :=
  match d_name with
  | String "."%char _ => true
  | _ => false
  end.

(** What [open_files] lists for the entries of a directory, read in the
    world [w]: nothing for an entry whose name begins with a dot; for any
    other entry [readlink] is asked for [fdDirPath/d_name], in the world
    the entries before it left, and the entry is listed as
    [d_name:target], the target being the text [readlink] returned, when
    the length returned is positive, and as [d_name] when it is not. *)
Inductive listing {W : Type} (host : Host W) (fdDirPath : string)
  : list string -> W -> list string -> W -> Prop :=
  | listing_end : forall w : W, listing host fdDirPath [] w [] w
  | listing_dot :
      forall (d_name : string) (rest fds : list string) (w w2 : W),
        dot_entry d_name = true ->
        listing host fdDirPath rest w fds w2 ->
        listing host fdDirPath (d_name :: rest) w fds w2
  | listing_link :
      forall (d_name : string) (rest fds : list string) (w w1 w2 : W)
             (len : Z) (buf : string),
        dot_entry d_name = false ->
        readlink host (fdDirPath ++ "/" ++ d_name) w = ((len, buf), w1) ->
        0 < len ->
        listing host fdDirPath rest w1 fds w2 ->
        listing host fdDirPath (d_name :: rest) w
          ((d_name ++ ":" ++ link_text len buf) :: fds) w2
  | listing_name :
      forall (d_name : string) (rest fds : list string) (w w1 w2 : W)
             (len : Z) (buf : string),
        dot_entry d_name = false ->
        readlink host (fdDirPath ++ "/" ++ d_name) w = ((len, buf), w1) ->
        len <= 0 ->
        listing host fdDirPath rest w1 fds w2 ->
        listing host fdDirPath (d_name :: rest) w (d_name :: fds) w2.

(** [s] does not hold the character [d]. *)
Fixpoint free_of (d : ascii) (s : string) : bool :=
  match s with
  | EmptyString => true
  | String c r => negb (Ascii.eqb c d) && free_of d r
  end.

(** A line of [/etc/corrals/index]. *)
Definition index_line (wparId wparType wparName kernelCid : string)
  : string :=
  wparId ++ ":" ++ wparType ++ ":" ++ wparName ++ ":" ++ kernelCid.

(** The kernel CID a line of the index gives, when it has four fields. *)
Definition index_cid (line : string) : option Z :=
  match parseIndexLine line with
  | Some (_, _, _, kernelCidStr) => Some (atoi kernelCidStr)
  | None => None
  end.

(** An argument buffer: every argument followed by a NUL. *)
Fixpoint args_buffer (args : list string) : string :=
  match args with
  | [] => EmptyString
  | a :: r => a ++ String zero (args_buffer r)
  end.

(** A command line argument: not empty and without NUL. *)
Definition argument (a : string) : Prop :=
  a <> EmptyString /\ free_of zero a = true.

(** [r] with the attributes [tail] appended. *)
Definition with_attributes (r : MetadataResult)
  (tail : list MetadataAttribute) : MetadataResult :=
  mkResult (type r) (identifier r) (attributes r ++ tail)%list
           (success r) (errorMessage r).

End ProcessSchema.

(* ================================================================== *)
(** * More sample hosts *)
(* ================================================================== *)

Module MoreSamples.
Import CLib Types Effects.

(** A file system whose only entry is a symbolic link to a path that does
    not exist. *)
Definition dangling_stat : FileCollector.stat64_t :=
  FileCollector.mkStat 0xA1FF 11 1 7 1 0 0 5 6 7 4096 0 0.

Definition dangling_os : FileCollector.OS unit :=
  FileCollector.mkOS unit unit
    (fun path w => (if String.eqb path "/tmp/gone" then inr dangling_stat
                    else inl 2, w))
    (fun path w => (inl 2, w))
    (fun err => "No such file or directory")
    (fun path w => ((11, "/nonexistent"), w))
    (fun uid w => (Some "root", w))
    (fun gid w => (Some "system", w))
    (fun t w => (None, w))
    (fun _ => "")
    (fun path mode w => (-1, w))
    (fun dev => 0) (fun dev => 0).

(** A host with one process, 4242, running in the workload partition
    with kernel CID 3; no link under [/proc] can be read. *)
Definition wpar_index : string :=
  "1:S:dev:2" ++ String "010" ("7:A:web:3" ++ String "010" "").

Definition ls_arguments : string :=
  "ls" ++ String zero ("-l" ++ String zero (String zero "")).

Definition wpar_host : ProcessDetails.Host unit :=
  ProcessDetails.mkHost unit (Z * Z)
    (fun p => fst p) (fun p => snd p) (fun p => "ls")
    (fun pid w => (if pid =? 4242 then (1, (4242, 3)) else (0, (0, 0)), w))
    (fun p w => ([attr1 "pid" (dec (fst p))], w))
    (fun path w => ((-1, ""), w))
    (fun path w => (if String.eqb path "/etc/corrals/index"
                    then Some wpar_index else None, w))
    (fun p w => ((0, ls_arguments), w))
    (fun path w => (None, w))
    (fun uid w => (None, w))
    (fun path w => (None, w)).

(** A host that counts the subprocesses started on it, and answers each
    with a row of lsof. *)
Definition counting_host (cmd : string) : M nat (option (string * Z)) :=
  fun n => (Some ("sshd 1234 root 3u IPv4", 0), S n).

(** A listing without socket addresses: a connection to port 22 of this
    host, a listener on port 80, and a connection from this host to port 22
    of another. *)
Definition lan_listing : string :=
  "tcp4 0 0 10.0.0.1.22 10.0.0.5.51234 ESTABLISHED"
  ++ String "010"
       ("tcp4 0 0 *.80 *.* LISTEN"
        ++ String "010" "tcp4 0 0 10.0.0.1.40000 10.0.0.9.22 ESTABLISHED").

End MoreSamples.

(* ================================================================== *)
(** * Facts about the library routines *)
(* ================================================================== *)

Module CLibFacts.
Import CLib Spec.

Ltac case_if :=
  match goal with
  | |- context [if ?b then _ else _] => destruct b eqn:?
  end.

Ltac by_cases_on_ascii c :=
  destruct c as [[] [] [] [] [] [] [] []]; try discriminate; try reflexivity.

Lemma isspace_not_digit (c : ascii) : isspace c = true -> isdigit c = false.
Proof. by_cases_on_ascii c. Qed.

Lemma isspace_not_plus (c : ascii) : isspace c = true -> Ascii.eqb c "+" = false.
Proof. by_cases_on_ascii c. Qed.

Lemma isspace_not_minus (c : ascii) : isspace c = true -> Ascii.eqb c "-" = false.
Proof. by_cases_on_ascii c. Qed.

Lemma isdigit_not_sign (c : ascii) :
  isdigit c = true -> Ascii.eqb c "-" = false /\ Ascii.eqb c "+" = false.
Proof. by_cases_on_ascii c; intros _; split; reflexivity. Qed.

Lemma isdigit_not_space (c : ascii) : isdigit c = true -> isspace c = false.
Proof. by_cases_on_ascii c. Qed.

Lemma digit_of_range (c : ascii) : isdigit c = true -> 0 <= digit_of c <= 9.
Proof. by_cases_on_ascii c; intros _; vm_compute; split; discriminate. Qed.

Lemma empty_true (s : string) : empty s = true <-> s = EmptyString.
Proof. destruct s; simpl; split; congruence. Qed.

Lemma empty_false (s : string) : empty s = false <-> s <> EmptyString.
Proof. destruct s; simpl; split; congruence. Qed.

(** ** The digit loop against the positional value *)

Lemma numeral_value_nonneg (s : string) :
  all_digits s = true -> 0 <= numeral_value s.
Proof.
  induction s as [|c r IH]; simpl; intros H; [lia|].
  apply andb_prop in H as [Hc Hr].
  pose proof (digit_of_range c Hc).
  pose proof (Z.pow_nonneg 10 (Z.of_nat (String.length r))).
  specialize (IH Hr). nia.
Qed.

Lemma strtol_digits_all (s : string) :
  all_digits s = true ->
  forall acc,
    strtol_digits acc s
    = (acc * 10 ^ Z.of_nat (String.length s) + numeral_value s, EmptyString).
Proof.
  induction s as [|c r IH]; intros H acc.
  - simpl. f_equal. lia.
  - cbn [all_digits] in H. apply andb_prop in H as [Hc Hr].
    cbn [strtol_digits numeral_value String.length]. rewrite Hc.
    rewrite (IH Hr). f_equal.
    rewrite Nat2Z.inj_succ, Z.pow_succ_r by lia. ring.
Qed.

Lemma strtol_digits_exhausts (s : string) :
  forall acc v, strtol_digits acc s = (v, EmptyString) -> all_digits s = true.
Proof.
  induction s as [|c r IH]; intros acc v H; [reflexivity|].
  cbn [strtol_digits] in H. cbn [all_digits].
  destruct (isdigit c); [simpl; eauto | discriminate].
Qed.

(** ** Leading white space *)

Lemma skip_space_head (s : string) (c : ascii) (r : string) :
  skip_space s = String c r -> isspace c = false.
Proof.
  induction s as [|a t IH]; simpl; [discriminate|].
  destruct (isspace a) eqn:Ha; [exact IH|].
  intros H; injection H as -> _; exact Ha.
Qed.

Lemma numeral_head (c : ascii) (r : string) :
  numeral (String c r) -> isdigit c = true.
Proof. intros [_ H]. simpl in H. now apply andb_prop in H. Qed.

Lemma base10_skip_space (s : string) (v : Z) :
  base10_integer s v <-> base10_integer (skip_space s) v.
Proof.
  induction s as [|c r IH]; simpl; [tauto|].
  destruct (isspace c) eqn:Hc; [|tauto].
  rewrite <- IH. split.
  - intros H. inversion H; subst; try assumption.
    + discriminate Hc.
    + discriminate Hc.
    + apply numeral_head in H0. apply isspace_not_digit in Hc. congruence.
  - now constructor.
Qed.

(** ** [strtol] against [base10_integer] *)

Lemma strtol_sign_digit (s : string) :
  starts_with_digit s = true -> strtol_sign s = (false, s).
Proof.
  destruct s as [|c r]; simpl; [discriminate|]. intros H.
  destruct (isdigit_not_sign c H) as [-> ->]. reflexivity.
Qed.

Lemma numeral_starts (ds : string) : numeral ds -> starts_with_digit ds = true.
Proof. destruct ds; intros H; [now destruct H | exact (numeral_head _ _ H)]. Qed.

Lemma strtol_unsigned (s2 : string) (neg : bool) (cs : string) :
  numeral s2 ->
  (let '(acc, rest) := strtol_digits 0 s2 in
   mkStrtol (if neg then Z.max LONG_MIN (- acc) else Z.min LONG_MAX acc) rest false)
  = mkStrtol (clamp (if neg then - numeral_value s2 else numeral_value s2))
             EmptyString false.
Proof.
  intros [Hne Hall]. rewrite (strtol_digits_all _ Hall).
  pose proof (numeral_value_nonneg _ Hall) as Hnn.
  f_equal. unfold clamp, LONG_MIN, LONG_MAX. destruct neg; lia.
Qed.

(** A text that reads as [v] is consumed whole, and [strtol] returns [v]
    brought into the range of [long]. *)
Lemma strtol_reads (s : string) (v : Z) :
  base10_integer (c_str s) v -> strtol s = mkStrtol (clamp v) EmptyString false.
Proof.
  intros H. apply base10_skip_space in H. unfold strtol.
  remember (skip_space (c_str s)) as t eqn:Et.
  inversion H as [c s' v' Hc _ E1 E2 | ds Hn E1 E2 | ds Hn E1 E2 | ds Hn E1 E2];
    subst.
  - symmetry in E1. apply skip_space_head in E1. congruence.
  - cbn [strtol_sign]. change (Ascii.eqb "+" "-") with false.
    change (Ascii.eqb "+" "+") with true. cbv iota.
    rewrite (numeral_starts _ Hn). exact (strtol_unsigned ds false (c_str s) Hn).
  - cbn [strtol_sign]. change (Ascii.eqb "-" "-") with true.
    cbv iota. rewrite (numeral_starts _ Hn).
    exact (strtol_unsigned ds true (c_str s) Hn).
  - rewrite (strtol_sign_digit _ (numeral_starts _ Hn)).
    rewrite (numeral_starts _ Hn).
    exact (strtol_unsigned _ false (c_str s) Hn).
Qed.

Lemma strtol_sign_cases (t : string) (neg : bool) (s2 : string) :
  strtol_sign t = (neg, s2) ->
  (neg = true /\ t = String "-" s2) \/
  (neg = false /\ t = String "+" s2) \/
  (neg = false /\ t = s2).
Proof.
  destruct t as [|c r]; simpl.
  - intros H; injection H as <- <-; auto.
  - destruct (Ascii.eqb c "-") eqn:E1.
    + apply Ascii.eqb_eq in E1; subst. intros H; injection H as <- <-; auto.
    + destruct (Ascii.eqb c "+") eqn:E2.
      * apply Ascii.eqb_eq in E2; subst. intros H; injection H as <- <-; auto.
      * intros H; injection H as <- <-; auto.
Qed.

(** Conversely, when [strtol] converts something and stops at the end of
    the text, the text reads as an integer. *)
Lemma strtol_reads_inv (s : string) :
  st_noconv (strtol s) = false -> st_end (strtol s) = EmptyString ->
  exists v, base10_integer (c_str s) v.
Proof.
  unfold strtol.
  destruct (strtol_sign (skip_space (c_str s))) as [neg s2] eqn:Es.
  destruct (starts_with_digit s2) eqn:Hd; [|discriminate].
  destruct (strtol_digits 0 s2) as [acc rest] eqn:Ed. simpl.
  intros _ ->. apply strtol_digits_exhausts in Ed.
  assert (Hn : numeral s2).
  { split; [|exact Ed]. destruct s2; [discriminate Hd | discriminate]. }
  destruct (strtol_sign_cases _ _ _ Es) as [[_ E] | [[_ E] | [_ E]]].
  - exists (- numeral_value s2). apply base10_skip_space. rewrite E.
    now constructor.
  - exists (numeral_value s2). apply base10_skip_space. rewrite E.
    now constructor.
  - exists (numeral_value s2). apply base10_skip_space. rewrite E.
    now constructor.
Qed.

Lemma clamp_in_range (v lo hi : Z) :
  LONG_MIN < lo -> hi < LONG_MAX -> lo <= clamp v <= hi -> clamp v = v.
Proof. unfold clamp, LONG_MIN, LONG_MAX. lia. Qed.

Lemma clamp_id (v : Z) : LONG_MIN <= v <= LONG_MAX -> clamp v = v.
Proof. unfold clamp. lia. Qed.

(** ** Searching a character *)

Lemma rfind_none (c : ascii) (s : string) :
  rfind c s = None <-> contains c s = false.
Proof.
  unfold contains. induction s as [|a r IH]; simpl; [tauto|].
  rewrite (Ascii.eqb_sym c a).
  destruct (rfind c r); destruct (Ascii.eqb a c); simpl; split;
    try discriminate; try tauto.
  intros H. apply IH in H. discriminate.
Qed.

Lemma substring_all (s : string) : substring 0 (String.length s) s = s.
Proof. induction s; simpl; congruence. Qed.

Lemma rfind_none_after_last (c : ascii) (s : string) :
  rfind c s = None -> after_last c s = None.
Proof.
  induction s as [|a r IH]; simpl; [reflexivity|].
  destruct (rfind c r); [discriminate|].
  destruct (Ascii.eqb a c); [discriminate|]. now rewrite IH.
Qed.

(** The port the source cuts out with [rfind] and [substr] is what follows
    the last dot. *)
Lemma rfind_after_last (c : ascii) (s : string) (i : nat) :
  rfind c s = Some i -> after_last c s = Some (substr_from s (S i)).
Proof.
  revert i. induction s as [|a r IH]; simpl; intros i; [discriminate|].
  destruct (rfind c r) as [j|] eqn:Ej.
  - intros H; injection H as <-. rewrite (IH j eq_refl).
    unfold substr_from. simpl. reflexivity.
  - rewrite (rfind_none_after_last _ _ Ej).
    destruct (Ascii.eqb a c); [|discriminate].
    intros H; injection H as <-. unfold substr_from. simpl.
    now rewrite Nat.sub_0_r, substring_all.
Qed.

End CLibFacts.

(* ================================================================== *)
(** * The port collector: identifiers and netstat lines *)
(* ================================================================== *)

Module PortFacts.
Import CLib Types Effects PortCollector Spec CLibFacts.

Lemma strtol_noconv_value (s : string) :
  st_noconv (strtol s) = true -> st_value (strtol s) = 0.
Proof.
  unfold strtol. destruct (strtol_sign _) as [neg s2].
  destruct (starts_with_digit s2); [|reflexivity].
  destruct (strtol_digits 0 s2); discriminate.
Qed.

(** A text [strtol] reads to the end with a value of the port range
    reads as that integer. *)
Lemma strtol_full_value (s : string) (p lo hi : Z) :
  1 <= lo -> hi < LONG_MAX -> lo <= p <= hi ->
  empty (st_end (strtol s)) = true -> st_value (strtol s) = p ->
  base10_integer (c_str s) p.
Proof.
  intros Hlo Hhi Hp He Hv. apply empty_true in He.
  destruct (st_noconv (strtol s)) eqn:Hn.
  - apply strtol_noconv_value in Hn. lia.
  - destruct (strtol_reads_inv s Hn He) as [v Hb].
    pose proof (strtol_reads s v Hb) as E. rewrite E in Hv. simpl in Hv.
    assert (clamp v = v).
    { apply (clamp_in_range v lo hi); unfold LONG_MIN; lia. }
    congruence.
Qed.

Lemma to_uint16_port (v : Z) : 1 <= v <= 65535 -> to_uint16 v = v.
Proof. intros H. unfold to_uint16. apply Z.mod_small. lia. Qed.

Lemma parsePort_sound (ident : string) (p : Z) :
  parsePort ident = Some p -> valid_port ident p.
Proof.
  unfold parsePort.
  destruct (st_noconv (strtol ident)) eqn:Hn; [discriminate|].
  destruct (empty (st_end (strtol ident))) eqn:He; [|discriminate].
  simpl. destruct (st_value (strtol ident) <=? 0) eqn:H0; [discriminate|].
  destruct (st_value (strtol ident) >? 65535) eqn:H1; [discriminate|].
  simpl. intros H; injection H as <-.
  apply Z.leb_gt in H0. rewrite Z.gtb_ltb in H1. apply Z.ltb_ge in H1.
  rewrite to_uint16_port by lia. split; [|lia].
  apply (strtol_full_value ident _ 1 65535); unfold LONG_MAX; try lia; auto.
Qed.

Lemma parsePort_complete (ident : string) (p : Z) :
  valid_port ident p -> parsePort ident = Some p.
Proof.
  intros [Hb Hr]. unfold parsePort. rewrite (strtol_reads _ _ Hb). simpl.
  rewrite clamp_id by (unfold LONG_MIN, LONG_MAX; lia).
  destruct (p <=? 0) eqn:H0; [apply Z.leb_le in H0; lia|].
  destruct (p >? 65535) eqn:H1; [rewrite Z.gtb_ltb in H1; apply Z.ltb_lt in H1; lia|].
  simpl. now rewrite to_uint16_port.
Qed.

Lemma parsePort_none (ident : string) :
  parsePort ident = None <-> ~ (exists p, valid_port ident p).
Proof.
  split.
  - intros H [p Hp]. apply parsePort_complete in Hp. congruence.
  - intros H. destruct (parsePort ident) as [p|] eqn:E; [|reflexivity].
    exfalso. apply H. exists p. now apply parsePort_sound.
Qed.

(** ** The port test of a line *)

Lemma port_matches_names (p : Z) (la : string) (i : nat) (fa : string) :
  1 <= p <= 65535 ->
  rfind "." la = Some i ->
  port_matches p (substr_from la (S i)) fa = true ->
  names_port la p \/ names_port fa p.
Proof.
  intros Hp Hla. unfold port_matches.
  destruct (empty (st_end (strtol (substr_from la (S i))))) eqn:He; simpl.
  - destruct (st_value (strtol (substr_from la (S i))) =? p) eqn:Hv; simpl.
    + intros _. left. exists (substr_from la (S i)). split.
      * exact (rfind_after_last _ _ _ Hla).
      * apply Z.eqb_eq in Hv.
        apply (strtol_full_value _ _ 1 65535); unfold LONG_MAX; try lia; auto.
    + destruct (rfind "." fa) as [j|] eqn:Hfa; [|discriminate].
      destruct (empty (st_end (strtol (substr_from fa (S j))))) eqn:He'; simpl;
        [|discriminate].
      destruct (st_value (strtol (substr_from fa (S j))) =? p) eqn:Hv'; simpl;
        [|discriminate].
      intros _. right. exists (substr_from fa (S j)). split.
      * exact (rfind_after_last _ _ _ Hfa).
      * apply Z.eqb_eq in Hv'.
        apply (strtol_full_value _ _ 1 65535); unfold LONG_MAX; try lia; auto.
  - destruct (rfind "." fa) as [j|] eqn:Hfa; [|discriminate].
    destruct (empty (st_end (strtol (substr_from fa (S j))))) eqn:He'; simpl;
      [|discriminate].
    destruct (st_value (strtol (substr_from fa (S j))) =? p) eqn:Hv'; simpl;
      [|discriminate].
    intros _. right. exists (substr_from fa (S j)). split.
    + exact (rfind_after_last _ _ _ Hfa).
    + apply Z.eqb_eq in Hv'.
      apply (strtol_full_value _ _ 1 65535); unfold LONG_MAX; try lia; auto.
Qed.

(** What [parseNetstatLine] returns, read off its definition. *)
Lemma parseNetstatLine_kept (line : string) (p : Z) (proto sa : string)
    (info : ConnectionInfo) :
  parseNetstatLine line p proto = Some (sa, info) ->
  exists la fa st i,
    netstatColumns line = Some (sa, la, fa, st) /\
    rfind "." la = Some i /\
    port_matches p (substr_from la (S i)) fa = true /\
    protocol info = proto /\
    localPort info = substr_from la (S i) /\
    remotePort info = match port_token fa with Some t => t | None => "*" end /\
    state info = st.
Proof.
  unfold parseNetstatLine.
  destruct (netstatColumns line) as [[[[sa' la] fa] st]|]; [|discriminate].
  destruct (rfind "." la) as [i|] eqn:Hi; [|discriminate].
  destruct (port_matches p (substr_from la (S i)) fa) eqn:Hm; [|discriminate].
  simpl. destruct (rfind "." fa) as [j|] eqn:Hj.
  - intros H; injection H as <- <-. exists la, fa, st, i. simpl.
    unfold port_token. rewrite (rfind_after_last _ _ _ Hj). auto 10.
  - intros H; injection H as <- <-. exists la, fa, st, i. simpl.
    unfold port_token. rewrite (rfind_none_after_last _ _ Hj). auto 10.
Qed.

Lemma parseNetstatLine_no_local_dot (line : string) (p : Z) (proto : string)
    (sa la fa st : string) :
  netstatColumns line = Some (sa, la, fa, st) ->
  contains "." la = false ->
  parseNetstatLine line p proto = None.
Proof.
  intros Hc Hd. unfold parseNetstatLine. rewrite Hc.
  apply rfind_none in Hd. now rewrite Hd.
Qed.

End PortFacts.

(* ================================================================== *)
(** * The port collector: subprocesses and the assembled Result *)
(* ================================================================== *)

Module PortEffects.
Import CLib Types Effects PortCollector Spec CLibFacts PortFacts.
Local Open Scope list_scope.

Lemma same_endpoint_refl (c : ConnectionInfo) : same_endpoint c c.
Proof. repeat split. Qed.

Lemma attribute_row_endpoint (info : ConnectionInfo) (tokens : list string) :
  same_endpoint (attribute_row info tokens) info.
Proof. repeat split. Qed.

Lemma lsof_scan_endpoint (lines : list string) (info : ConnectionInfo) :
  same_endpoint (lsof_scan lines info) info.
Proof.
  induction lines as [|l rest IH]; simpl; [apply same_endpoint_refl|].
  repeat case_if; auto using attribute_row_endpoint.
Qed.

Lemma keptRecords_protocol (lines : list string) (p : Z) (proto : string) :
  Forall (fun x => protocol (snd x) = proto) (keptRecords lines p proto).
Proof.
  induction lines as [|l rest IH]; simpl; [constructor|].
  destruct (parseNetstatLine l p proto) as [[sa info]|] eqn:E; [|exact IH].
  constructor; [|exact IH].
  destruct (parseNetstatLine_kept _ _ _ _ _ E) as (? & ? & ? & ? & H).
  simpl. tauto.
Qed.

Lemma keptRecords_in (lines : list string) (p : Z) (proto : string)
    (x : string * ConnectionInfo) :
  In x (keptRecords lines p proto) ->
  exists line, In line lines /\ parseNetstatLine line p proto = Some x.
Proof.
  induction lines as [|l rest IH]; simpl; [tauto|].
  destruct (parseNetstatLine l p proto) as [y|] eqn:E.
  - intros [<- | H]; [exists l; auto|].
    destruct (IH H) as (line & ? & ?). exists line; auto.
  - intros H. destruct (IH H) as (line & ? & ?). exists line; auto.
Qed.

Section WithWorld.

Variable W : Type.
Variable popen_read : string -> M W (option (string * Z)).
Variable AIX : bool.

Local Abbreviation findProcessForPort := (findProcessForPort W popen_read AIX).
Local Abbreviation parseNetstatLines := (parseNetstatLines W popen_read AIX).
Local Abbreviation parseNetstatOutput := (parseNetstatOutput W popen_read AIX).
Local Abbreviation collectConnections := (collectConnections W popen_read AIX).
Local Abbreviation gatherConnections := (gatherConnections W popen_read AIX).

(** The process lookup only fills in the process attribution. *)
Lemma findProcessForPort_endpoint (port : Z) (proto : string)
    (info : ConnectionInfo) (w : W) :
  same_endpoint (fst (findProcessForPort port proto info w)) info.
Proof.
  unfold PortCollector.findProcessForPort, executeCommand, bind, ret.
  destruct AIX.
  - destruct (popen_read _ w) as [[[text status]|] w']; simpl.
    + case_if; simpl; [apply same_endpoint_refl | apply lsof_scan_endpoint].
    + apply same_endpoint_refl.
  - destruct (popen_read _ w) as [[[text status]|] w']; simpl.
    + repeat case_if; simpl;
        auto using attribute_row_endpoint, same_endpoint_refl.
    + apply same_endpoint_refl.
Qed.

(** The loop appends to [connections] one record per kept line, in the
    order of the lines. *)
Lemma parseNetstatLines_shape (lines : list string) (port : Z)
    (proto : string) :
  forall (connections : list ConnectionInfo) (w : W),
  exists new w',
    parseNetstatLines lines port proto connections w = (connections ++ new, w')
    /\ Forall2 stems_from new (keptRecords lines port proto).
Proof.
  induction lines as [|l rest IH]; intros connections w.
  - exists [], w. simpl. unfold ret. rewrite app_nil_r. split; constructor.
  - cbn [PortCollector.parseNetstatLines keptRecords].
    destruct (parseNetstatLine l port proto) as [[sa info]|] eqn:E.
    + unfold bind.
      destruct (empty sa) eqn:Hsa; cbn [negb].
      * unfold ret at 1.
        destruct (IH (connections ++ [info]) w) as (new & w' & H1 & H2).
        exists (info :: new), w'. rewrite H1, <- app_assoc. split; [reflexivity|].
        constructor; [|exact H2]. split; [apply same_endpoint_refl | reflexivity].
      * pose proof (findProcessForPort_endpoint port proto info w) as He.
        destruct (findProcessForPort port proto info w) as [c w1].
        destruct (IH (connections ++ [c]) w1) as (new & w' & H1 & H2).
        exists (c :: new), w'. rewrite H1, <- app_assoc. split; [reflexivity|].
        constructor; [|exact H2]. split; [exact He|].
        simpl. intros ->. discriminate.
    + apply IH.
Qed.

Lemma parseNetstatOutput_shape (output : string) (port : Z) (proto : string)
    (connections : list ConnectionInfo) (w : W) :
  exists new w',
    parseNetstatOutput output port proto connections w = (connections ++ new, w')
    /\ Forall2 stems_from new (keptRecords (getlines output) port proto).
Proof. apply parseNetstatLines_shape. Qed.

Lemma stems_from_protocol (new : list ConnectionInfo) (lines : list string)
    (port : Z) (proto : string) :
  Forall2 stems_from new (keptRecords lines port proto) ->
  Forall (has_protocol proto) new.
Proof.
  pose proof (keptRecords_protocol lines port proto) as Hk. revert Hk.
  generalize (keptRecords lines port proto). intros kept Hk H.
  induction H as [|c x cs xs [Hc _] _ IH]; [constructor|].
  apply Forall_cons_iff in Hk as [Hx Hxs]. constructor; [|auto].
  unfold has_protocol. destruct Hc as [-> _]. exact Hx.
Qed.

(** One transport: what the IPv4 pass finds, then what the IPv6 pass finds,
    is appended to [connections]. *)
Lemma collectConnections_shape (transport : string) (port : Z)
    (connections : list ConnectionInfo) (w : W) :
  exists v4 v6 ok w',
    collectConnections transport port connections w
    = (ok, connections ++ v4 ++ v6, w')
    /\ Forall (has_protocol transport) v4
    /\ Forall (has_protocol (transport ++ "6")%string) v6.
Proof.
  unfold PortCollector.collectConnections, bind.
  destruct (executeCommand W popen_read _ "" w) as [[ok1 out1] w1].
  assert (Hnone : forall (b : bool) (w0 : W), exists v4 v6 ok w',
    (b, connections, w0) = (ok, connections ++ v4 ++ v6, w')
    /\ Forall (has_protocol transport) v4
    /\ Forall (has_protocol (transport ++ "6")%string) v6).
  { intros b w0. exists [], [], b, w0. simpl. rewrite app_nil_r.
    repeat split; constructor. }
  assert (Hparse : forall (out : string) (w0 : W), exists v4 v6 ok w',
    (let '(a, w2) := parseNetstatOutput out port transport connections w0 in
     let '(a0, w3) := executeCommand W popen_read
        ("netstat -Aan -f inet6 2>/dev/null | grep " ++ transport)%string
        out w2 in
     (let '(ok0, output) := a0 in
      fun w4 : W =>
        let '(a1, w5) :=
          (if ok0
           then parseNetstatOutput output port (transport ++ "6")%string a
           else @ret W _ a) w4 in
        (true, a1, w5)) w3)
    = (ok, connections ++ v4 ++ v6, w')
    /\ Forall (has_protocol transport) v4
    /\ Forall (has_protocol (transport ++ "6")%string) v6).
  { intros out w0.
    destruct (parseNetstatOutput_shape out port transport connections w0)
      as (v4 & w2 & E4 & H4).
    rewrite E4. apply stems_from_protocol in H4.
    destruct (executeCommand W popen_read _ out w2) as [[ok6 out6] w3].
    destruct ok6.
    - destruct (parseNetstatOutput_shape out6 port (transport ++ "6")%string
                  (connections ++ v4) w3) as (v6 & w4 & E6 & H6).
      rewrite E6. apply stems_from_protocol in H6.
      exists v4, v6, true, w4. rewrite <- app_assoc. auto.
    - exists v4, [], true, w3. unfold ret. rewrite app_nil_r. auto. }
  destruct ok1; cbn [negb].
  - unfold ret at 1. cbn [negb]. apply Hparse.
  - destruct (executeCommand W popen_read _ out1 w1) as [[ok2 out2] w2].
    destruct ok2; cbn [negb]; [apply Hparse | apply Hnone].
Qed.

(** All transports: TCP before UDP, and within each IPv4 before IPv6. *)
Lemma gatherConnections_shape (m_protocol : Protocol) (port : Z) (w : W) :
  exists t4 t6 u4 u6,
    fst (gatherConnections m_protocol port w) = t4 ++ t6 ++ u4 ++ u6
    /\ Forall (has_protocol "tcp") t4 /\ Forall (has_protocol "tcp6") t6
    /\ Forall (has_protocol "udp") u4 /\ Forall (has_protocol "udp6") u6.
Proof.
  unfold PortCollector.gatherConnections, collectTcpConnections,
    collectUdpConnections, bind.
  destruct m_protocol.
  - destruct (collectConnections_shape "tcp" port [] w)
      as (t4 & t6 & ok & w1 & E & H4 & H6).
    rewrite E. unfold ret. simpl.
    exists t4, t6, [], []. rewrite !app_nil_r. auto.
  - unfold ret at 1.
    destruct (collectConnections_shape "udp" port [] w)
      as (u4 & u6 & ok & w1 & E & H4 & H6).
    rewrite E. unfold ret. simpl.
    exists [], [], u4, u6. auto.
  - destruct (collectConnections_shape "tcp" port [] w)
      as (t4 & t6 & ok & w1 & E & H4 & H6).
    rewrite E. unfold ret at 1. simpl app.
    destruct (collectConnections_shape "udp" port (t4 ++ t6) w1)
      as (u4 & u6 & ok' & w2 & E' & H4' & H6').
    rewrite E'. unfold ret. simpl.
    exists t4, t6, u4, u6. rewrite <- app_assoc. auto 10.
Qed.

End WithWorld.

End PortEffects.

(* ================================================================== *)
(** * The port collector: the assembled Result *)
(* ================================================================== *)

Module PortAssembly.
Import CLib Types Effects PortCollector Spec CLibFacts PortFacts PortEffects.
Local Open Scope list_scope.

Lemma addConnection_block (r : MetadataResult) (k : nat) (c : ConnectionInfo) :
  addConnection (r, Z.of_nat k) c
  = (mkResult (type r) (identifier r) (attributes r ++ connection_block k c)
              (success r) (errorMessage r),
     Z.of_nat (S k)).
Proof.
  destruct r as [t i a s e]. unfold addConnection, connection_block.
  cbv beta iota zeta delta
    [addAttribute type identifier attributes success errorMessage].
  rewrite Z.gtb_ltb.
  destruct (0 <? pid c); destruct (empty (processName c));
    destruct (empty (user c)); cbv beta iota delta [negb];
    (f_equal; [|lia]); f_equal; rewrite <- ?app_assoc; reflexivity.
Qed.

(** The loop of [collect] appends the blocks of the connections, numbered
    by their position. *)
Lemma fold_addConnection (cs : list ConnectionInfo) :
  forall (r : MetadataResult) (k : nat),
    fold_left addConnection cs (r, Z.of_nat k)
    = (mkResult (type r) (identifier r) (attributes r ++ connection_blocks k cs)
                (success r) (errorMessage r),
       Z.of_nat (k + List.length cs)).
Proof.
  induction cs as [|c rest IH]; intros r k.
  - simpl. rewrite app_nil_r, Nat.add_0_r. now destruct r.
  - cbn [fold_left connection_blocks List.length].
    rewrite addConnection_block, IH.
    cbn [type identifier attributes success errorMessage].
    rewrite <- app_assoc. f_equal. f_equal. lia.
Qed.


Lemma assemble_nonempty (r : MetadataResult) (ident : string)
    (cs : list ConnectionInfo) :
  cs <> [] ->
  assemble r ident cs
  = mkResult (type r) (identifier r)
      (attributes r
       ++ attr1 "port" ident
       :: attr1 "num_connections" (dec (Z.of_nat (List.length cs)))
       :: connection_blocks 0 cs)
      true (errorMessage r).
Proof.
  destruct cs as [|c rest]; [congruence|]. intros _.
  unfold assemble. change 0 with (Z.of_nat 0).
  rewrite fold_addConnection.
  destruct r as [t i a s e].
  cbv beta iota zeta delta
    [fst addAttributeInt addAttribute set_success type identifier attributes
     success errorMessage].
  rewrite <- !app_assoc. reflexivity.
Qed.

End PortAssembly.

(* ================================================================== *)
(** * The port collector: properties of [collect] and of the parser *)
(* ================================================================== *)

Module PortTheorems.
Import CLib Types Effects PortCollector Spec Samples.
Import CLibFacts PortFacts PortEffects PortAssembly.
Local Open Scope list_scope.

Lemma collect_unfold (W : Type) (popen_read : string -> M W (option (string * Z)))
    (AIX : bool) (m_protocol : Protocol) (ident : string) (w : W) :
  run (collect W popen_read AIX m_protocol ident) w
  = match parsePort ident with
    | None => createErrorResult ident ("Invalid port number: " ++ ident)%string
    | Some port =>
        assemble (mkResult "port" ident [] false "") ident
          (run (gatherConnections W popen_read AIX m_protocol port) w)
    end.
Proof.
  unfold collect, run, bind, ret.
  destruct (parsePort ident) as [port|]; [|reflexivity].
  now destruct (gatherConnections W popen_read AIX m_protocol port w).
Qed.

Lemma assemble_success (r : MetadataResult) (ident : string)
    (cs : list ConnectionInfo) :
  success (assemble r ident cs) = true.
Proof.
  destruct cs as [|c rest]; [reflexivity|].
  rewrite assemble_nonempty by discriminate. reflexivity.
Qed.

(** C2. [PortCollector::collect] reads the identifier as a base-10 integer
    (white space, an optional sign, then digits and nothing more) and
    answers with the error Result exactly when the identifier does not read
    as an integer of [1,65535]: [parsePort] accepts precisely the valid
    ports, the Result is unsuccessful, and is the error Result with the
    message "Invalid port number: <identifier>", precisely for the other
    identifiers; "0" and "65536" are rejected, "1" and "65535" go on to the
    collection and succeed. *)
Theorem collect_rejects_exactly_invalid_ports :
  forall (W : Type) (popen_read : string -> M W (option (string * Z)))
         (AIX : bool) (m_protocol : Protocol) (w : W),
    (forall ident p, parsePort ident = Some p <-> valid_port ident p)
    /\ (forall ident,
          success (run (collect W popen_read AIX m_protocol ident) w) = false
          <-> ~ (exists p, valid_port ident p))
    /\ (forall ident,
          run (collect W popen_read AIX m_protocol ident) w
          = createErrorResult ident ("Invalid port number: " ++ ident)%string
          <-> ~ (exists p, valid_port ident p))
    /\ success (run (collect W popen_read AIX m_protocol "0") w) = false
    /\ success (run (collect W popen_read AIX m_protocol "65536") w) = false
    /\ (parsePort "1" = Some 1
        /\ success (run (collect W popen_read AIX m_protocol "1") w) = true)
    /\ (parsePort "65535" = Some 65535
        /\ success (run (collect W popen_read AIX m_protocol "65535") w) = true).
Proof.
  intros W popen_read AIX m_protocol w.
  assert (Hs : forall ident,
    success (run (collect W popen_read AIX m_protocol ident) w) = false
    <-> parsePort ident = None).
  { intros ident. rewrite collect_unfold.
    destruct (parsePort ident) as [p|].
    - rewrite assemble_success. split; discriminate.
    - split; reflexivity. }
  assert (He : forall ident,
    run (collect W popen_read AIX m_protocol ident) w
    = createErrorResult ident ("Invalid port number: " ++ ident)%string
    <-> parsePort ident = None).
  { intros ident. rewrite collect_unfold.
    destruct (parsePort ident) as [p|].
    - split; [|discriminate]. intros H.
      apply (f_equal success) in H. rewrite assemble_success in H.
      discriminate.
    - split; reflexivity. }
  split; [|split; [|split; [|split; [|split; [|split]]]]].
  - intros ident p. split; [apply parsePort_sound | apply parsePort_complete].
  - intros ident. rewrite Hs. apply parsePort_none.
  - intros ident. rewrite He. apply parsePort_none.
  - apply Hs. reflexivity.
  - apply Hs. reflexivity.
  - split; [reflexivity|]. rewrite collect_unfold.
    change (parsePort "1") with (Some 1). apply assemble_success.
  - split; [reflexivity|]. rewrite collect_unfold.
    change (parsePort "65535") with (Some 65535). apply assemble_success.
Qed.

(** C3. For a target port [p] of [1,65535]: a line that is kept has
    columns whose local address or foreign address carries, after its last
    dot, a token that reads as the integer [p]; the local port of the record
    is that local token. The same holds of every record
    [parseNetstatOutput] returns: it stems from a kept line of the output. *)
Theorem kept_line_names_target_port :
  forall (p : Z) (proto : string),
    1 <= p <= 65535 ->
    (forall line sa info,
        parseNetstatLine line p proto = Some (sa, info) ->
        exists la fa st,
          netstatColumns line = Some (sa, la, fa, st)
          /\ port_token la = Some (localPort info)
          /\ (names_port la p \/ names_port fa p))
    /\ (forall (W : Type) (popen_read : string -> M W (option (string * Z)))
               (AIX : bool) (output : string) (w : W) (c : ConnectionInfo),
          In c (run (parseNetstatOutput W popen_read AIX output p proto []) w) ->
          exists line sa la fa st,
            In line (getlines output)
            /\ netstatColumns line = Some (sa, la, fa, st)
            /\ port_token la = Some (localPort c)
            /\ (names_port la p \/ names_port fa p)).
Proof.
  intros p proto Hp.
  assert (Hline : forall line sa info,
    parseNetstatLine line p proto = Some (sa, info) ->
    exists la fa st,
      netstatColumns line = Some (sa, la, fa, st)
      /\ port_token la = Some (localPort info)
      /\ (names_port la p \/ names_port fa p)).
  { intros line sa info H.
    destruct (parseNetstatLine_kept _ _ _ _ _ H)
      as (la & fa & st & i & Hc & Hi & Hm & _ & Hl & _).
    exists la, fa, st. split; [exact Hc|]. split.
    - rewrite Hl. exact (rfind_after_last _ _ _ Hi).
    - exact (port_matches_names p la i fa Hp Hi Hm). }
  split; [exact Hline|].
  intros W popen_read AIX output w c Hin. unfold run in Hin.
  destruct (parseNetstatOutput_shape W popen_read AIX output p proto [] w)
    as (new & w' & E & HF).
  rewrite E in Hin. cbn [fst app] in Hin. clear E.
  revert Hin. generalize (keptRecords_in (getlines output) p proto).
  induction HF as [|d x ds xs [Hd _] _ IH]; intros Hk Hin; [destruct Hin|].
  destruct Hin as [-> | Hin].
  - destruct (Hk x (or_introl eq_refl)) as (line & Hl & Hx).
    destruct x as [sa info].
    destruct (Hline line sa info Hx) as (la & fa & st & Hc & Ht & Hn).
    exists line, sa, la, fa, st. repeat split; auto.
    destruct Hd as (_ & _ & -> & _). exact Ht.
  - apply IH; [|exact Hin]. intros y Hy. apply Hk. now right.
Qed.

Lemma kept_line_names_target_port_witness :
  1 <= 22 <= 65535
  /\ parseNetstatLine sshd_listing 22 "tcp"
     = Some ("f1000e0001891398", mkConn "tcp" "*" "22" "*" "*" "LISTEN" 0 "" "")
  /\ exists la fa st,
       netstatColumns sshd_listing = Some ("f1000e0001891398", la, fa, st)
       /\ port_token la = Some "22"
       /\ (names_port la 22 \/ names_port fa 22).
Proof.
  split; [lia|]. split; [reflexivity|].
  refine (proj1 (kept_line_names_target_port 22 "tcp" _) sshd_listing
            "f1000e0001891398" (mkConn "tcp" "*" "22" "*" "*" "LISTEN" 0 "" "")
            eq_refl).
  lia.
Defined.

(** C4. The line [f1000e0001891398 tcp4 0 0 *.22 *.* LISTEN], parsed for
    port 22 in the TCP pass over IPv4 (protocol word "tcp"), yields one
    record exactly, with protocol "tcp", local port "22", state "LISTEN" and
    remote port "*", on every host. Its first token has 16 characters, all
    hexadecimal, so it is taken as the socket address, and the addresses and
    the state are read one column further than on the same line without it.
    On the sample host whose IPv4 TCP listing is this line,
    [collectTcpConnections] returns that one record, attributed to sshd. *)
Theorem socket_address_line_yields_one_listener :
  forall (W : Type) (popen_read : string -> M W (option (string * Z)))
         (AIX : bool) (w : W),
    (exists c,
        run (parseNetstatOutput W popen_read AIX sshd_listing 22 "tcp" []) w = [c]
        /\ protocol c = "tcp" /\ localPort c = "22"
        /\ state c = "LISTEN" /\ remotePort c = "*"
        /\ localAddress c = "*" /\ remoteAddress c = "*")
    /\ String.length "f1000e0001891398" = 16%nat
    /\ is_socket_addr "f1000e0001891398" = true
    /\ tokenize sshd_listing
       = ["f1000e0001891398"; "tcp4"; "0"; "0"; "*.22"; "*.*"; "LISTEN"]
    /\ netstatColumns sshd_listing
       = Some ("f1000e0001891398", "*.22", "*.*", "LISTEN")
    /\ netstatColumns "tcp4 0 0 *.22 *.* LISTEN"
       = Some ("", "*.22", "*.*", "LISTEN")
    /\ run (collectTcpConnections unit ssh_host true 22 []) tt
       = (true, [mkConn "tcp" "*" "22" "*" "*" "LISTEN" 1234 "sshd" "root"]).
Proof.
  intros W popen_read AIX w.
  split; [|repeat split; reflexivity].
  destruct (parseNetstatOutput_shape W popen_read AIX sshd_listing 22 "tcp" [] w)
    as (new & w' & E & HF).
  unfold run. rewrite E. simpl fst.
  change (keptRecords (getlines sshd_listing) 22 "tcp")
    with [("f1000e0001891398", mkConn "tcp" "*" "22" "*" "*" "LISTEN" 0 "" "")]
    in HF.
  inversion HF as [|c x cs xs [Hc _] Hrest]; subst.
  inversion Hrest; subst.
  exists c. destruct Hc as (H1 & H2 & H3 & H4 & H5 & H6). simpl in *.
  repeat split; assumption.
Qed.



(** C6. For a valid port identifier for which no connection is gathered,
    [collect] returns the successful Result of type "port" whose attributes
    are [status = "no_connections_found"] and the port, equal to the
    identifier; no attribute name begins with [connection_]. *)
Theorem collect_without_connections :
  forall (W : Type) (popen_read : string -> M W (option (string * Z)))
         (AIX : bool) (m_protocol : Protocol) (ident : string) (port : Z)
         (w : W),
    valid_port ident port ->
    run (gatherConnections W popen_read AIX m_protocol port) w = [] ->
    run (collect W popen_read AIX m_protocol ident) w
    = mkResult "port" ident
        [attr1 "status" "no_connections_found"; attr1 "port" ident] true ""
    /\ Forall (fun a => prefix "connection_" (name a) = false)
         (attributes (run (collect W popen_read AIX m_protocol ident) w)).
Proof.
  intros W popen_read AIX m_protocol ident port w Hv Hnil.
  rewrite collect_unfold, (parsePort_complete _ _ Hv), Hnil.
  split; [reflexivity|]. repeat constructor.
Qed.

Lemma collect_without_connections_witness :
  valid_port "8080" 8080
  /\ run (gatherConnections unit silent_host true Both 8080) tt = []
  /\ run (collect unit silent_host true Both "8080") tt
     = mkResult "port" "8080"
         [attr1 "status" "no_connections_found"; attr1 "port" "8080"] true "".
Proof.
  assert (Hv : valid_port "8080" 8080).
  { split; [|lia]. apply (b10_plain "8080"). split; [discriminate|reflexivity]. }
  split; [exact Hv|]. split; [reflexivity|].
  exact (proj1 (collect_without_connections unit silent_host true Both
                  "8080" 8080 tt Hv eq_refl)).
Defined.

(** C10. A line whose local address column has no dot is skipped before
    the ports are compared, whatever its foreign address: it gives no
    record. There is such a line whose foreign address names the target
    port (22 in [tcp4 0 0 localhost 10.0.0.5.22 ESTABLISHED]): the rule that
    keeps a line on a foreign-port match does not reach it. *)
Theorem line_without_local_dot_is_skipped :
  (forall (line : string) (p : Z) (proto sa la fa st : string),
      netstatColumns line = Some (sa, la, fa, st) ->
      contains "." la = false ->
      parseNetstatLine line p proto = None
      /\ forall (W : Type) (popen_read : string -> M W (option (string * Z)))
                (AIX : bool) (connections : list ConnectionInfo) (w : W),
           run (parseNetstatLines W popen_read AIX [line] p proto connections) w
           = connections)
  /\ (netstatColumns peer_listing
      = Some ("", "localhost", "10.0.0.5.22", "ESTABLISHED")
      /\ contains "." "localhost" = false
      /\ names_port "10.0.0.5.22" 22
      /\ parseNetstatLine peer_listing 22 "tcp" = None).
Proof.
  split.
  - intros line p proto sa la fa st Hc Hd.
    pose proof (parseNetstatLine_no_local_dot line p proto sa la fa st Hc Hd) as E.
    split; [exact E|]. intros W popen_read AIX connections w.
    unfold run. simpl. rewrite E. reflexivity.
  - repeat split; try reflexivity.
    exists "22". split; [reflexivity|].
    apply (b10_plain "22"). split; [discriminate | reflexivity].
Qed.

Lemma line_without_local_dot_is_skipped_witness :
  netstatColumns peer_listing
  = Some ("", "localhost", "10.0.0.5.22", "ESTABLISHED")
  /\ contains "." "localhost" = false
  /\ parseNetstatLine peer_listing 22 "tcp" = None.
Proof.
  split; [reflexivity|]. split; [reflexivity|].
  exact (proj1 (proj1 line_without_local_dot_is_skipped peer_listing 22 "tcp"
                  "" "localhost" "10.0.0.5.22" "ESTABLISHED" eq_refl eq_refl)).
Defined.

End PortTheorems.

(* ================================================================== *)
(** * The file collector *)
(* ================================================================== *)

Module FileFacts.
Import CLib Types Effects FileCollector Spec CLibFacts.
Local Open Scope list_scope.

(** ** Mode bits *)

Lemma land_pow2 (mode k : Z) :
  0 <= k -> Z.land mode (2 ^ k) = if Z.testbit mode k then 2 ^ k else 0.
Proof.
  intros Hk. apply Z.bits_inj'. intros n Hn.
  rewrite Z.land_spec, Z.pow2_bits_eqb by assumption.
  destruct (Z.testbit mode k) eqn:Hb.
  - rewrite Z.pow2_bits_eqb by assumption.
    destruct (k =? n) eqn:E; [|apply andb_false_r].
    apply Z.eqb_eq in E; subst. now rewrite Hb.
  - rewrite Z.bits_0. destruct (k =? n) eqn:E; [|apply andb_false_r].
    apply Z.eqb_eq in E; subst. now rewrite Hb.
Qed.

Lemma has_pow2 (mode k : Z) : 0 <= k -> has mode (2 ^ k) = Z.testbit mode k.
Proof.
  intros Hk. unfold has. rewrite land_pow2 by assumption.
  destruct (Z.testbit mode k); [|reflexivity].
  pose proof (Z.pow_pos_nonneg 2 k ltac:(lia) Hk).
  destruct (2 ^ k =? 0) eqn:E; [apply Z.eqb_eq in E; lia | reflexivity].
Qed.

(** A bit below 07777 is seen alike in the mode and in its permission part. *)
Lemma has_permission_part (mode bit : Z) :
  Z.land 0xFFF bit = bit -> has mode bit = has (Z.land mode 0xFFF) bit.
Proof.
  intros H. unfold has. now rewrite <- Z.land_assoc, H.
Qed.

Lemma modeToSymbolic_symbolic (mode : Z) : modeToSymbolic mode = symbolic mode.
Proof.
  unfold modeToSymbolic, symbolic, plain_cell, special_cell.
  change S_IRUSR with (2 ^ 8). change S_IWUSR with (2 ^ 7).
  change S_IXUSR with (2 ^ 6). change S_IRGRP with (2 ^ 5).
  change S_IWGRP with (2 ^ 4). change S_IXGRP with (2 ^ 3).
  change S_IROTH with (2 ^ 2). change S_IWOTH with (2 ^ 1).
  change S_IXOTH with (2 ^ 0). change S_ISUID with (2 ^ 11).
  change S_ISGID with (2 ^ 10). change S_ISVTX with (2 ^ 9).
  rewrite !has_pow2 by lia.
  change (8 - Z.of_nat 0) with 8. change (8 - Z.of_nat 1) with 7.
  change (8 - Z.of_nat 2) with 6. change (8 - Z.of_nat 3) with 5.
  change (8 - Z.of_nat 4) with 4. change (8 - Z.of_nat 5) with 3.
  change (8 - Z.of_nat 6) with 2. change (8 - Z.of_nat 7) with 1.
  change (8 - Z.of_nat 8) with 0.
  repeat f_equal;
    repeat match goal with
           | |- context [Z.testbit mode ?k] => destruct (Z.testbit mode k)
           end; reflexivity.
Qed.

Lemma modeToSymbolic_length (mode : Z) :
  String.length (modeToSymbolic mode) = 9%nat.
Proof. reflexivity. Qed.

Lemma regular_not_symlink (mode : Z) : S_ISREG mode = true -> S_ISLNK mode = false.
Proof.
  unfold S_ISREG, S_ISLNK, is_type. intros H. apply Z.eqb_eq in H. now rewrite H.
Qed.

Lemma regular_type (mode : Z) :
  S_ISREG mode = true -> fileTypeToString mode = "regular".
Proof. unfold fileTypeToString. now intros ->. Qed.

Lemma mode_0644_symbolic (mode : Z) :
  Z.land mode 0xFFF = 0x1A4 -> modeToSymbolic mode = "rw-r--r--".
Proof.
  intros H. unfold modeToSymbolic.
  rewrite (has_permission_part mode S_IRUSR), (has_permission_part mode S_IWUSR),
    (has_permission_part mode S_IXUSR), (has_permission_part mode S_IRGRP),
    (has_permission_part mode S_IWGRP), (has_permission_part mode S_IXGRP),
    (has_permission_part mode S_IROTH), (has_permission_part mode S_IWOTH),
    (has_permission_part mode S_IXOTH), (has_permission_part mode S_ISUID),
    (has_permission_part mode S_ISGID), (has_permission_part mode S_ISVTX)
    by reflexivity.
  rewrite H. reflexivity.
Qed.

(** ** Results that only grow *)

Lemma grows_refl (r : MetadataResult) : grows r r.
Proof. exists []. rewrite app_nil_r. now destruct r. Qed.

Lemma grows_trans (a b c : MetadataResult) : grows a b -> grows b c -> grows a c.
Proof.
  intros [t1 ->] [t2 ->]. exists (t1 ++ t2). simpl. now rewrite app_assoc.
Qed.

Lemma grows_add (r r' : MetadataResult) (n v : string) :
  grows r r' -> grows r (addAttribute r' n v).
Proof.
  intros H. apply (grows_trans _ _ _ H). now exists [attr1 n v].
Qed.

Lemma grows_addInt (r r' : MetadataResult) (n : string) (v : Z) :
  grows r r' -> grows r (addAttributeInt r' n v).
Proof. apply grows_add. Qed.

Lemma grows_in (r r' : MetadataResult) (a : MetadataAttribute) :
  grows r r' -> In a (attributes r) -> In a (attributes r').
Proof. intros [t ->] H. simpl. apply in_or_app. now left. Qed.

Lemma grows_success (r r' : MetadataResult) : grows r r' -> success r' = success r.
Proof. now intros [t ->]. Qed.

Lemma grows_set_success (r r' : MetadataResult) (b : bool) :
  grows r r' -> grows (set_success r b) (set_success r' b).
Proof. intros [t ->]. now exists t. Qed.

Ltac grow :=
  repeat first
    [ assumption
    | apply grows_refl
    | apply grows_addInt
    | apply grows_add
    | match goal with
      | |- grows _ (if ?b then _ else _) => destruct b
      | |- grows _ (match ?o with Some _ => _ | None => _ end) => destruct o
      end ].

Section WithOS.

Variable W : Type.
Variable os : OS W.

Lemma collectOwnership_grows (statBuf : stat64_t) (r : MetadataResult) (w : W) :
  grows r (fst (collectOwnership W os statBuf r w)).
Proof.
  unfold collectOwnership, bind, ret.
  destruct (getpwuid os (st_uid statBuf) w) as [pwd w1].
  destruct (getgrgid os (st_gid statBuf) w1) as [grp w2].
  destruct grp; simpl; grow.
Qed.

Lemma collectAccessInfo_grows (path : string) (r : MetadataResult) (w : W) :
  grows r (fst (collectAccessInfo W os path r w)).
Proof.
  unfold collectAccessInfo, bind, ret.
  destruct (access os path R_OK w) as [a1 w1].
  destruct (access os path W_OK w1) as [a2 w2].
  destruct (access os path X_OK w2) as [a3 w3].
  simpl. grow.
Qed.

Lemma emitStats_grows (lstatBuf statBuf : stat64_t) (r : MetadataResult) (w : W) :
  grows (stats_head lstatBuf statBuf r)
        (fst (emitStats W os lstatBuf statBuf r w)).
Proof.
  unfold emitStats, bind, ret. fold (stats_head lstatBuf statBuf r).
  match goal with
  | |- context [collectOwnership W os ?s ?R ?w0] =>
      assert (H0 : grows (stats_head lstatBuf statBuf r) R) by grow;
      pose proof (grows_trans _ _ _ H0 (collectOwnership_grows s R w0)) as H1;
      destruct (collectOwnership W os s R w0) as [r1 w1]
  end.
  cbn [fst] in H1.
  destruct (timeToString W os (st_atime statBuf) w1) as [ta w2].
  destruct (timeToString W os (st_mtime statBuf) w2) as [tm w3].
  destruct (timeToString W os (st_ctime statBuf) w3) as [tc w4].
  cbn [fst]. grow.
Qed.

End WithOS.

End FileFacts.

Module FileTheorems.
Import CLib Types Effects FileCollector Spec Samples CLibFacts FileFacts.
Local Open Scope list_scope.

(** Where [lstat64] fails, the Result returned is the one [collect] set
    up, marked as failed: it keeps the type "file". *)
Lemma collect_stat_failure_keeps_type (W : Type) (os : OS W) (path : string)
    (w w' : W) (err : Z) :
  path <> EmptyString ->
  lstat64 os path w = (inl err, w') ->
  run (collect W os path) w
  = mkResult "file" path [] false
      ("Cannot stat file '" ++ path ++ "': " ++ strerror os err)%string.
Proof.
  intros Hp Hl. unfold collect, run, collectStats, bind, ret.
  destruct path; [congruence|].
  change (empty (String a path)) with false. cbv beta iota.
  rewrite Hl. reflexivity.
Qed.

Lemma collect_regular (W : Type) (os : OS W) (path : string) (w w' : W)
    (st : stat64_t) :
  path <> EmptyString ->
  lstat64 os path w = (inr st, w') ->
  S_ISREG (st_mode st) = true ->
  grows (set_success (stats_head st st (mkResult "file" path [] false "")) true)
        (run (collect W os path) w).
Proof.
  intros Hp Hl Hreg. unfold collect, run, collectStats, bind.
  destruct path; [congruence|].
  change (empty (String a path)) with false. cbv beta iota.
  rewrite Hl. rewrite (regular_not_symlink _ Hreg). unfold ret at 1.
  pose proof (emitStats_grows W os st st
                (set_identifier (set_type newResult "file") (String a path)) w')
    as He.
  destruct (emitStats W os st st _ w') as [r1 w1]. simpl in He.
  unfold ret at 1. cbn [negb].
  eapply grows_trans; [|apply collectAccessInfo_grows].
  now apply grows_set_success.
Qed.

(** C9. For a regular file whose permission bits are 0644 the file
    collector succeeds and emits type = "regular", mode_octal = "0644" and
    mode_symbolic = "rw-r--r--". For every mode the symbolic rendering has
    nine characters and is the plain rwxrwxrwx rendering of the nine
    permission bits in which the owner and the group execute cells show
    s (over x) or S (over a dash) when setuid, respectively setgid, is set
    and the others' execute cell shows t or T when the sticky bit is set. *)
Theorem regular_0644_and_symbolic_modes :
  (forall (W : Type) (os : OS W) (path : string) (w w' : W) (st : stat64_t),
      path <> EmptyString ->
      lstat64 os path w = (inr st, w') ->
      S_ISREG (st_mode st) = true ->
      Z.land (st_mode st) 0xFFF = 0x1A4 ->
      success (run (collect W os path) w) = true
      /\ In (attr1 "type" "regular") (attributes (run (collect W os path) w))
      /\ In (attr1 "mode_octal" "0644") (attributes (run (collect W os path) w))
      /\ In (attr1 "mode_symbolic" "rw-r--r--")
            (attributes (run (collect W os path) w)))
  /\ (forall mode : Z,
        String.length (modeToSymbolic mode) = 9%nat
        /\ modeToSymbolic mode = symbolic mode
        /\ (Z.testbit mode 11 = true ->
            get 2 (modeToSymbolic mode)
            = Some (if Z.testbit mode 6 then "s" else "S")%char)
        /\ (Z.testbit mode 10 = true ->
            get 5 (modeToSymbolic mode)
            = Some (if Z.testbit mode 3 then "s" else "S")%char)
        /\ (Z.testbit mode 9 = true ->
            get 8 (modeToSymbolic mode)
            = Some (if Z.testbit mode 0 then "t" else "T")%char)).
Proof.
  split.
  - intros W os path w w' st Hp Hl Hreg Hperm.
    pose proof (collect_regular W os path w w' st Hp Hl Hreg) as Hg.
    split; [rewrite (grows_success _ _ Hg); reflexivity|].
    repeat split; apply (grows_in _ _ _ Hg); unfold stats_head; simpl.
    + rewrite (regular_type _ Hreg). auto.
    + rewrite Hperm. change ("0" ++ oct 420)%string with "0644". auto 10.
    + rewrite (mode_0644_symbolic _ Hperm). auto 10.
  - intros mode. split; [apply modeToSymbolic_length|].
    split; [apply modeToSymbolic_symbolic|].
    rewrite modeToSymbolic_symbolic. unfold symbolic, special_cell, plain_cell.
    change (8 - Z.of_nat 2) with 6. change (8 - Z.of_nat 5) with 3.
    change (8 - Z.of_nat 8) with 0.
    repeat split; intros ->; cbn [get];
      match goal with
      | |- context [Z.testbit mode ?k] => destruct (Z.testbit mode k)
      end; reflexivity.
Qed.

Lemma regular_0644_and_symbolic_modes_witness :
  "/etc/passwd" <> EmptyString
  /\ lstat64 passwd_os "/etc/passwd" tt = (inr passwd_stat, tt)
  /\ S_ISREG (st_mode passwd_stat) = true
  /\ Z.land (st_mode passwd_stat) 0xFFF = 0x1A4
  /\ (success (run (collect unit passwd_os "/etc/passwd") tt) = true
      /\ In (attr1 "type" "regular")
            (attributes (run (collect unit passwd_os "/etc/passwd") tt))
      /\ In (attr1 "mode_octal" "0644")
            (attributes (run (collect unit passwd_os "/etc/passwd") tt))
      /\ In (attr1 "mode_symbolic" "rw-r--r--")
            (attributes (run (collect unit passwd_os "/etc/passwd") tt))).
Proof.
  assert (Hp : "/etc/passwd" <> EmptyString) by discriminate.
  split; [exact Hp|]. split; [reflexivity|]. split; [reflexivity|].
  split; [reflexivity|].
  exact (proj1 regular_0644_and_symbolic_modes unit passwd_os "/etc/passwd"
           tt tt passwd_stat Hp eq_refl eq_refl eq_refl).
Defined.

End FileTheorems.

(* ================================================================== *)
(** * The process collector *)
(* ================================================================== *)

Module ProcessFacts.
Import CLib Types Effects ProcessCollector Spec CLibFacts PortFacts.

Lemma to_int32_pid (v : Z) : 1 <= v <= INT32_MAX -> to_int32 v = v.
Proof.
  unfold INT32_MAX, to_int32. intros H.
  rewrite Z.mod_small by lia. lia.
Qed.


Lemma parsePid_complete (ident : string) (p : Z) :
  valid_pid ident p -> parsePid ident = Some p.
Proof.
  intros [Hb Hr]. unfold parsePid. rewrite (strtol_reads _ _ Hb). simpl.
  rewrite clamp_id by (unfold LONG_MIN, LONG_MAX, INT32_MAX in *; lia).
  destruct (p <=? 0) eqn:H0; [apply Z.leb_le in H0; lia|].
  destruct (p >? INT32_MAX) eqn:H1;
    [rewrite Z.gtb_ltb in H1; apply Z.ltb_lt in H1; lia|].
  simpl. now rewrite to_int32_pid.
Qed.


(** ** The width of [long] *)






Section WithOS.

Variable W : Type.
Variable os : OS W.
Variable AIX : bool.



Lemma collect_invalid_pid (ident : string) (w : W) :
  parsePid ident = None ->
  run (collect W os AIX ident) w
  = createErrorResult ident ("Invalid PID format: " ++ ident).
Proof. intros H. unfold collect, run. now rewrite H. Qed.

Lemma collect_not_found (ident : string) (pid : Z) (w : W) :
  parsePid ident = Some pid ->
  fst (fst (collectBasicInfo W os AIX pid
              (mkResult "process" ident [] false "") w)) = false ->
  run (collect W os AIX ident) w
  = createErrorResult ident
      ("Process not found or access denied for PID: " ++ ident).
Proof.
  intros Hp Hb. unfold collect, run, bind. rewrite Hp.
  change (set_identifier (set_type newResult "process") ident)
    with (mkResult "process" ident [] false "").
  destruct (collectBasicInfo W os AIX pid _ w) as [[ok r] w1].
  simpl in Hb. subst ok. reflexivity.
Qed.

(** On AIX the basic information fails exactly when the process table
    does not hand back one entry for the PID asked for. *)
Lemma collectBasicInfo_fails (pid : Z) (r : MetadataResult) (w : W) :
  AIX = true ->
  fst (fst (collectBasicInfo W os AIX pid r w)) = false
  <-> (fst (fst (getprocs64 os pid w)) <> 1
       \/ pi_pid os (snd (fst (getprocs64 os pid w))) <> pid).
Proof.
  intros ->. unfold collectBasicInfo, bind, ret.
  destruct (getprocs64 os pid w) as [[count procInfo] w1]. simpl.
  destruct (count =? 1) eqn:E1; destruct (pi_pid os procInfo =? pid) eqn:E2;
    simpl.
  - apply Z.eqb_eq in E1, E2.
    destruct (emitBasicInfo os procInfo r w1). simpl.
    split; [discriminate | intros [H | H]; contradiction].
  - apply Z.eqb_neq in E2. split; auto.
  - apply Z.eqb_neq in E1. split; auto.
  - apply Z.eqb_neq in E1. split; auto.
Qed.

End WithOS.

End ProcessFacts.

(* ================================================================== *)
(** * Error Results and identifiers across the collectors *)
(* ================================================================== *)

Module ResultTheorems.
Import CLib Types Effects Spec Samples CLibFacts PortFacts ProcessFacts.
Import PortTheorems.

(** C1. The Results returned for a malformed identifier are not well
    formed in the sense of section 3: the port collector asked for "abc",
    the file collector asked for the empty path and the process collector
    asked for "abc" each return, through the [collect] of the interface, a
    Result whose type is the empty text and not the tag of the collector's
    [getType]. *)
Theorem error_results_carry_no_type :
  (forall (W : Type) (popen_read : string -> M W (option (string * Z)))
          (AIX : bool) (m_protocol : Protocol) (w : W),
      let c := PortCollector.collector W popen_read AIX m_protocol in
      CollectorBase.getType c = Port
      /\ type (run (CollectorBase.collect c "abc") w) = ""
      /\ ~ well_formed (CollectorBase.getType c)
             (run (CollectorBase.collect c "abc") w))
  /\ (forall (W : Type) (os : FileCollector.OS W) (w : W),
        let c := FileCollector.collector W os in
        CollectorBase.getType c = File
        /\ type (run (CollectorBase.collect c "") w) = ""
        /\ ~ well_formed (CollectorBase.getType c)
               (run (CollectorBase.collect c "") w))
  /\ (forall (W : Type) (os : ProcessCollector.OS W) (AIX : bool) (w : W),
        let c := ProcessCollector.collector W os AIX in
        CollectorBase.getType c = Process
        /\ type (run (CollectorBase.collect c "abc") w) = ""
        /\ ~ well_formed (CollectorBase.getType c)
               (run (CollectorBase.collect c "abc") w)).
Proof.
  split; [|split].
  - intros W popen_read AIX m_protocol w c. subst c.
    cbn [CollectorBase.getType CollectorBase.collect PortCollector.collector].
    rewrite collect_unfold.
    change (PortCollector.parsePort "abc") with (@None Z).
    split; [reflexivity|]. split; [reflexivity|].
    intros [H _]. discriminate H.
  - intros W os w c. subst c.
    split; [reflexivity|]. split; [reflexivity|].
    intros [H _]. discriminate H.
  - intros W os AIX w c. subst c.
    cbn [CollectorBase.getType CollectorBase.collect ProcessCollector.collector].
    rewrite collect_invalid_pid by reflexivity.
    split; [reflexivity|]. split; [reflexivity|].
    intros [H _]. discriminate H.
Qed.

(** C7. [createErrorResult identifier message] is unsuccessful, carries
    the identifier and the message, and has no attribute. The collectors
    return exactly it: the port collector for an identifier [parsePort]
    refuses, the file collector for the empty path, the process collector
    for an identifier [parsePid] refuses and for a PID whose basic
    information cannot be collected (on AIX: the process table does not
    return the one entry of that PID). *)
Theorem createErrorResult_is_the_error_result :
  (forall ident message : string,
      success (createErrorResult ident message) = false
      /\ identifier (createErrorResult ident message) = ident
      /\ errorMessage (createErrorResult ident message) = message
      /\ attributes (createErrorResult ident message) = [])
  /\ (forall (W : Type) (popen_read : string -> M W (option (string * Z)))
             (AIX : bool) (m_protocol : Protocol) (ident : string) (w : W),
        PortCollector.parsePort ident = None ->
        run (PortCollector.collect W popen_read AIX m_protocol ident) w
        = createErrorResult ident ("Invalid port number: " ++ ident))
  /\ (forall (W : Type) (os : FileCollector.OS W) (w : W),
        run (FileCollector.collect W os "") w
        = createErrorResult "" "Empty file path")
  /\ (forall (W : Type) (os : ProcessCollector.OS W) (AIX : bool)
             (ident : string) (w : W),
        ProcessCollector.parsePid ident = None ->
        run (ProcessCollector.collect W os AIX ident) w
        = createErrorResult ident ("Invalid PID format: " ++ ident))
  /\ (forall (W : Type) (os : ProcessCollector.OS W) (AIX : bool)
             (ident : string) (pid : Z) (w : W),
        ProcessCollector.parsePid ident = Some pid ->
        fst (fst (ProcessCollector.collectBasicInfo W os AIX pid
                    (mkResult "process" ident [] false "") w)) = false ->
        run (ProcessCollector.collect W os AIX ident) w
        = createErrorResult ident
            ("Process not found or access denied for PID: " ++ ident))
  /\ (forall (W : Type) (os : ProcessCollector.OS W) (ident : string)
             (pid : Z) (w : W),
        ProcessCollector.parsePid ident = Some pid ->
        (fst (fst (ProcessCollector.getprocs64 os pid w)) <> 1
         \/ ProcessCollector.pi_pid os
              (snd (fst (ProcessCollector.getprocs64 os pid w))) <> pid) ->
        run (ProcessCollector.collect W os true ident) w
        = createErrorResult ident
            ("Process not found or access denied for PID: " ++ ident)).
Proof.
  split; [|split; [|split; [|split; [|split]]]].
  - intros ident message. repeat split.
  - intros W popen_read AIX m_protocol ident w H.
    rewrite collect_unfold, H. reflexivity.
  - reflexivity.
  - intros W os AIX ident w H. now apply collect_invalid_pid.
  - intros W os AIX ident pid w Hp Hb. now apply (collect_not_found W os AIX ident pid).
  - intros W os ident pid w Hp Hb.
    apply (collect_not_found W os true ident pid); [exact Hp|].
    now apply collectBasicInfo_fails.
Qed.

Lemma createErrorResult_is_the_error_result_witness :
  PortCollector.parsePort "http" = None
  /\ ProcessCollector.parsePid "init" = None
  /\ ProcessCollector.parsePid "42" = Some 42
  /\ fst (fst (ProcessCollector.getprocs64 empty_table 42 tt)) <> 1
  /\ run (PortCollector.collect unit silent_host true Both "http") tt
     = mkResult "" "http" [] false "Invalid port number: http"
  /\ run (ProcessCollector.collect unit empty_table true "init") tt
     = mkResult "" "init" [] false "Invalid PID format: init"
  /\ run (ProcessCollector.collect unit empty_table true "42") tt
     = mkResult "" "42" [] false
         "Process not found or access denied for PID: 42".
Proof.
  assert (H0 : fst (fst (ProcessCollector.getprocs64 empty_table 42 tt)) <> 1)
    by discriminate.
  destruct createErrorResult_is_the_error_result
    as (_ & Hport & _ & Hpid & _ & Hfound).
  split; [reflexivity|]. split; [reflexivity|]. split; [reflexivity|].
  split; [exact H0|].
  split; [exact (Hport unit silent_host true Both "http" tt eq_refl)|].
  split; [exact (Hpid unit empty_table true "init" tt eq_refl)|].
  exact (Hfound unit empty_table "42" 42 tt eq_refl (or_introl H0)).
Defined.


End ResultTheorems.

(* ================================================================== *)
(** * Decimal texts read back *)
(* ================================================================== *)

Module DecFacts.
Import CLib Types Spec CLibFacts PortFacts ProcessFacts.

Lemma append_assoc (a b c : string) : ((a ++ b) ++ c = a ++ (b ++ c))%string.
Proof. induction a as [|x a IH]; simpl; congruence. Qed.

Lemma uint_all_digits (d : Decimal.uint) :
  all_digits (NilEmpty.string_of_uint d) = true.
Proof. induction d; simpl; auto. Qed.

Ltac digit_step :=
  match goal with
  | |- (if isdigit ?c then _ else _) = _ =>
      let v := eval vm_compute in (digit_of c) in
      change (isdigit c) with true; change (digit_of c) with v; cbv iota
  end.

Lemma strtol_digits_uint_acc (d : Decimal.uint) :
  forall acc : positive,
    strtol_digits (Z.pos acc) (NilEmpty.string_of_uint d)
    = (Z.pos (Pos.of_uint_acc d acc), EmptyString).
Proof.
  induction d; intros acc;
    cbn [NilEmpty.string_of_uint strtol_digits Pos.of_uint_acc];
    [reflexivity | ..];
    digit_step; rewrite <- IHd; f_equal; lia.
Qed.

Lemma strtol_digits_uint (d : Decimal.uint) :
  strtol_digits 0 (NilEmpty.string_of_uint d)
  = (Z.of_N (Pos.of_uint d), EmptyString).
Proof.
  induction d; cbn [NilEmpty.string_of_uint strtol_digits Pos.of_uint];
    [reflexivity | digit_step; exact IHd | ..];
    digit_step; apply strtol_digits_uint_acc.
Qed.

Lemma numeral_value_uint (d : Decimal.uint) :
  numeral_value (NilEmpty.string_of_uint d) = Z.of_N (Pos.of_uint d).
Proof.
  pose proof (strtol_digits_all _ (uint_all_digits d) 0) as H.
  rewrite strtol_digits_uint in H. injection H as H. lia.
Qed.

Lemma dec_pos (p : positive) :
  dec (Z.pos p) = NilEmpty.string_of_uint (Pos.to_uint p).
Proof.
  unfold dec. cbn [Z.to_int NilZero.string_of_int].
  pose proof (DecimalPos.Unsigned.to_uint_nonnil p) as H.
  unfold NilZero.string_of_uint. destruct (Pos.to_uint p); congruence.
Qed.

Lemma dec_neg (p : positive) :
  dec (Z.neg p) = String "-" (NilEmpty.string_of_uint (Pos.to_uint p)).
Proof.
  unfold dec. cbn [Z.to_int NilZero.string_of_int].
  pose proof (DecimalPos.Unsigned.to_uint_nonnil p) as H.
  unfold NilZero.string_of_uint. destruct (Pos.to_uint p); congruence.
Qed.

Lemma pos_numeral (p : positive) :
  numeral (NilEmpty.string_of_uint (Pos.to_uint p))
  /\ numeral_value (NilEmpty.string_of_uint (Pos.to_uint p)) = Z.pos p.
Proof.
  split; [split|].
  - pose proof (DecimalPos.Unsigned.to_uint_nonnil p) as H.
    destruct (Pos.to_uint p); try congruence; discriminate.
  - apply uint_all_digits.
  - rewrite numeral_value_uint, DecimalPos.Unsigned.of_to. reflexivity.
Qed.

(** The decimal text of a number that is not negative is a numeral. *)
Lemma dec_nonneg_numeral (z : Z) :
  0 <= z -> numeral (dec z) /\ numeral_value (dec z) = z.
Proof.
  destruct z as [|p|p]; intros H; [| |lia].
  - split; [split; [discriminate | reflexivity] | reflexivity].
  - rewrite dec_pos. apply pos_numeral.
Qed.

(** The decimal text of [z] reads as [z]. *)
Lemma dec_reads (z : Z) : base10_integer (dec z) z.
Proof.
  destruct z as [|p|p].
  - apply (b10_plain "0"). split; [discriminate | reflexivity].
  - destruct (dec_nonneg_numeral (Z.pos p) ltac:(lia)) as [Hn Hv].
    rewrite <- Hv at 2. now apply b10_plain.
  - rewrite dec_neg. destruct (pos_numeral p) as [Hn Hv].
    change (Z.neg p) with (- Z.pos p). rewrite <- Hv. now apply b10_minus.
Qed.

Lemma c_str_digits (s : string) : all_digits s = true -> c_str s = s.
Proof.
  induction s as [|c r IH]; simpl; [reflexivity|]. intros H.
  apply andb_prop in H as [Hc Hr].
  destruct (Ascii.eqb c zero) eqn:E.
  - apply Ascii.eqb_eq in E. subst c. discriminate Hc.
  - now rewrite IH.
Qed.

Lemma c_str_dec (z : Z) : c_str (dec z) = dec z.
Proof.
  destruct z as [|p|p].
  - reflexivity.
  - apply c_str_digits. apply (dec_nonneg_numeral (Z.pos p)). lia.
  - rewrite dec_neg. cbn [c_str]. change (Ascii.eqb "-" zero) with false.
    cbv iota. f_equal. apply c_str_digits, uint_all_digits.
Qed.

Lemma base10_nospace_functional (t : string) (v1 v2 : Z) :
  (forall c r, t = String c r -> isspace c = false) ->
  base10_integer t v1 -> base10_integer t v2 -> v1 = v2.
Proof.
  intros Hh H1 H2.
  inversion H1; inversion H2; subst;
    repeat match goal with
           | H : String _ _ = String _ _ |- _ =>
               first [discriminate H | injection H as ? ?; subst]
           end;
    try reflexivity; try discriminate;
    try match goal with
        | H : isspace ?c = true |- _ =>
            rewrite (Hh _ _ eq_refl) in H; discriminate H
        end;
    try match goal with
        | H : numeral (String _ _) |- _ =>
            apply numeral_head in H; discriminate H
        end;
    try match goal with
        | H : String _ _ = String _ _ |- _ => injection H as <-; reflexivity
        end.
Qed.

(** A text reads as one integer at most. *)
Lemma base10_integer_functional (s : string) (v1 v2 : Z) :
  base10_integer s v1 -> base10_integer s v2 -> v1 = v2.
Proof.
  intros H1 H2. apply base10_skip_space in H1, H2.
  apply (base10_nospace_functional (skip_space s)); auto.
  intros c r E. exact (skip_space_head _ _ _ E).
Qed.

Lemma dec_inj (a b : Z) : dec a = dec b -> a = b.
Proof.
  intros H. apply (base10_integer_functional (dec a)).
  - apply dec_reads.
  - rewrite H. apply dec_reads.
Qed.

Lemma strtol_dec (z : Z) :
  LONG_MIN <= z <= LONG_MAX -> strtol (dec z) = mkStrtol z EmptyString false.
Proof.
  intros H. rewrite (strtol_reads (dec z) z).
  - now rewrite clamp_id.
  - rewrite c_str_dec. apply dec_reads.
Qed.

End DecFacts.

(* ================================================================== *)
(** * The port collector: further properties *)
(* ================================================================== *)

Module PortProperties.
Import CLib Types Effects PortCollector Spec Samples MoreSamples PortSchema.
Import CLibFacts PortFacts PortEffects PortAssembly DecFacts ProcessFacts.
Local Open Scope list_scope.

(** X1. The decimal text the integer overloads of [addAttribute] store
    reads back: the text of [z] reads as the integer [z]; for [z] in the
    range of [long], [strtol] consumes the stored value whole and returns
    [z]; a port of [1,65535] and a PID of [1,INT32_MAX] written in decimal
    are parsed back by [parsePort] and [parsePid]. *)
Theorem decimal_text_reads_back :
  (forall z : Z, base10_integer (c_str (dec z)) z)
  /\ (forall (r : MetadataResult) (n : string) (z : Z),
        LONG_MIN <= z <= LONG_MAX ->
        exists v,
          attributes (addAttributeInt r n z) = attributes r ++ [attr1 n v]
          /\ strtol v = mkStrtol z EmptyString false)
  /\ (forall p : Z, 1 <= p <= 65535 -> parsePort (dec p) = Some p)
  /\ (forall p : Z,
        1 <= p <= INT32_MAX -> ProcessCollector.parsePid (dec p) = Some p).
Proof.
  split; [|split; [|split]].
  - intros z. rewrite c_str_dec. apply dec_reads.
  - intros r n z Hz. exists (dec z). split; [reflexivity|].
    now apply strtol_dec.
  - intros p Hp. apply parsePort_complete. split; [|exact Hp].
    rewrite c_str_dec. apply dec_reads.
  - intros p Hp. apply parsePid_complete. split; [|exact Hp].
    rewrite c_str_dec. apply dec_reads.
Qed.

Lemma decimal_text_reads_back_witness :
  LONG_MIN <= -42 <= LONG_MAX
  /\ 1 <= 8080 <= 65535
  /\ (exists v,
         attributes (addAttributeInt newResult "nice" (-42)) = [attr1 "nice" v]
         /\ strtol v = mkStrtol (-42) EmptyString false)
  /\ parsePort (dec 8080) = Some 8080.
Proof.
  assert (H1 : LONG_MIN <= -42 <= LONG_MAX) by (unfold LONG_MIN, LONG_MAX; lia).
  assert (H2 : 1 <= 8080 <= 65535) by lia.
  split; [exact H1|]. split; [exact H2|]. split.
  - exact (proj1 (proj2 decimal_text_reads_back) newResult "nice" (-42) H1).
  - exact (proj1 (proj2 (proj2 decimal_text_reads_back)) 8080 H2).
Defined.

(** ** The keep rule, in both directions *)

Lemma strtol_reads_port (t : string) (p : Z) :
  1 <= p <= 65535 -> base10_integer (c_str t) p ->
  strtol t = mkStrtol p EmptyString false.
Proof.
  intros Hp Hb. rewrite (strtol_reads t p Hb).
  rewrite clamp_id by (unfold LONG_MIN, LONG_MAX; lia). reflexivity.
Qed.

Lemma port_token_rfind (addr t : string) :
  port_token addr = Some t ->
  exists i, rfind "." addr = Some i /\ t = substr_from addr (S i).
Proof.
  unfold port_token. intros H.
  destruct (rfind "." addr) as [i|] eqn:E.
  - exists i. split; [reflexivity|].
    rewrite (rfind_after_last _ _ _ E) in H. congruence.
  - rewrite (rfind_none_after_last _ _ E) in H. discriminate.
Qed.

Lemma port_matches_complete (p : Z) (la fa : string) (i : nat) :
  1 <= p <= 65535 ->
  rfind "." la = Some i ->
  names_port la p \/ names_port fa p ->
  port_matches p (substr_from la (S i)) fa = true.
Proof.
  intros Hp Hi [[t [Ht Hb]] | [t [Ht Hb]]]; unfold port_matches.
  - destruct (port_token_rfind _ _ Ht) as (j & Hj & ->).
    assert (j = i) by congruence. subst j.
    rewrite (strtol_reads_port _ p Hp Hb). cbn [st_end st_value empty negb].
    rewrite Z.eqb_refl. reflexivity.
  - destruct (port_token_rfind _ _ Ht) as (j & Hj & ->).
    rewrite Hj, (strtol_reads_port _ p Hp Hb).
    cbn [st_end st_value empty negb]. rewrite Z.eqb_refl. cbn [negb orb].
    now destruct (_ || _).
Qed.

(** X2. For a target port [p] of [1,65535] a line is kept if and only if
    it has the columns of a connection (six tokens after an optional socket
    address), its local address contains a dot, and the text after the last
    dot of its local address or of its foreign address reads as [p]. *)
Theorem line_kept_iff :
  forall (line : string) (p : Z) (proto : string),
    1 <= p <= 65535 ->
    (parseNetstatLine line p proto <> None
     <-> exists sa la fa st,
           netstatColumns line = Some (sa, la, fa, st)
           /\ contains "." la = true
           /\ (names_port la p \/ names_port fa p)).
Proof.
  intros line p proto Hp. split.
  - intros H. destruct (parseNetstatLine line p proto) as [[sa info]|] eqn:E;
      [clear H | congruence].
    destruct (parseNetstatLine_kept _ _ _ _ _ E)
      as (la & fa & st & i & Hc & Hi & Hm & _).
    exists sa, la, fa, st. split; [exact Hc|]. split.
    + destruct (contains "." la) eqn:Hd; [reflexivity|].
      apply rfind_none in Hd. congruence.
    + exact (port_matches_names p la i fa Hp Hi Hm).
  - intros (sa & la & fa & st & Hc & Hd & Hn).
    unfold parseNetstatLine. rewrite Hc.
    destruct (rfind "." la) as [i|] eqn:Hi.
    + rewrite (port_matches_complete p la fa i Hp Hi Hn). cbn [negb].
      destruct (rfind "." fa); discriminate.
    + apply rfind_none in Hi. congruence.
Qed.

Lemma line_kept_iff_witness :
  1 <= 22 <= 65535
  /\ (parseNetstatLine "tcp4 0 0 10.0.0.5.51234 10.0.0.9.22 ESTABLISHED" 22 "tcp"
      <> None
      <-> exists sa la fa st,
            netstatColumns "tcp4 0 0 10.0.0.5.51234 10.0.0.9.22 ESTABLISHED"
            = Some (sa, la, fa, st)
            /\ contains "." la = true
            /\ (names_port la 22 \/ names_port fa 22)).
Proof.
  assert (Hp : 1 <= 22 <= 65535) by lia.
  split; [exact Hp|].
  exact (line_kept_iff "tcp4 0 0 10.0.0.5.51234 10.0.0.9.22 ESTABLISHED"
           22 "tcp" Hp).
Defined.

(** ** Lines without a socket address *)

Lemma parseNetstatLine_socket (line : string) (p : Z) (proto sa : string)
    (info : ConnectionInfo) :
  parseNetstatLine line p proto = Some (sa, info) ->
  sa = (if is_socket_addr (first_token line) then first_token line else "")
  /\ unattributed info.
Proof.
  unfold parseNetstatLine, netstatColumns, first_token.
  destruct (empty line); [discriminate|].
  destruct (Nat.ltb (List.length (tokenize line)) 6); [discriminate|].
  destruct (is_socket_addr (nth 0 (tokenize line) ""));
    (match goal with
     | |- context [Nat.ltb ?a ?b] => destruct (Nat.ltb a b); [discriminate|]
     end);
    (destruct (rfind "." (nth _ (tokenize line) "")); [|discriminate]);
    (destruct (port_matches _ _ _); [|discriminate]); cbn [negb];
    (destruct (rfind "." (nth _ (tokenize line) "")));
    intros H; injection H as <- <-; repeat split.
Qed.

(** X3. A listing none of whose lines begins with a socket address is
    parsed without any subprocess: the world is left as it was, and the
    records appended are those of the kept lines, in order, each with PID 0
    and empty process name and user. *)
Theorem no_lookup_without_socket_address :
  forall (W : Type) (popen_read : string -> M W (option (string * Z)))
         (AIX : bool) (output : string) (port : Z) (proto : string)
         (connections : list ConnectionInfo) (w : W),
    (forall line, In line (getlines output) ->
                  is_socket_addr (first_token line) = false) ->
    parseNetstatOutput W popen_read AIX output port proto connections w
    = (connections ++ map snd (keptRecords (getlines output) port proto), w)
    /\ Forall unattributed
         (map snd (keptRecords (getlines output) port proto)).
Proof.
  intros W popen_read AIX output port proto connections w.
  unfold parseNetstatOutput. generalize (getlines output) as lines.
  intros lines. revert connections.
  induction lines as [|l rest IH]; intros connections Hall.
  - split; [|constructor]. simpl. unfold ret. now rewrite app_nil_r.
  - assert (Hrest : forall line, In line rest ->
                      is_socket_addr (first_token line) = false)
      by (intros line Hin; apply Hall; now right).
    cbn [parseNetstatLines keptRecords].
    destruct (parseNetstatLine l port proto) as [[sa info]|] eqn:E.
    + destruct (parseNetstatLine_socket _ _ _ _ _ E) as [Hsa Hun].
      rewrite (Hall l (or_introl eq_refl)) in Hsa. subst sa.
      cbn [empty negb map snd]. unfold bind, ret at 1.
      destruct (IH (connections ++ [info]) Hrest) as [E' F'].
      rewrite E', <- app_assoc. split; [reflexivity|].
      constructor; assumption.
    + apply IH, Hrest.
Qed.

Lemma no_lookup_without_socket_address_witness :
  (forall line, In line (getlines lan_listing) ->
                is_socket_addr (first_token line) = false)
  /\ parseNetstatOutput nat counting_host true lan_listing 22 "tcp" [] 0%nat
     = ([ mkConn "tcp" "10.0.0.1" "22" "10.0.0.5" "51234" "ESTABLISHED"
            0 "" "";
          mkConn "tcp" "10.0.0.1" "40000" "10.0.0.9" "22" "ESTABLISHED"
            0 "" "" ], 0%nat)
  /\ Forall unattributed
       [ mkConn "tcp" "10.0.0.1" "22" "10.0.0.5" "51234" "ESTABLISHED"
           0 "" "";
         mkConn "tcp" "10.0.0.1" "40000" "10.0.0.9" "22" "ESTABLISHED"
           0 "" "" ].
Proof.
  assert (H : forall line, In line (getlines lan_listing) ->
                           is_socket_addr (first_token line) = false).
  { assert (G : getlines lan_listing
                = [ "tcp4 0 0 10.0.0.1.22 10.0.0.5.51234 ESTABLISHED";
                    "tcp4 0 0 *.80 *.* LISTEN";
                    "tcp4 0 0 10.0.0.1.40000 10.0.0.9.22 ESTABLISHED"
                  ]%string)
      by (vm_compute; reflexivity).
    intros line Hin. rewrite G in Hin.
    destruct Hin as [<- | [<- | [<- | []]]]; vm_compute; reflexivity. }
  assert (K : map snd (keptRecords (getlines lan_listing) 22 "tcp")
              = [ mkConn "tcp" "10.0.0.1" "22" "10.0.0.5" "51234"
                    "ESTABLISHED" 0 "" "";
                  mkConn "tcp" "10.0.0.1" "40000" "10.0.0.9" "22"
                    "ESTABLISHED" 0 "" "" ])
    by (vm_compute; reflexivity).
  destruct (no_lookup_without_socket_address nat counting_host true
              lan_listing 22 "tcp" [] 0%nat H) as [E F].
  rewrite K in E, F.
  split; [exact H|]. split; [exact E | exact F].
Defined.

(** X4. When the IPv4 listing of a transport cannot be had in either form
    of the command, [collectTcpConnections]/[collectUdpConnections] return
    false with the connections as they were, and the world is the one the
    second command left: the IPv6 listing is not asked for. *)
Theorem ipv4_failure_skips_ipv6 :
  forall (W : Type) (popen_read : string -> M W (option (string * Z)))
         (AIX : bool) (transport : string) (port : Z)
         (connections : list ConnectionInfo) (w w1 w2 : W) (o1 o2 : string),
    executeCommand W popen_read
      ("netstat -Aan -f inet 2>/dev/null | grep " ++ transport)%string "" w
    = (false, o1, w1) ->
    executeCommand W popen_read
      ("netstat -an -f inet 2>/dev/null | grep " ++ transport)%string o1 w1
    = (false, o2, w2) ->
    collectConnections W popen_read AIX transport port connections w
    = (false, connections, w2).
Proof.
  intros W popen_read AIX transport port connections w w1 w2 o1 o2 H1 H2.
  unfold collectConnections, bind. rewrite H1. cbn [negb]. rewrite H2.
  reflexivity.
Qed.

Lemma ipv4_failure_skips_ipv6_witness :
  collectConnections unit silent_host true "tcp" 22 [] tt = (false, [], tt).
Proof.
  exact (ipv4_failure_skips_ipv6 unit silent_host true "tcp" 22 [] tt tt tt
           "" "" eq_refl eq_refl).
Defined.

(** ** The process lookup *)

Lemma lsof_scan_skip (skipped : list string) (rest : list string)
    (info : ConnectionInfo) :
  forallb lsof_skipped skipped = true ->
  lsof_scan (skipped ++ rest) info = lsof_scan rest info.
Proof.
  induction skipped as [|l ls IH]; intros H; [reflexivity|].
  cbn [forallb] in H. apply andb_prop in H as [Hl Hls].
  cbn [app lsof_scan]. unfold lsof_skipped in Hl.
  destruct (empty l); [now apply IH|]. cbn [orb] in Hl.
  destruct (Nat.ltb (List.length (tokenize l)) 2) eqn:E2;
    [now apply IH|].
  destruct (String.eqb (nth 0 (tokenize l) "") "COMMAND") eqn:Eh;
    [now apply IH|].
  cbn [orb]. rewrite orb_false_r in Hl. apply Nat.ltb_lt in Hl.
  destruct (Nat.leb 3 (List.length (tokenize l))) eqn:E3;
    [apply Nat.leb_le in E3; lia | now apply IH].
Qed.

(** X5. On AIX the attribution comes from the first line of the lsof
    output that is not empty, not the header, and has three columns at
    least: its first column is the process name, its third the user, and
    the lines after it are not looked at. The PID is its second column when
    [strtol] reads that column to its end, and is left as it was otherwise. *)
Theorem lsof_first_row_wins :
  forall (skipped : list string) (row : string) (rest : list string)
         (info : ConnectionInfo),
    forallb lsof_skipped skipped = true ->
    lsof_skipped row = false ->
    lsof_scan (skipped ++ row :: rest) info = attribute_row info (tokenize row)
    /\ processName (lsof_scan (skipped ++ row :: rest) info)
       = nth 0 (tokenize row) ""
    /\ user (lsof_scan (skipped ++ row :: rest) info)
       = nth 2 (tokenize row) ""
    /\ pid (lsof_scan (skipped ++ row :: rest) info)
       = (if empty (st_end (strtol (nth 1 (tokenize row) "")))
          then to_int32 (st_value (strtol (nth 1 (tokenize row) "")))
          else pid info).
Proof.
  intros skipped row rest info Hs Hr.
  assert (E : lsof_scan (skipped ++ row :: rest) info
              = attribute_row info (tokenize row)).
  { rewrite (lsof_scan_skip _ _ _ Hs). cbn [lsof_scan].
    unfold lsof_skipped in Hr.
    apply orb_false_elim in Hr as [Hr Hh].
    apply orb_false_elim in Hr as [He H3].
    rewrite He, Hh. apply Nat.ltb_ge in H3.
    destruct (Nat.ltb (List.length (tokenize row)) 2) eqn:E2;
      [apply Nat.ltb_lt in E2; lia|].
    cbn [orb].
    destruct (Nat.leb 3 (List.length (tokenize row))) eqn:E3;
      [reflexivity | apply Nat.leb_gt in E3; lia]. }
  rewrite E. unfold attribute_row, set_process. cbn [processName user pid].
  repeat split. now destruct (empty _).
Qed.

Lemma lsof_first_row_wins_witness :
  forallb lsof_skipped ["COMMAND PID USER FD"; ""; "orphan 7"] = true
  /\ lsof_skipped "sshd 1234 root 3u IPv4" = false
  /\ lsof_scan (["COMMAND PID USER FD"; ""; "orphan 7"]
                ++ "sshd 1234 root 3u IPv4" :: ["httpd 80 www 4u IPv4"])
       (mkConn "tcp" "*" "22" "*" "*" "LISTEN" 0 "" "")
     = mkConn "tcp" "*" "22" "*" "*" "LISTEN" 1234 "sshd" "root".
Proof.
  split; [reflexivity|]. split; [reflexivity|].
  exact (proj1 (lsof_first_row_wins ["COMMAND PID USER FD"; ""; "orphan 7"]
                  "sshd 1234 root 3u IPv4" ["httpd 80 www 4u IPv4"]
                  (mkConn "tcp" "*" "22" "*" "*" "LISTEN" 0 "" "")
                  eq_refl eq_refl)).
Defined.

(** X6. Whatever the lsof subprocess does, the lookup leaves protocol,
    addresses, ports and state of the record alone; and when the command
    cannot be run, or ends with an error and no output, the record comes
    back unchanged. *)
Theorem lookup_changes_attribution_only :
  forall (W : Type) (popen_read : string -> M W (option (string * Z)))
         (AIX : bool) (port : Z) (proto : string) (info : ConnectionInfo)
         (w : W),
    same_endpoint (fst (findProcessForPort W popen_read AIX port proto info w))
                  info
    /\ ((forall cmd,
            fst (popen_read cmd w) = None
            \/ (exists status, fst (popen_read cmd w) = Some ("", status))) ->
        fst (findProcessForPort W popen_read AIX port proto info w) = info).
Proof.
  intros W popen_read AIX port proto info w.
  split; [apply findProcessForPort_endpoint|].
  intros H. unfold findProcessForPort, executeCommand, bind, ret.
  destruct AIX.
  - match goal with |- context [popen_read ?c w] =>
      destruct (H c) as [E | [status E]];
      destruct (popen_read c w) as [[[text st]|] w1]; cbn [fst] in E;
      try discriminate E end.
    + reflexivity.
    + injection E as -> ->. cbn [empty negb].
      now rewrite orb_true_r.
  - match goal with |- context [popen_read ?c w] =>
      destruct (H c) as [E | [status E]];
      destruct (popen_read c w) as [[[text st]|] w1]; cbn [fst] in E;
      try discriminate E end.
    + reflexivity.
    + injection E as -> ->. cbn [empty negb].
      now rewrite andb_false_r.
Qed.

(** ** The protocol filter *)

Lemma has_protocol_weaken (p q : string) (cs : list ConnectionInfo) :
  Forall (has_protocol p) cs ->
  Forall (fun c => protocol c = p \/ protocol c = q) cs.
Proof. apply Forall_impl. intros c H. now left. Qed.

Lemma has_protocol_weaken_r (p q : string) (cs : list ConnectionInfo) :
  Forall (has_protocol q) cs ->
  Forall (fun c => protocol c = p \/ protocol c = q) cs.
Proof. apply Forall_impl. intros c H. now right. Qed.

(** X7. The protocol filter is respected: a collector built for TCP
    gathers only records tagged "tcp" or "tcp6", one built for UDP only
    records tagged "udp" or "udp6"; and whatever the filter, a record is
    tagged with one of these four. *)
Theorem protocol_filter_respected :
  forall (W : Type) (popen_read : string -> M W (option (string * Z)))
         (AIX : bool) (port : Z) (w : W),
    Forall (fun c => protocol c = "tcp" \/ protocol c = "tcp6")
           (run (gatherConnections W popen_read AIX TCP port) w)
    /\ Forall (fun c => protocol c = "udp" \/ protocol c = "udp6")
              (run (gatherConnections W popen_read AIX UDP port) w)
    /\ Forall (fun c => In (protocol c) ["tcp"; "tcp6"; "udp"; "udp6"])
              (run (gatherConnections W popen_read AIX Both port) w).
Proof.
  intros W popen_read AIX port w. unfold run.
  split; [|split].
  - unfold gatherConnections, collectTcpConnections, bind.
    destruct (collectConnections_shape W popen_read AIX "tcp" port [] w)
      as (t4 & t6 & ok & w1 & E & H4 & H6).
    rewrite E. unfold ret. cbn [fst app].
    apply Forall_app. split;
      [now apply has_protocol_weaken | now apply has_protocol_weaken_r].
  - unfold gatherConnections, collectUdpConnections, bind. unfold ret at 1.
    destruct (collectConnections_shape W popen_read AIX "udp" port [] w)
      as (u4 & u6 & ok & w1 & E & H4 & H6).
    rewrite E. unfold ret. cbn [fst app].
    apply Forall_app. split;
      [now apply has_protocol_weaken | now apply has_protocol_weaken_r].
  - destruct (gatherConnections_shape W popen_read AIX Both port w)
      as (t4 & t6 & u4 & u6 & E & H4 & H6 & G4 & G6).
    rewrite E. repeat (apply Forall_app; split);
      eapply Forall_impl; try eassumption; intros c Hc; rewrite Hc;
      cbn; tauto.
Qed.

Lemma lookup_changes_attribution_only_witness :
  (forall cmd, fst (silent_host cmd tt) = None
               \/ (exists status, fst (silent_host cmd tt) = Some ("", status)))
  /\ fst (findProcessForPort unit silent_host true 22 "tcp"
            (mkConn "tcp" "*" "22" "*" "*" "LISTEN" 0 "" "") tt)
     = mkConn "tcp" "*" "22" "*" "*" "LISTEN" 0 "" "".
Proof.
  assert (H : forall cmd, fst (silent_host cmd tt) = None
                \/ (exists status, fst (silent_host cmd tt) = Some ("", status)))
    by (intros cmd; left; reflexivity).
  split; [exact H|].
  exact (proj2 (lookup_changes_attribution_only unit silent_host true 22 "tcp"
                  (mkConn "tcp" "*" "22" "*" "*" "LISTEN" 0 "" "") tt) H).
Defined.

(** ** Attribute names *)

Lemma connection_block_names (i : nat) (c : ConnectionInfo) :
  map name (connection_block i c)
  = map (fun f => (connection_prefix i ++ f)%string) (connection_fields c).
Proof.
  unfold connection_block, connection_fields, connection_prefix.
  destruct (0 <? pid c); destruct (empty (processName c));
    destruct (empty (user c)); reflexivity.
Qed.

Lemma connection_fields_known (c : ConnectionInfo) :
  NoDup (connection_fields c) /\ incl (connection_fields c) all_connection_fields.
Proof.
  unfold connection_fields, all_connection_fields.
  destruct (0 <? pid c); destruct (empty (processName c));
    destruct (empty (user c)); cbn [app]; split;
    try (repeat constructor; cbn [In]; intuition discriminate);
    intros f Hf; cbn [In] in *; intuition.
Qed.

Lemma digits_then_underscore_inj (d1 : string) :
  forall d2 f g : string,
    all_digits d1 = true -> all_digits d2 = true ->
    (d1 ++ String "_" f = d2 ++ String "_" g)%string ->
    d1 = d2 /\ f = g.
Proof.
  induction d1 as [|a r IH]; intros d2 f g H1 H2 E.
  - destruct d2 as [|b t]; cbn [append] in E.
    + injection E as <-. auto.
    + injection E as <- _. cbn [all_digits] in H2. discriminate H2.
  - destruct d2 as [|b t]; cbn [append] in E.
    + injection E as -> _. cbn [all_digits] in H1. discriminate H1.
    + injection E as <- E. cbn [all_digits] in H1, H2.
      apply andb_prop in H1 as [_ H1]. apply andb_prop in H2 as [_ H2].
      destruct (IH t f g H1 H2 E) as [-> ->]. auto.
Qed.

Lemma connection_name_split (i : nat) (f : string) :
  (connection_prefix i ++ f
   = "connection_" ++ (dec (Z.of_nat i) ++ String "_" f))%string.
Proof.
  unfold connection_prefix. rewrite !append_assoc. reflexivity.
Qed.

Lemma connection_name_inj (i j : nat) (f g : string) :
  (connection_prefix i ++ f = connection_prefix j ++ g)%string ->
  i = j /\ f = g.
Proof.
  rewrite !connection_name_split. intros E. cbn [append] in E.
  injection E as E.
  destruct (dec_nonneg_numeral (Z.of_nat i) ltac:(lia)) as [[_ Hi] _].
  destruct (dec_nonneg_numeral (Z.of_nat j) ltac:(lia)) as [[_ Hj] _].
  destruct (digits_then_underscore_inj _ _ _ _ Hi Hj E) as [Ed ->].
  apply dec_inj in Ed. split; [lia | reflexivity].
Qed.

Lemma connection_name_head (i : nat) (f : string) :
  exists r, (connection_prefix i ++ f)%string = String "c" r.
Proof. rewrite connection_name_split. cbn [append]. eauto. Qed.

Lemma connection_blocks_names_in (cs : list ConnectionInfo) :
  forall (k : nat) (n : string),
    In n (map name (connection_blocks k cs)) ->
    exists i f, (k <= i)%nat /\ n = (connection_prefix i ++ f)%string.
Proof.
  induction cs as [|c rest IH]; intros k n H; [destruct H|].
  cbn [connection_blocks] in H. rewrite map_app, connection_block_names in H.
  apply in_app_or in H as [H | H].
  - apply in_map_iff in H as (f & <- & _). exists k, f. split; [lia | reflexivity].
  - destruct (IH (S k) n H) as (i & f & Hi & ->). exists i, f.
    split; [lia | reflexivity].
Qed.

Lemma connection_blocks_names_nodup (cs : list ConnectionInfo) :
  forall k : nat, NoDup (map name (connection_blocks k cs)).
Proof.
  induction cs as [|c rest IH]; intros k; [constructor|].
  cbn [connection_blocks]. rewrite map_app, connection_block_names.
  apply NoDup_app.
  - apply NoDup_map_NoDup_ForallPairs.
    + intros f g _ _ E. now apply connection_name_inj in E.
    + apply connection_fields_known.
  - apply IH.
  - intros n H1 H2. apply in_map_iff in H1 as (f & <- & _).
    apply connection_blocks_names_in in H2 as (i & g & Hi & E).
    apply connection_name_inj in E as [-> _]. lia.
Qed.

(** X8. No two attributes of a Result of the port collector have the same
    name, whatever the hosts answers: the names [port], [num_connections]
    (or [status]) and [connection_<index>_<field>] are all different. *)
Theorem port_attribute_names_distinct :
  forall (W : Type) (popen_read : string -> M W (option (string * Z)))
         (AIX : bool) (m_protocol : Protocol) (ident : string) (w : W),
    NoDup (map name
             (attributes (run (collect W popen_read AIX m_protocol ident) w))).
Proof.
  intros W popen_read AIX m_protocol ident w.
  rewrite PortTheorems.collect_unfold.
  destruct (parsePort ident) as [port|]; [|constructor].
  destruct (run (gatherConnections W popen_read AIX m_protocol port) w)
    as [|c cs] eqn:E.
  - cbn. repeat constructor; cbn [In]; intuition discriminate.
  - rewrite assemble_nonempty by discriminate.
    cbn [attributes app map name attr1].
    assert (Hout : forall n, In n (map name (connection_blocks 0 (c :: cs))) ->
                             exists r, n = String "c" r).
    { intros n Hn. apply connection_blocks_names_in in Hn as (i & f & _ & ->).
      apply connection_name_head. }
    constructor; [|constructor].
    + intros [H | H]; [discriminate H|].
      destruct (Hout _ H) as [r Hr]. discriminate Hr.
    + intros H. destruct (Hout _ H) as [r Hr]. discriminate Hr.
    + apply connection_blocks_names_nodup.
Qed.

(** ** The command lines handed to the shell *)

Section Recording.

Variable W : Type.
Variable popen_read : string -> M W (option (string * Z)).
Variable AIX : bool.

Local Abbreviation W1 := (W * list string)%type.
Local Abbreviation popen1 := (recording popen_read).

Lemma records_ret (A : Type) (ok : string -> Prop) (a : A) :
  records ok (ret a : M W A) (ret a).
Proof.
  intros w log. exists []. unfold ret. cbn [fst snd].
  rewrite app_nil_r. split; [reflexivity | constructor].
Qed.

Lemma records_bind (A B : Type) (ok : string -> Prop)
    (m : M W A) (m1 : M W1 A) (k : A -> M W B) (k1 : A -> M W1 B) :
  records ok m m1 ->
  (forall a, records ok (k a) (k1 a)) ->
  records ok (bind m k) (bind m1 k1).
Proof.
  intros Hm Hk w log. unfold bind.
  destruct (Hm w log) as (e1 & E1 & F1). rewrite E1.
  destruct (m w) as [a w1]. cbn [fst snd].
  destruct (Hk a w1 (log ++ e1)) as (e2 & E2 & F2). rewrite E2.
  exists (e1 ++ e2). rewrite app_assoc. split; [reflexivity|].
  apply Forall_app. now split.
Qed.

Lemma records_weaken (A : Type) (ok ok' : string -> Prop)
    (m : M W A) (m1 : M W1 A) :
  (forall c, ok c -> ok' c) -> records ok m m1 -> records ok' m m1.
Proof.
  intros H Hm w log. destruct (Hm w log) as (e & E & F).
  exists e. split; [exact E|]. eapply Forall_impl; [|exact F]. exact H.
Qed.

Lemma records_popen (ok : string -> Prop) (cmd : string) :
  ok cmd -> records ok (popen_read cmd) (popen1 cmd).
Proof.
  intros H w log. exists [cmd]. unfold recording. cbn [fst snd].
  destruct (popen_read cmd w) as [r w1]. cbn [fst snd].
  split; [reflexivity | now constructor].
Qed.

Lemma records_executeCommand (ok : string -> Prop) (cmd output : string) :
  ok cmd ->
  records ok (executeCommand W popen_read cmd output)
             (executeCommand W1 popen1 cmd output).
Proof.
  intros H. unfold executeCommand.
  apply records_bind; [now apply records_popen|].
  intros [[text status]|]; apply records_ret.
Qed.

Lemma records_findProcessForPort (port : Z) (proto : string)
    (info : ConnectionInfo) :
  records (eq (lsof_command AIX port proto))
    (findProcessForPort W popen_read AIX port proto info)
    (findProcessForPort W1 popen1 AIX port proto info).
Proof.
  unfold findProcessForPort, lsof_command. destruct AIX.
  - apply records_bind; [now apply records_executeCommand|].
    intros [ok output]. destruct (negb ok || empty output); apply records_ret.
  - apply records_bind; [now apply records_executeCommand|].
    intros [ok output]. destruct (ok && negb (empty output));
      [|apply records_ret].
    destruct (Nat.leb 3 (length (tokenize output))); apply records_ret.
Qed.

Lemma records_parseNetstatLines (lines : list string) (port : Z)
    (proto : string) :
  forall connections : list ConnectionInfo,
    records (eq (lsof_command AIX port proto))
      (parseNetstatLines W popen_read AIX lines port proto connections)
      (parseNetstatLines W1 popen1 AIX lines port proto connections).
Proof.
  induction lines as [|l rest IH]; intros connections;
    cbn [parseNetstatLines]; [apply records_ret|].
  destruct (parseNetstatLine l port proto) as [[sa info]|]; [|apply IH].
  apply records_bind; [|intros info1; apply IH].
  destruct (negb (empty sa));
    [apply records_findProcessForPort | apply records_ret].
Qed.

Lemma records_collectConnections (transport : string) (port : Z)
    (connections : list ConnectionInfo) :
  records (fun c => In c (transport_commands AIX port transport))
    (collectConnections W popen_read AIX transport port connections)
    (collectConnections W1 popen1 AIX transport port connections).
Proof.
  unfold collectConnections, parseNetstatOutput, transport_commands.
  apply records_bind;
    [apply records_executeCommand; cbn [In]; auto|].
  intros [ok output].
  apply records_bind.
  { destruct (negb ok);
      [apply records_executeCommand; cbn [In]; auto | apply records_ret]. }
  intros [ok1 output1]. destruct (negb ok1); [apply records_ret|].
  apply records_bind.
  { eapply records_weaken; [|apply records_parseNetstatLines].
    intros c <-. cbn [In]. auto 6. }
  intros connections1.
  apply records_bind;
    [apply records_executeCommand; cbn [In]; auto|].
  intros [ok2 output2].
  apply records_bind; [|intros connections2; apply records_ret].
  destruct ok2; [|apply records_ret].
  eapply records_weaken; [|apply records_parseNetstatLines].
  intros c <-. cbn [In]. auto 7.
Qed.

Lemma records_gatherConnections (m_protocol : Protocol) (port : Z) :
  records (fun c => In c (commands_for AIX m_protocol port))
    (gatherConnections W popen_read AIX m_protocol port)
    (gatherConnections W1 popen1 AIX m_protocol port).
Proof.
  unfold gatherConnections, collectTcpConnections, collectUdpConnections.
  destruct m_protocol; cbn [commands_for].
  - apply records_bind.
    + apply records_bind; [apply records_collectConnections|].
      intros [b cs]. apply records_ret.
    + intros cs. apply records_bind; [apply records_ret|].
      intros cs1. apply records_ret.
  - apply records_bind; [apply records_ret|].
    intros cs. apply records_bind.
    + apply records_bind; [apply records_collectConnections|].
      intros [b cs1]. apply records_ret.
    + intros cs1. apply records_ret.
  - apply records_bind.
    + apply records_bind.
      * eapply records_weaken; [|apply records_collectConnections].
        intros c H. apply in_or_app. now left.
      * intros [b cs]. apply records_ret.
    + intros cs. apply records_bind.
      * apply records_bind.
        -- eapply records_weaken; [|apply records_collectConnections].
           intros c H. apply in_or_app. now right.
        -- intros [b cs1]. apply records_ret.
      * intros cs1. apply records_ret.
Qed.

(** X9. The command lines the port collector hands to the shell.  Run
    in a world that records them, [collect] returns the same Result and
    leaves the same world, and the record holds nothing for an identifier
    that is not a valid port; for a valid one it holds only the fixed
    netstat commands of the transports asked for and the lsof command
    built from the decimal text of the parsed port number.  The text of
    the identifier itself is never part of a command. *)
Theorem shell_commands_are_fixed :
  forall (m_protocol : Protocol) (ident : string) (w : W),
  exists log : list string,
    collect W1 popen1 AIX m_protocol ident (w, [])
    = (fst (collect W popen_read AIX m_protocol ident w),
       (snd (collect W popen_read AIX m_protocol ident w), log))
    /\ match parsePort ident with
       | None => log = []
       | Some port =>
           1 <= port <= 65535
           /\ Forall (fun c => In c (commands_for AIX m_protocol port)) log
       end.
Proof.
  intros m_protocol ident w. unfold collect.
  destruct (parsePort ident) as [port|] eqn:Hp.
  - assert (R : records (fun c => In c (commands_for AIX m_protocol port))
                  (connections <-
                     gatherConnections W popen_read AIX m_protocol port ;;
                   ret (assemble
                          (set_identifier (set_type newResult "port") ident)
                          ident connections))
                  (connections <-
                     gatherConnections W1 popen1 AIX m_protocol port ;;
                   ret (assemble
                          (set_identifier (set_type newResult "port") ident)
                          ident connections))).
    { apply records_bind; [apply records_gatherConnections|].
      intros cs. apply records_ret. }
    destruct (R w []) as (added & E & F).
    exists added. split; [exact E|]. split; [|exact F].
    apply parsePort_sound in Hp. apply Hp.
  - exists []. split; reflexivity.
Qed.

End Recording.

End PortProperties.

(* ================================================================== *)
(** * The file collector: further properties *)
(* ================================================================== *)

Module FileProperties.
Import CLib Types Effects FileCollector Spec Samples MoreSamples FileSchema.
Import CLibFacts FileFacts.
Local Open Scope list_scope.

(** ** Appending attributes *)

Lemma extends_refl (r : MetadataResult) : extends [] r r.
Proof. unfold extends. rewrite app_nil_r. now destruct r. Qed.

Lemma extends_trans (t1 t2 : list MetadataAttribute) (a b c : MetadataResult) :
  extends t1 a b -> extends t2 b c -> extends (t1 ++ t2) a c.
Proof.
  unfold extends. intros -> ->. cbn [type identifier attributes success errorMessage].
  now rewrite app_assoc.
Qed.

Lemma extends_add (r : MetadataResult) (n v : string) :
  extends [attr1 n v] r (addAttribute r n v).
Proof. reflexivity. Qed.

Lemma extends_flag (r : MetadataResult) (b : bool) (n : string) :
  extends (flag_attribute b n) r (if b then addAttribute r n "true" else r).
Proof. destruct b; [apply extends_add | apply extends_refl]. Qed.

Lemma extends_eq (t t' : list MetadataAttribute) (r r' : MetadataResult) :
  extends t r r' -> t = t' -> extends t' r r'.
Proof. now intros H <-. Qed.

Lemma extends_set_success (t : list MetadataAttribute) (r r' : MetadataResult)
    (b : bool) :
  extends t r r' -> extends t (set_success r b) (set_success r' b).
Proof. unfold extends. now intros ->. Qed.

Ltac peel_open :=
  lazymatch goal with
  | |- extends _ _ (addAttribute ?x _ _) =>
      eapply extends_trans; [ | apply extends_add]; peel_open
  | |- extends _ _ (addAttributeInt ?x _ _) =>
      eapply extends_trans; [ | apply extends_add]; peel_open
  | |- extends _ _ (if ?b then addAttribute ?x _ _ else ?x) =>
      eapply extends_trans; [ | apply extends_flag]; peel_open
  | |- extends _ _ _ => idtac
  end.

Ltac peel := peel_open; apply extends_refl.

Section WithOS.

Variable W : Type.
Variable os : OS W.

Lemma collectSymlinkInfo_extends (path : string) (r : MetadataResult) (w : W) :
  exists len buf,
    extends (link_attributes false len buf) r
            (fst (collectSymlinkInfo W os path r w)).
Proof.
  unfold collectSymlinkInfo, bind, ret.
  destruct (readlink os path w) as [[len buf] w1].
  exists len, buf. unfold link_attributes, flag_attribute. cbn [app].
  destruct (len >? 0); cbn [fst].
  - destruct (c_str (substr_to buf (Z.to_nat len))) as [|c t] eqn:E.
    + cbn [fst]. eapply extends_eq; [peel | reflexivity].
    + destruct c as [[] [] [] [] [] [] [] []]; cbn [fst];
        (eapply extends_eq; [peel | reflexivity]).
  - eapply extends_eq; [peel | reflexivity].
Qed.

Lemma collectOwnership_extends (st : stat64_t) (r : MetadataResult) (w : W) :
  exists owner group,
    extends [ attr1 "uid" (dec (st_uid st)); attr1 "owner" owner;
              attr1 "gid" (dec (st_gid st)); attr1 "group" group ]
            r (fst (collectOwnership W os st r w)).
Proof.
  unfold collectOwnership, bind, ret.
  destruct (getpwuid os (st_uid st) w) as [pwd w1].
  destruct (getgrgid os (st_gid st) w1) as [grp w2].
  destruct pwd as [pw_name|]; destruct grp as [gr_name|]; cbn [fst];
    do 2 eexists; (eapply extends_eq; [peel | reflexivity]).
Qed.

Lemma collectAccessInfo_extends (path : string) (r : MetadataResult) (w : W) :
  exists fr fw fx,
    extends (access_attributes fr fw fx) r
            (fst (collectAccessInfo W os path r w)).
Proof.
  unfold collectAccessInfo, bind, ret.
  destruct (access os path R_OK w) as [a1 w1].
  destruct (access os path W_OK w1) as [a2 w2].
  destruct (access os path X_OK w2) as [a3 w3].
  exists a1, a2, a3. cbn [fst]. eapply extends_eq; [peel | reflexivity].
Qed.

Lemma emitStats_extends (lst st : stat64_t) (r : MetadataResult) (w : W) :
  exists owner group atime mtime ctime,
    extends (stat_attributes lst st owner group atime mtime ctime
               (major os (st_rdev st)) (minor os (st_rdev st)))
            r (fst (emitStats W os lst st r w)).
Proof.
  unfold emitStats, bind, ret.
  match goal with
  | |- context [collectOwnership W os st ?R ?w0] =>
      destruct (collectOwnership_extends st R w0) as (owner & group & Ho);
      destruct (collectOwnership W os st R w0) as [r1 w1]
  end.
  cbn [fst] in Ho.
  destruct (timeToString W os (st_atime st) w1) as [ta w2].
  destruct (timeToString W os (st_mtime st) w2) as [tm w3].
  destruct (timeToString W os (st_ctime st) w3) as [tc w4].
  exists owner, group, ta, tm, tc. cbn [fst].
  unfold stat_attributes.
  destruct (S_ISBLK (st_mode st) || S_ISCHR (st_mode st));
    (eapply extends_eq;
     [ peel_open; eapply extends_trans; [ | exact Ho]; peel
     | unfold flag_attribute;
       destruct (has (st_mode st) S_ISUID); destruct (has (st_mode st) S_ISGID);
       destruct (has (st_mode st) S_ISVTX); reflexivity ]).
Qed.

(** What [collect] returns once [lstat64] has succeeded. *)
Lemma collect_schema (path : string) (w w1 : W) (lst : stat64_t) :
  path <> EmptyString ->
  lstat64 os path w = (inr lst, w1) ->
  exists link owner group atime mtime ctime fr fw fx,
    run (collect W os path) w
    = mkResult "file" path
        (link
         ++ stat_attributes lst (stat_source lst (fst (stat64 os path w1)))
              owner group atime mtime ctime
              (major os (st_rdev (stat_source lst (fst (stat64 os path w1)))))
              (minor os (st_rdev (stat_source lst (fst (stat64 os path w1)))))
         ++ access_attributes fr fw fx)
        true ""
    /\ (if S_ISLNK (st_mode lst)
        then exists len buf,
               link = link_attributes (failed (fst (stat64 os path w1))) len buf
        else link = []).
Proof.
  intros Hp Hl. unfold collect, run, collectStats, bind.
  destruct path as [|a path]; [congruence|].
  change (empty (String a path)) with false. cbv beta iota.
  rewrite Hl. unfold stat_source.
  change (set_identifier (set_type newResult "file") (String a path))
    with (mkResult "file" (String a path) [] false "").
  set (r0 := mkResult "file" (String a path) [] false "").
  destruct (S_ISLNK (st_mode lst)).
  - destruct (stat64 os (String a path) w1) as [target w2]. cbn [fst].
    set (st := match target with inr b => b | inl _ => lst end).
    set (r1 := if failed target
               then addAttribute r0 "symlink_broken" "true" else r0).
    assert (E : (match target with
                 | inl _ => (lst, addAttribute r0 "symlink_broken" "true")
                 | inr b => (b, r0)
                 end) = (st, r1)) by (subst st r1; now destruct target).
    rewrite E. clear E.
    destruct (collectSymlinkInfo_extends (String a path) r1 w2)
      as (len & buf & Hs).
    destruct (collectSymlinkInfo W os (String a path) r1 w2) as [r2 w3].
    cbn [fst] in Hs. unfold ret at 1. unfold ret at 1.
    destruct (emitStats_extends lst st r2 w3)
      as (owner & group & ta & tm & tc & He).
    destruct (emitStats W os lst st r2 w3) as [r3 w4]. cbn [fst] in He.
    unfold ret at 1. cbn [negb].
    destruct (collectAccessInfo_extends (String a path) (set_success r3 true) w4)
      as (fr & fw & fx & Ha).
    destruct (collectAccessInfo W os (String a path) (set_success r3 true) w4)
      as [r4 w5]. cbn [fst] in *.
    exists (link_attributes (failed target) len buf),
      owner, group, ta, tm, tc, fr, fw, fx.
    split; [|now exists len, buf].
    assert (H1 : extends (flag_attribute (failed target) "symlink_broken") r0 r1)
      by (subst r1; apply extends_flag).
    pose proof (extends_trans _ _ _ _ _ H1 Hs) as H2.
    pose proof (extends_trans _ _ _ _ _ H2 He) as H3.
    apply (extends_set_success _ _ _ true) in H3.
    pose proof (extends_trans _ _ _ _ _ H3 Ha) as H4.
    unfold extends in H4. rewrite H4. subst r0.
    cbn [set_success type identifier attributes success errorMessage].
    f_equal. rewrite app_nil_l.
    change (flag_attribute (failed target) "symlink_broken"
            ++ link_attributes false len buf)
      with (link_attributes (failed target) len buf).
    now rewrite <- app_assoc.
  - unfold ret at 1.
    destruct (emitStats_extends lst lst r0 w1)
      as (owner & group & ta & tm & tc & He).
    destruct (emitStats W os lst lst r0 w1) as [r3 w4]. cbn [fst] in He.
    unfold ret at 1. cbn [negb].
    destruct (collectAccessInfo_extends (String a path) (set_success r3 true) w4)
      as (fr & fw & fx & Ha).
    destruct (collectAccessInfo W os (String a path) (set_success r3 true) w4)
      as [r4 w5]. cbn [fst] in *.
    exists [], owner, group, ta, tm, tc, fr, fw, fx.
    split; [|reflexivity].
    apply (extends_set_success _ _ _ true) in He.
    pose proof (extends_trans _ _ _ _ _ He Ha) as H4.
    unfold extends in H4. rewrite H4. subst r0.
    cbn [set_success type identifier attributes success errorMessage].
    reflexivity.
Qed.

End WithOS.

(** ** Names *)

Lemma distinct_NoDup (l : list string) : distinct l = true -> NoDup l.
Proof.
  induction l as [|x r IH]; intros H; [constructor|].
  cbn [distinct] in H. apply andb_prop in H as [Hx Hr].
  constructor; [|auto]. intros Hin.
  assert (E : existsb (String.eqb x) r = true).
  { apply existsb_exists. exists x. split; [exact Hin | apply String.eqb_refl]. }
  rewrite E in Hx. discriminate Hx.
Qed.

Lemma In_existsb (x : string) (l : list string) :
  In x l <-> existsb (String.eqb x) l = true.
Proof.
  rewrite existsb_exists. split.
  - intros H. exists x. split; [exact H | apply String.eqb_refl].
  - intros (y & Hy & E). apply String.eqb_eq in E. now subst y.
Qed.

Lemma file_attribute_names_distinct
    (link broken readable suid sgid sticky device : bool) :
  distinct (file_attribute_names link broken readable suid sgid sticky device)
  = true.
Proof.
  destruct link, broken, readable, suid, sgid, sticky, device;
    vm_compute; reflexivity.
Qed.

Lemma schema_names (link_is broken : bool) (len : Z) (buf : string)
    (lst st : stat64_t) (owner group ta tm tc : string) (rmajor rminor : Z)
    (fr fw fx : Z) (link : list MetadataAttribute) :
  (if link_is then link = link_attributes broken len buf else link = []) ->
  map name (link ++ stat_attributes lst st owner group ta tm tc rmajor rminor
            ++ access_attributes fr fw fx)
  = file_attribute_names link_is broken (len >? 0)
      (has (st_mode st) S_ISUID) (has (st_mode st) S_ISGID)
      (has (st_mode st) S_ISVTX) (is_device (st_mode st)).
Proof.
  intros Hl. unfold stat_attributes, access_attributes, file_attribute_names,
    is_device, flag_attribute.
  destruct link_is; subst link; unfold link_attributes, flag_attribute;
    destruct (has (st_mode st) S_ISUID); destruct (has (st_mode st) S_ISGID);
    destruct (has (st_mode st) S_ISVTX);
    destruct (S_ISBLK (st_mode st) || S_ISCHR (st_mode st));
    try (destruct broken; destruct (len >? 0)); reflexivity.
Qed.

(** X10. The file collector succeeds exactly when the path is not empty
    and [lstat64] succeeds on it; a Result that is not successful has no
    attribute and a message that is not empty; a successful one has no
    message. *)
Theorem file_collect_succeeds_iff :
  forall (W : Type) (os : OS W) (path : string) (w : W),
    (success (run (collect W os path) w) = true
     <-> path <> EmptyString /\ failed (fst (lstat64 os path w)) = false)
    /\ (success (run (collect W os path) w) = false
        <-> attributes (run (collect W os path) w) = []
            /\ errorMessage (run (collect W os path) w) <> EmptyString)
    /\ (success (run (collect W os path) w) = true
        <-> errorMessage (run (collect W os path) w) = EmptyString).
Proof.
  intros W os path w.
  destruct path as [|a path].
  - change (run (collect W os "") w) with (createErrorResult "" "Empty file path").
    cbn. repeat split; try congruence; try discriminate; intuition congruence.
  - destruct (lstat64 os (String a path) w) as [[err|lst] w1] eqn:El.
    + rewrite (FileTheorems.collect_stat_failure_keeps_type W os _ w w1 err)
        by (discriminate || exact El).
      cbn. repeat split; try congruence; try discriminate;
        intuition congruence.
    + destruct (collect_schema W os (String a path) w w1 lst
                  ltac:(discriminate) El)
        as (link & owner & group & ta & tm & tc & fr & fw & fx & E & _).
      rewrite E. cbn [success attributes errorMessage fst failed].
      split; [|split].
      * split; [intros _; split; [discriminate | reflexivity] | reflexivity].
      * split; [discriminate | intros [_ H]; now contradiction H].
      * split; reflexivity.
Qed.

(** The names of the attributes of a successful Result. *)
Lemma collect_names (W : Type) (os : OS W) (path : string) (w w1 : W)
    (lst : stat64_t) :
  path <> EmptyString ->
  lstat64 os path w = (inr lst, w1) ->
  exists len : Z,
    map name (attributes (run (collect W os path) w))
    = file_attribute_names (S_ISLNK (st_mode lst))
        (failed (fst (stat64 os path w1))) (len >? 0)
        (has (st_mode (stat_source lst (fst (stat64 os path w1)))) S_ISUID)
        (has (st_mode (stat_source lst (fst (stat64 os path w1)))) S_ISGID)
        (has (st_mode (stat_source lst (fst (stat64 os path w1)))) S_ISVTX)
        (is_device (st_mode (stat_source lst (fst (stat64 os path w1))))).
Proof.
  intros Hp Hl.
  destruct (collect_schema W os path w w1 lst Hp Hl)
    as (link & owner & group & ta & tm & tc & fr & fw & fx & E & Hlink).
  rewrite E. cbn [attributes].
  destruct (S_ISLNK (st_mode lst)).
  - destruct Hlink as (len & buf & Hlink). exists len.
    now apply (schema_names true _ len buf).
  - exists 0. now apply (schema_names false false 0 "").
Qed.

(** X11. No two attributes of a Result of the file collector have the same
    name, whatever the operating system answers. *)
Theorem file_attribute_names_are_distinct :
  forall (W : Type) (os : OS W) (path : string) (w : W),
    NoDup (map name (attributes (run (collect W os path) w))).
Proof.
  intros W os path w.
  destruct path as [|a path]; [constructor|].
  destruct (lstat64 os (String a path) w) as [[err|lst] w1] eqn:El.
  - rewrite (FileTheorems.collect_stat_failure_keeps_type W os _ w w1 err)
      by (discriminate || exact El).
    constructor.
  - destruct (collect_names W os (String a path) w w1 lst
                ltac:(discriminate) El) as (len & ->).
    apply distinct_NoDup, file_attribute_names_distinct.
Qed.

(** ** Optional attributes *)

Lemma file_attribute_names_membership
    (link broken readable suid sgid sticky device : bool) :
  let names :=
    file_attribute_names link broken readable suid sgid sticky device in
  existsb (String.eqb "setuid") names = suid
  /\ existsb (String.eqb "setgid") names = sgid
  /\ existsb (String.eqb "sticky") names = sticky
  /\ existsb (String.eqb "rdev_major") names = device
  /\ existsb (String.eqb "rdev_minor") names = device
  /\ existsb (String.eqb "is_symlink") names = link
  /\ existsb (String.eqb "symlink_broken") names = link && broken
  /\ existsb (String.eqb "symlink_type") names = link && readable.
Proof.
  destruct link, broken, readable, suid, sgid, sticky, device;
    vm_compute; repeat split.
Qed.

Lemma symlink_type (mode : Z) :
  S_ISLNK mode = true -> fileTypeToString mode = "symlink".
Proof.
  unfold fileTypeToString, S_ISREG, S_ISDIR, S_ISLNK, is_type. intros H.
  apply Z.eqb_eq in H. rewrite H. reflexivity.
Qed.

Lemma in_stat_head (a : MetadataAttribute) (lst st : stat64_t)
    (owner group ta tm tc : string) (rmajor rminor : Z)
    (pre post : list MetadataAttribute) :
  In a [ attr1 "type" (fileTypeToString (st_mode lst));
         attr1 "size" (dec (to_uint64 (st_size st)));
         attr1 "mode_symbolic" (modeToSymbolic (st_mode st)) ] ->
  In a (pre ++ stat_attributes lst st owner group ta tm tc rmajor rminor ++ post).
Proof.
  intros H. apply in_or_app. right. apply in_or_app. left.
  unfold stat_attributes. apply in_or_app. left.
  cbn [In] in *. intuition.
Qed.

(** X12. The optional attributes of a successful file Result appear
    exactly when what they tell holds: [setuid], [setgid], [sticky] when the
    bit is set in the mode the statistics come from, [rdev_major] and
    [rdev_minor] when that mode is a block or character device,
    [is_symlink] when the path itself is a symbolic link, and
    [symlink_broken] when it is one whose target [stat64] cannot examine. *)
Theorem optional_file_attributes :
  forall (W : Type) (os : OS W) (path : string) (w w1 : W) (lst : stat64_t),
    path <> EmptyString ->
    lstat64 os path w = (inr lst, w1) ->
    (In "setuid" (map name (attributes (run (collect W os path) w)))
     <-> has (st_mode (stat_source lst (fst (stat64 os path w1)))) S_ISUID = true)
    /\ (In "setgid" (map name (attributes (run (collect W os path) w)))
        <-> has (st_mode (stat_source lst (fst (stat64 os path w1)))) S_ISGID
            = true)
    /\ (In "sticky" (map name (attributes (run (collect W os path) w)))
        <-> has (st_mode (stat_source lst (fst (stat64 os path w1)))) S_ISVTX
            = true)
    /\ (In "rdev_major" (map name (attributes (run (collect W os path) w)))
        <-> is_device (st_mode (stat_source lst (fst (stat64 os path w1))))
            = true)
    /\ (In "rdev_minor" (map name (attributes (run (collect W os path) w)))
        <-> is_device (st_mode (stat_source lst (fst (stat64 os path w1))))
            = true)
    /\ (In "is_symlink" (map name (attributes (run (collect W os path) w)))
        <-> S_ISLNK (st_mode lst) = true)
    /\ (In "symlink_broken" (map name (attributes (run (collect W os path) w)))
        <-> S_ISLNK (st_mode lst) = true
            /\ failed (fst (stat64 os path w1)) = true).
Proof.
  intros W os path w w1 lst Hp Hl.
  destruct (collect_names W os path w w1 lst Hp Hl) as (len & ->).
  rewrite !In_existsb.
  match goal with
  | |- context [file_attribute_names ?l ?b ?r ?u ?g ?s ?d] =>
      destruct (file_attribute_names_membership l b r u g s d)
        as (-> & -> & -> & -> & -> & -> & -> & _)
  end.
  rewrite andb_true_iff. tauto.
Qed.

Lemma optional_file_attributes_witness :
  "/etc/passwd" <> EmptyString
  /\ lstat64 passwd_os "/etc/passwd" tt = (inr passwd_stat, tt)
  /\ (In "setuid"
         (map name (attributes (run (collect unit passwd_os "/etc/passwd") tt)))
      <-> has (st_mode (stat_source passwd_stat
                          (fst (stat64 passwd_os "/etc/passwd" tt)))) S_ISUID
          = true).
Proof.
  assert (Hp : "/etc/passwd" <> EmptyString) by discriminate.
  split; [exact Hp|]. split; [reflexivity|].
  exact (proj1 (optional_file_attributes unit passwd_os "/etc/passwd" tt tt
                  passwd_stat Hp eq_refl)).
Defined.

(** X13. For a path that is a symbolic link the Result is successful,
    its [type] is "symlink" and it says [is_symlink]. If the target cannot
    be examined, the first attribute is [symlink_broken = true] and size and
    mode are those of the link itself; if it can, there is no
    [symlink_broken] and size and mode are those of the target. *)
Theorem symlink_results :
  forall (W : Type) (os : OS W) (path : string) (w w1 : W) (lst : stat64_t),
    path <> EmptyString ->
    lstat64 os path w = (inr lst, w1) ->
    S_ISLNK (st_mode lst) = true ->
    success (run (collect W os path) w) = true
    /\ In (attr1 "type" "symlink") (attributes (run (collect W os path) w))
    /\ In (attr1 "is_symlink" "true") (attributes (run (collect W os path) w))
    /\ match fst (stat64 os path w1) with
       | inl _ =>
           hd_error (attributes (run (collect W os path) w))
           = Some (attr1 "symlink_broken" "true")
           /\ In (attr1 "size" (dec (to_uint64 (st_size lst))))
                 (attributes (run (collect W os path) w))
           /\ In (attr1 "mode_symbolic" (modeToSymbolic (st_mode lst)))
                 (attributes (run (collect W os path) w))
       | inr target =>
           ~ In "symlink_broken"
                (map name (attributes (run (collect W os path) w)))
           /\ In (attr1 "size" (dec (to_uint64 (st_size target))))
                 (attributes (run (collect W os path) w))
           /\ In (attr1 "mode_symbolic" (modeToSymbolic (st_mode target)))
                 (attributes (run (collect W os path) w))
       end.
Proof.
  intros W os path w w1 lst Hp Hl Hlnk.
  assert (Hb : In "symlink_broken"
                 (map name (attributes (run (collect W os path) w)))
               -> failed (fst (stat64 os path w1)) = true).
  { destruct (collect_names W os path w w1 lst Hp Hl) as (len & ->).
    rewrite In_existsb.
    match goal with
    | |- context [file_attribute_names ?l ?b ?r ?u ?g ?s ?d] =>
        destruct (file_attribute_names_membership l b r u g s d)
          as (_ & _ & _ & _ & _ & _ & -> & _)
    end.
    intros H. now apply andb_prop in H. }
  destruct (collect_schema W os path w w1 lst Hp Hl)
    as (link & owner & group & ta & tm & tc & fr & fw & fx & E & Hlink).
  rewrite E in *. cbn [attributes success] in *. clear E.
  rewrite Hlnk in Hlink. destruct Hlink as (len & buf & ->).
  unfold stat_source in *. rewrite Hlnk in *.
  split; [reflexivity|]. split; [|split].
  - apply in_stat_head. rewrite (symlink_type _ Hlnk). cbn [In]. auto.
  - apply in_or_app. left. unfold link_attributes.
    apply in_or_app. right. left. reflexivity.
  - destruct (fst (stat64 os path w1)) as [err|target]; cbn [failed] in *.
    + split; [reflexivity|].
      split; apply in_stat_head; cbn [In]; auto.
    + split; [intros H; apply Hb in H; discriminate H|].
      split; apply in_stat_head; cbn [In]; auto.
Qed.

Lemma symlink_results_witness :
  "/tmp/gone" <> EmptyString
  /\ lstat64 dangling_os "/tmp/gone" tt = (inr dangling_stat, tt)
  /\ S_ISLNK (st_mode dangling_stat) = true
  /\ In (attr1 "type" "symlink")
        (attributes (run (collect unit dangling_os "/tmp/gone") tt))
  /\ hd_error (attributes (run (collect unit dangling_os "/tmp/gone") tt))
     = Some (attr1 "symlink_broken" "true").
Proof.
  assert (Hp : "/tmp/gone" <> EmptyString) by discriminate.
  split; [exact Hp|]. split; [reflexivity|]. split; [reflexivity|].
  destruct (symlink_results unit dangling_os "/tmp/gone" tt tt dangling_stat
              Hp eq_refl eq_refl) as (_ & Ht & _ & Hb).
  split; [exact Ht | exact (proj1 Hb)].
Defined.

(** ** The symbolic mode determines the permission bits *)

Lemma modeToSymbolic_permission_part (mode : Z) :
  modeToSymbolic mode = modeToSymbolic (Z.land mode 0xFFF).
Proof.
  unfold modeToSymbolic.
  rewrite (has_permission_part mode S_IRUSR), (has_permission_part mode S_IWUSR),
    (has_permission_part mode S_IXUSR), (has_permission_part mode S_IRGRP),
    (has_permission_part mode S_IWGRP), (has_permission_part mode S_IXGRP),
    (has_permission_part mode S_IROTH), (has_permission_part mode S_IWOTH),
    (has_permission_part mode S_IXOTH), (has_permission_part mode S_ISUID),
    (has_permission_part mode S_ISGID), (has_permission_part mode S_ISVTX)
    by reflexivity.
  reflexivity.
Qed.

Ltac bit_from_cell :=
  match goal with
  | H : _ = _ :> ascii |- ?x = ?y =>
      match type of H with context [x] => idtac end;
      repeat match type of H with
             | context [if ?b then _ else _] => is_var b; destruct b
             end;
      first [discriminate H | reflexivity]
  end.

Lemma symbolic_bits (m1 m2 : Z) :
  symbolic m1 = symbolic m2 ->
  forall k, 0 <= k < 12 -> Z.testbit m1 k = Z.testbit m2 k.
Proof.
  intros H.
  assert (B : Z.testbit m1 0 = Z.testbit m2 0 /\ Z.testbit m1 1 = Z.testbit m2 1
           /\ Z.testbit m1 2 = Z.testbit m2 2 /\ Z.testbit m1 3 = Z.testbit m2 3
           /\ Z.testbit m1 4 = Z.testbit m2 4 /\ Z.testbit m1 5 = Z.testbit m2 5
           /\ Z.testbit m1 6 = Z.testbit m2 6 /\ Z.testbit m1 7 = Z.testbit m2 7
           /\ Z.testbit m1 8 = Z.testbit m2 8 /\ Z.testbit m1 9 = Z.testbit m2 9
           /\ Z.testbit m1 10 = Z.testbit m2 10
           /\ Z.testbit m1 11 = Z.testbit m2 11).
  { revert H. unfold symbolic, special_cell, plain_cell.
    change (8 - Z.of_nat 0) with 8. change (8 - Z.of_nat 1) with 7.
    change (8 - Z.of_nat 2) with 6. change (8 - Z.of_nat 3) with 5.
    change (8 - Z.of_nat 4) with 4. change (8 - Z.of_nat 5) with 3.
    change (8 - Z.of_nat 6) with 2. change (8 - Z.of_nat 7) with 1.
    change (8 - Z.of_nat 8) with 0.
    cbn [get].
    generalize (Z.testbit m1 0), (Z.testbit m1 1), (Z.testbit m1 2),
      (Z.testbit m1 3), (Z.testbit m1 4), (Z.testbit m1 5), (Z.testbit m1 6),
      (Z.testbit m1 7), (Z.testbit m1 8), (Z.testbit m1 9), (Z.testbit m1 10),
      (Z.testbit m1 11), (Z.testbit m2 0), (Z.testbit m2 1), (Z.testbit m2 2),
      (Z.testbit m2 3), (Z.testbit m2 4), (Z.testbit m2 5), (Z.testbit m2 6),
      (Z.testbit m2 7), (Z.testbit m2 8), (Z.testbit m2 9), (Z.testbit m2 10),
      (Z.testbit m2 11).
    intros a0 a1 a2 a3 a4 a5 a6 a7 a8 a9 a10 a11
           c0 c1 c2 c3 c4 c5 c6 c7 c8 c9 c10 c11 H.
    injection H as H0 H1 H2 H3 H4 H5 H6 H7 H8.
    repeat split; bit_from_cell. }
  intros k Hk.
  assert (C : k = 0 \/ k = 1 \/ k = 2 \/ k = 3 \/ k = 4 \/ k = 5 \/ k = 6
              \/ k = 7 \/ k = 8 \/ k = 9 \/ k = 10 \/ k = 11) by lia.
  destruct C as [-> | [-> | [-> | [-> | [-> | [-> | [-> | [-> | [-> | [-> |
                [-> | ->]]]]]]]]]]]; tauto.
Qed.

(** X14. The symbolic rendering tells the twelve permission bits and
    nothing else: two modes have the same [mode_symbolic] text exactly when
    they agree on the bits of 07777. *)
Theorem symbolic_mode_determines_permission_bits :
  forall m1 m2 : Z,
    modeToSymbolic m1 = modeToSymbolic m2
    <-> Z.land m1 0xFFF = Z.land m2 0xFFF.
Proof.
  intros m1 m2. split.
  - intros H. rewrite !modeToSymbolic_symbolic in H.
    pose proof (symbolic_bits m1 m2 H) as B.
    apply Z.bits_inj'. intros n Hn. rewrite !Z.land_spec.
    destruct (Z.ltb n 12) eqn:E.
    + apply Z.ltb_lt in E. now rewrite B by lia.
    + apply Z.ltb_ge in E. change 0xFFF with (Z.ones 12).
      rewrite Z.ones_spec_high by lia. now rewrite !andb_false_r.
  - intros H. rewrite (modeToSymbolic_permission_part m1),
      (modeToSymbolic_permission_part m2). now rewrite H.
Qed.

(** ** The octal mode *)

Lemma octal_digit (z : Z) :
  0 <= z ->
  digit_of (ascii_of_nat (48 + Z.to_nat (z mod 8))) = z mod 8
  /\ Nat.leb 48 (nat_of_ascii (ascii_of_nat (48 + Z.to_nat (z mod 8))))
     && Nat.leb (nat_of_ascii (ascii_of_nat (48 + Z.to_nat (z mod 8)))) 55
     = true.
Proof.
  intros Hz. pose proof (Z.mod_pos_bound z 8 ltac:(lia)) as Hm.
  unfold digit_of. rewrite nat_ascii_embedding by lia.
  split; [lia|].
  apply andb_true_intro. split; apply Nat.leb_le; lia.
Qed.

Lemma oct_digits_value (fuel : nat) :
  forall (z : Z) (acc : string),
    0 <= z < 8 ^ Z.of_nat fuel ->
    oct_value (oct_digits fuel z acc)
    = z * 8 ^ Z.of_nat (String.length acc) + oct_value acc
    /\ (all_octal acc = true -> all_octal (oct_digits fuel z acc) = true).
Proof.
  induction fuel as [|f IH]; intros z acc Hz.
  - cbn [oct_digits]. change (8 ^ Z.of_nat 0) with 1 in Hz.
    split; [|auto]. replace z with 0 by lia. lia.
  - cbn [oct_digits]. destruct (octal_digit z ltac:(lia)) as [Hd Ho].
    destruct (z <? 8) eqn:E.
    + apply Z.ltb_lt in E. cbn [oct_value all_octal]. rewrite Hd, Ho.
      rewrite Z.mod_small by lia. split; [reflexivity | auto].
    + apply Z.ltb_ge in E.
      rewrite Nat2Z.inj_succ, Z.pow_succ_r in Hz by lia.
      assert (Hq : 0 <= z / 8 < 8 ^ Z.of_nat f).
      { split; [apply Z.div_pos; lia|].
        apply Z.div_lt_upper_bound; lia. }
      destruct (IH (z / 8) (String (ascii_of_nat (48 + Z.to_nat (z mod 8))) acc)
                  Hq) as [Hv Ha].
      split.
      * rewrite Hv. cbn [oct_value String.length]. rewrite Hd.
        rewrite Nat2Z.inj_succ, Z.pow_succ_r by lia.
        pose proof (Z.div_mod z 8 ltac:(lia)) as Hdm.
        set (p := 8 ^ Z.of_nat (String.length acc)) in *.
        set (q := z / 8) in *. set (m := z mod 8) in *.
        clearbody p q m. rewrite Hdm. ring.
      * intros Hacc. apply Ha. cbn [all_octal]. now rewrite Ho, Hacc.
Qed.

Lemma oct_digits_length (fuel : nat) :
  forall (k : nat) (z : Z) (acc : string),
    (1 <= k)%nat -> 0 <= z < 8 ^ Z.of_nat k ->
    (String.length (oct_digits fuel z acc) <= k + String.length acc)%nat.
Proof.
  induction fuel as [|f IH]; intros k z acc Hk Hz.
  - cbn [oct_digits]. lia.
  - cbn [oct_digits]. destruct (z <? 8) eqn:E.
    + cbn [String.length]. lia.
    + apply Z.ltb_ge in E.
      destruct k as [|[|k]]; [lia | change (8 ^ Z.of_nat 1) with 8 in Hz; lia |].
      rewrite Nat2Z.inj_succ, Z.pow_succ_r in Hz by lia.
      assert (Hq : 0 <= z / 8 < 8 ^ Z.of_nat (S k)).
      { split; [apply Z.div_pos; lia|].
        apply Z.div_lt_upper_bound; lia. }
      pose proof (IH (S k) (z / 8)
                    (String (ascii_of_nat (48 + Z.to_nat (z mod 8))) acc)
                    ltac:(lia) Hq) as H.
      cbn [String.length] in H. lia.
Qed.

Lemma oct_fuel (z : Z) :
  0 <= z -> 0 <= z < 8 ^ Z.of_nat (S (Z.to_nat (Z.log2 z))).
Proof.
  intros Hz. split; [exact Hz|].
  rewrite Nat2Z.inj_succ, Z2Nat.id by apply Z.log2_nonneg.
  destruct (Z.eq_dec z 0) as [-> | Hne].
  - reflexivity.
  - pose proof (Z.log2_spec z ltac:(lia)) as [_ H].
    pose proof (Z.log2_nonneg z) as Hl.
    apply (Z.lt_le_trans _ _ _ H).
    apply Z.pow_le_mono_l. lia.
Qed.

Lemma oct_digits_keeps (fuel : nat) :
  forall (z : Z) (acc : string),
    (String.length acc <= String.length (oct_digits fuel z acc))%nat.
Proof.
  induction fuel as [|f IH]; intros z acc; cbn [oct_digits]; [lia|].
  destruct (z <? 8); cbn [String.length]; [lia|].
  specialize (IH (z / 8) (String (ascii_of_nat (48 + Z.to_nat (z mod 8))) acc)).
  cbn [String.length] in IH. lia.
Qed.

Lemma oct_nonempty (z : Z) : (1 <= String.length (oct z))%nat.
Proof.
  unfold oct. cbn [oct_digits]. destruct (z <? 8); cbn [String.length]; [lia|].
  pose proof (oct_digits_keeps (Z.to_nat (Z.log2 z)) (z / 8)
                (String (ascii_of_nat (48 + Z.to_nat (z mod 8))) "")) as H.
  cbn [String.length] in H. lia.
Qed.

(** X15. The text of [mode_octal] is a zero followed by the octal digits
    of the permission bits: it consists of octal digits, has between two and
    five characters, and its value in base eight is [mode & 07777]. *)
Theorem mode_octal_reads_back :
  forall mode : Z,
    oct_value ("0" ++ oct (Z.land mode 0xFFF)) = Z.land mode 0xFFF
    /\ all_octal ("0" ++ oct (Z.land mode 0xFFF)) = true
    /\ (2 <= String.length ("0" ++ oct (Z.land mode 0xFFF)) <= 5)%nat.
Proof.
  intros mode.
  assert (Hr : 0 <= Z.land mode 0xFFF < 8 ^ Z.of_nat 4).
  { change 0xFFF with (Z.ones 12). rewrite Z.land_ones by lia.
    change (8 ^ Z.of_nat 4) with (2 ^ 12). apply Z.mod_pos_bound. lia. }
  set (z := Z.land mode 0xFFF) in *.
  destruct (oct_digits_value _ z "" (oct_fuel z ltac:(lia))) as [Hv Ha].
  fold (oct z) in Hv, Ha. cbn [append oct_value all_octal String.length].
  split; [|split].
  - rewrite Hv. cbn [String.length oct_value].
    change (digit_of "0") with 0. lia.
  - cbn. now apply Ha.
  - pose proof (oct_digits_length (S (Z.to_nat (Z.log2 z))) 4 z ""
                  ltac:(lia) Hr) as Hl.
    fold (oct z) in Hl. cbn [String.length] in Hl.
    pose proof (oct_nonempty z). lia.
Qed.

End FileProperties.

(* ================================================================== *)
(** * The JSON output *)
(* ================================================================== *)

Module JsonFacts.
Import CLib Types JsonFormatter JsonReader JsonLayout.
Import DecFacts.
Local Open Scope list_scope.

Lemma quoted_app (s rest : string) :
  (quoted s ++ rest)%string = String dquote (s ++ String dquote rest)%string.
Proof.
  unfold quoted. cbn [append]. now rewrite append_assoc.
Qed.

Lemma read_escapeChar (c : ascii) (t : string) :
  read_chars (escapeChar c ++ t)%string = push c (read_chars t).
Proof.
  destruct c as [[] [] [] [] [] [] [] []]; reflexivity.
Qed.

Lemma read_chars_escape (s rest : string) :
  read_chars (escapeString s ++ String dquote rest)%string = Some (s, rest).
Proof.
  induction s as [|c s IH]; [reflexivity|].
  cbn [escapeString]. rewrite append_assoc, read_escapeChar, IH. reflexivity.
Qed.

Lemma read_quoted (s rest : string) :
  read_string (quoted (escapeString s) ++ rest)%string = Some (s, rest).
Proof.
  rewrite quoted_app. cbn [read_string]. 
  change (Ascii.eqb dquote dquote) with true. cbv iota.
  apply read_chars_escape.
Qed.

(** ** Reading a document back *)

Lemma skip_ws_blank (w t : string) :
  blank w -> skip_ws (w ++ t)%string = skip_ws t.
Proof.
  unfold blank. induction w as [|c w IH]; cbn [all_chars append skip_ws];
    [reflexivity|].
  intros H. apply andb_prop in H. destruct H as [Hc Hw].
  rewrite Hc. auto.
Qed.

Lemma skip_ws_quoted (s rest : string) :
  skip_ws (quoted s ++ rest)%string = (quoted s ++ rest)%string.
Proof. rewrite quoted_app. reflexivity. Qed.

Lemma read_string_blank (w s rest : string) :
  blank w ->
  read_string (skip_ws (w ++ quoted (escapeString s) ++ rest)%string)
  = Some (s, rest).
Proof.
  intros H. rewrite skip_ws_blank, skip_ws_quoted by exact H.
  apply read_quoted.
Qed.

Lemma length_append (a b : string) :
  String.length (a ++ b)%string = (String.length a + String.length b)%nat.
Proof. induction a as [|c a IH]; cbn [append String.length plus]; congruence. Qed.

Lemma blank_sp (p : bool) : blank (sp_of p).
Proof. destruct p; reflexivity. Qed.

Lemma blank_nl (p : bool) : blank (nl_of p).
Proof. destruct p; reflexivity. Qed.

Lemma blank_spaces (n : nat) : blank (spaces n).
Proof. induction n as [|n IH]; [reflexivity|exact IH]. Qed.

Lemma blank_indent (k : Z) : blank (indent k).
Proof. apply blank_spaces. Qed.

Lemma blank_app (a b : string) : blank a -> blank b -> blank (a ++ b)%string.
Proof.
  unfold blank. induction a as [|c a IH]; cbn [append all_chars]; [auto|].
  intros Ha Hb. apply andb_prop in Ha. destruct Ha as [Hc Ha].
  rewrite Hc. cbn [andb]. auto.
Qed.

Lemma formatValues_cons (sp : string) (v : string) (vs : list string)
  (rest : string) :
  (formatValues sp false (v :: vs) ++ rest)%string
  = String "," (sp ++ quoted (escapeString v)
                ++ formatValues sp false vs ++ rest)%string.
Proof.
  cbn [formatValues]. rewrite !append_assoc. reflexivity.
Qed.

Lemma formatValues_first (sp : string) (v : string) (vs : list string)
  (rest : string) :
  (formatValues sp true (v :: vs) ++ rest)%string
  = (quoted (escapeString v) ++ formatValues sp false vs ++ rest)%string.
Proof.
  cbn [formatValues]. rewrite !append_assoc. reflexivity.
Qed.

Lemma read_elements_format (sp : string) (Hsp : blank sp) :
  forall (vs : list string) (fuel : nat) (w v rest : string),
    blank w ->
    (length vs < fuel)%nat ->
    read_elements fuel
      (w ++ quoted (escapeString v) ++ formatValues sp false vs
       ++ String "]" rest)%string
    = Some (v :: vs, rest).
Proof.
  induction vs as [|a vs IH]; intros fuel w v rest Hw Hf;
    (destruct fuel as [|fuel]; [cbn [length] in Hf; lia|]);
    cbn [read_elements]; rewrite read_string_blank by exact Hw;
    cbn [and_then].
  - reflexivity.
  - rewrite formatValues_cons. cbn [skip_ws is_ws].
    change (is_ws ",") with false. cbv iota.
    change (Ascii.eqb "," ",") with true. cbv iota.
    rewrite IH by (try exact Hsp; cbn [length] in Hf; lia). reflexivity.
Qed.

Lemma length_formatValues (sp : string) (b : bool) (vs : list string)
  (x : string) :
  (length vs <= String.length (formatValues sp b vs ++ x)%string)%nat.
Proof.
  revert b. induction vs as [|v vs IH]; intros b; cbn [length]; [lia|].
  cbn [formatValues]. rewrite !append_assoc, length_append, quoted_app.
  cbn [String.length]. rewrite length_append. cbn [String.length].
  specialize (IH false). lia.
Qed.

Lemma read_value_format (p : bool) (vs : list string) (rest : string) :
  read_value (sp_of p ++ value_text p vs ++ rest)%string = Some (vs, rest).
Proof.
  unfold read_value. rewrite skip_ws_blank by apply blank_sp.
  destruct vs as [|v [|v2 vs]]; cbn [value_text].
  - reflexivity.
  - rewrite skip_ws_quoted, quoted_app.
    change (Ascii.eqb dquote dquote) with true. cbv iota.
    rewrite read_chars_escape. reflexivity.
  - rewrite !append_assoc.
    change ("]" ++ rest)%string with (String "]" rest).
    set (text := (formatValues (sp_of p) true (v :: v2 :: vs)
                  ++ String "]" rest)%string).
    change ("[" ++ text)%string with (String "[" text).
    cbn [skip_ws].
    change (is_ws "[") with false. cbv iota.
    change (Ascii.eqb "[" dquote) with false.
    change (Ascii.eqb "[" "[") with true. cbv iota.
    assert (Hf : (length (v2 :: vs) < String.length text)%nat).
    { pose proof (length_formatValues (sp_of p) true (v :: v2 :: vs)
                    (String "]" rest)) as H.
      fold text in H. cbn [length] in H |- *. lia. }
    revert Hf. generalize (String.length text). intros fuel Hf.
    subst text. rewrite formatValues_first.
    unfold token at 1. rewrite skip_ws_quoted. rewrite quoted_app at 1.
    cbn [strip_prefix]. change (Ascii.eqb "]" dquote) with false. cbv iota.
    apply (read_elements_format (sp_of p) (blank_sp p) (v2 :: vs) fuel
             EmptyString v rest); [reflexivity | exact Hf].
Qed.

Lemma formatAttribute_text (a : MetadataAttribute) (p : bool) (rest : string) :
  (formatAttribute a p 2 ++ rest)%string
  = (indent (if p then 2 else 0) ++ quoted (escapeString (name a))
     ++ String ":" (sp_of p ++ value_text p (values a) ++ rest))%string.
Proof.
  unfold formatAttribute, value_text. fold (sp_of p).
  rewrite !append_assoc.
  destruct (values a) as [|v [|v2 vs]]; reflexivity.
Qed.

Lemma formatAttributes_cons (nl : string) (p : bool) (a : MetadataAttribute)
  (attrs : list MetadataAttribute) (rest : string) :
  (formatAttributes nl p false (a :: attrs) ++ rest)%string
  = String "," (nl ++ formatAttribute a p 2
                ++ formatAttributes nl p false attrs ++ rest)%string.
Proof.
  cbn [formatAttributes]. rewrite !append_assoc. reflexivity.
Qed.

Lemma formatAttributes_first (nl : string) (p : bool) (a : MetadataAttribute)
  (attrs : list MetadataAttribute) (rest : string) :
  (formatAttributes nl p true (a :: attrs) ++ rest)%string
  = (formatAttribute a p 2
     ++ formatAttributes nl p false attrs ++ rest)%string.
Proof.
  cbn [formatAttributes]. rewrite !append_assoc. reflexivity.
Qed.

Lemma read_members_format (p : bool) :
  forall (attrs : list MetadataAttribute) (fuel : nat) (w : string)
         (a : MetadataAttribute) (w1 rest : string),
    blank w -> blank w1 ->
    (length attrs < fuel)%nat ->
    read_members fuel
      (w ++ formatAttribute a p 2
       ++ formatAttributes (nl_of p) p false attrs
       ++ w1 ++ String "}" rest)%string
    = Some (a :: attrs, rest).
Proof.
  induction attrs as [|b attrs IH]; intros fuel w a w1 rest Hw Hw1 Hf;
    (destruct fuel as [|fuel]; [cbn [length] in Hf; lia|]);
    cbn [read_members]; rewrite formatAttribute_text, <- append_assoc;
    rewrite read_string_blank
      by (apply blank_app; [exact Hw | apply blank_indent]);
    cbn [and_then]; unfold token at 1; cbn [skip_ws];
    change (is_ws ":") with false; cbv iota; cbn [strip_prefix];
    change (Ascii.eqb ":" ":") with true; cbv iota; cbn [and_then];
    rewrite read_value_format; cbn [and_then];
    destruct a as [n vs]; cbn [name values].
  - cbn [formatAttributes append]. rewrite skip_ws_blank by exact Hw1.
    reflexivity.
  - rewrite formatAttributes_cons. cbn [skip_ws].
    change (is_ws ",") with false. cbv iota.
    change (Ascii.eqb "," ",") with true. cbv iota.
    rewrite IH by (try apply blank_nl; try exact Hw1; cbn [length] in Hf; lia).
    reflexivity.
Qed.

Lemma length_formatAttribute (a : MetadataAttribute) (p : bool)
  (rest : string) :
  (S (String.length rest)
   <= String.length (formatAttribute a p 2 ++ rest)%string)%nat.
Proof.
  rewrite formatAttribute_text, length_append, quoted_app.
  cbn [String.length]. rewrite length_append. cbn [String.length].
  rewrite !length_append. lia.
Qed.

Lemma length_formatAttributes (nl : string) (p b : bool)
  (attrs : list MetadataAttribute) (x : string) :
  (length attrs <= String.length (formatAttributes nl p b attrs ++ x)%string)%nat.
Proof.
  revert b. induction attrs as [|a attrs IH]; intros b; cbn [length]; [lia|].
  cbn [formatAttributes]. rewrite !append_assoc, length_append.
  pose proof (length_formatAttribute a p
                (formatAttributes nl p false attrs ++ x)%string) as H.
  specialize (IH false). lia.
Qed.

Ltac blank_tac :=
  first [ apply blank_nl | apply blank_sp | apply blank_indent ].

Lemma token_blank (t w s : string) :
  blank w -> token t (w ++ s)%string = token t s.
Proof. intros H. unfold token. now rewrite skip_ws_blank. Qed.

Lemma token_here (c : ascii) (rest : string) :
  is_ws c = false -> token (String c EmptyString) (String c rest) = Some rest.
Proof.
  intros H. unfold token. cbn [skip_ws]. rewrite H. cbn [strip_prefix].
  now rewrite Ascii.eqb_refl.
Qed.

Lemma key_blank (k w s : string) :
  blank w -> key k (w ++ s)%string = key k s.
Proof. intros H. unfold key. now rewrite skip_ws_blank. Qed.

Lemma key_quoted (k k' rest : string) :
  escapeString k' = k' ->
  key k (quoted k' ++ String ":" rest)%string
  = if String.eqb k' k then Some rest else None.
Proof.
  intros H. unfold key. rewrite <- H at 1.
  rewrite skip_ws_quoted, read_quoted. cbn [and_then].
  destruct (String.eqb k' k); reflexivity.
Qed.

Lemma read_bool_format (w : string) (b : bool) (rest : string) :
  blank w ->
  read_bool (w ++ (if b then "true" else "false") ++ rest)%string
  = Some (b, rest).
Proof.
  intros H. unfold read_bool.
  rewrite (token_blank "true"), (token_blank "false") by exact H.
  destruct b; reflexivity.
Qed.

Lemma read_object_format (p : bool) (attrs : list MetadataAttribute)
  (w rest : string) :
  blank w ->
  read_object
    (String "{" (nl_of p ++ formatAttributes (nl_of p) p true attrs
                 ++ nl_of p ++ w ++ String "}" rest))%string
  = Some (attrs, rest).
Proof.
  intros Hw. unfold read_object.
  rewrite token_here by reflexivity. cbn [and_then].
  destruct attrs as [|a attrs].
  - cbn [formatAttributes append].
    rewrite !token_blank by (exact Hw || blank_tac).
    rewrite token_here by reflexivity. reflexivity.
  - set (text := (nl_of p ++ formatAttributes (nl_of p) p true (a :: attrs)
                  ++ nl_of p ++ w ++ String "}" rest)%string).
    assert (Hf : (length attrs < String.length text)%nat).
    { subst text. rewrite length_append.
      pose proof (length_formatAttributes (nl_of p) p true (a :: attrs)
                    (nl_of p ++ w ++ String "}" rest)%string) as H.
      cbn [length] in H. lia. }
    revert Hf. generalize (String.length text). intros fuel Hf. subst text.
    rewrite formatAttributes_first.
    rewrite token_blank by blank_tac.
    rewrite formatAttribute_text at 1.
    rewrite token_blank by blank_tac.
    unfold token at 1. rewrite skip_ws_quoted, quoted_app.
    cbn [strip_prefix]. change (Ascii.eqb "}" dquote) with false. cbv iota.
    rewrite <- (append_assoc (nl_of p) w).
    apply read_members_format;
      [blank_tac | apply blank_app; [blank_tac | exact Hw] | exact Hf].
Qed.

Lemma read_tail_format (p : bool) (attrs : list MetadataAttribute) :
  read_tail (tail_text p attrs) = Some attrs.
Proof.
  unfold read_tail, tail_text.
  rewrite key_blank by blank_tac. rewrite key_quoted by reflexivity.
  cbn [String.eqb Ascii.eqb Bool.eqb andb and_then].
  unfold read_object at 1. rewrite token_blank by blank_tac.
  fold (read_object
          (String "{" (nl_of p ++ formatAttributes (nl_of p) p true attrs
             ++ nl_of p ++ indent (if p then 1 else 0)
             ++ String "}" (nl_of p ++ "}")))%string).
  rewrite read_object_format by blank_tac. cbn [and_then].
  rewrite token_blank by blank_tac. destruct p; reflexivity.
Qed.

Lemma read_tail_blank (w s : string) :
  blank w -> read_tail (w ++ s)%string = read_tail s.
Proof. intros H. unfold read_tail. now rewrite key_blank. Qed.

Lemma key_error_tail (p : bool) (attrs : list MetadataAttribute) :
  key "error" (tail_text p attrs) = None.
Proof.
  unfold tail_text. rewrite key_blank by blank_tac.
  rewrite key_quoted by reflexivity. reflexivity.
Qed.

Lemma format_text (r : MetadataResult) (p : bool) :
  format r p
  = String "{" (nl_of p ++ indent (if p then 1 else 0) ++ quoted "success"
    ++ String ":" (sp_of p ++ (if success r then "true" else "false")
    ++ String "," (nl_of p ++ indent (if p then 1 else 0) ++ quoted "type"
    ++ String ":" (sp_of p ++ quoted (escapeString (type r))
    ++ String "," (nl_of p ++ indent (if p then 1 else 0)
    ++ quoted "identifier"
    ++ String ":" (sp_of p ++ quoted (escapeString (identifier r))
    ++ String "," (nl_of p
    ++ (if negb (success r) && negb (empty (errorMessage r))
        then indent (if p then 1 else 0) ++ quoted "error"
             ++ String ":" (sp_of p
             ++ quoted (escapeString (errorMessage r))
             ++ String "," (nl_of p ++ tail_text p (attributes r)))
        else tail_text p (attributes r)))))))))%string.
Proof.
  unfold format, tail_text. fold (nl_of p) (sp_of p).
  destruct (negb (success r) && negb (empty (errorMessage r)));
    rewrite ?append_assoc; reflexivity.
Qed.

(** ** Control characters *)

Section Clean.

Variable q : ascii -> bool.
Hypothesis q_plain : forall c : ascii, is_control c = false -> q c = true.

Lemma all_chars_app (a b : string) :
  all_chars q (a ++ b)%string = all_chars q a && all_chars q b.
Proof.
  induction a as [|c a IH]; cbn [append all_chars]; [reflexivity|].
  now rewrite IH, andb_assoc.
Qed.

Lemma clean_literal (s : string) :
  all_chars (fun c => negb (is_control c)) s = true -> all_chars q s = true.
Proof.
  induction s as [|c s IH]; cbn [all_chars]; [reflexivity|].
  intros H. apply andb_prop in H. destruct H as [Hc Hs].
  rewrite q_plain by (now destruct (is_control c)). auto.
Qed.

Lemma clean_escapeChar (c : ascii) : all_chars q (escapeChar c) = true.
Proof.
  apply clean_literal.
  destruct c as [[] [] [] [] [] [] [] []]; reflexivity.
Qed.

Lemma clean_escapeString (s : string) : all_chars q (escapeString s) = true.
Proof.
  induction s as [|c s IH]; [reflexivity|].
  cbn [escapeString]. now rewrite all_chars_app, clean_escapeChar, IH.
Qed.

Lemma clean_quoted (s : string) :
  all_chars q s = true -> all_chars q (quoted s) = true.
Proof.
  intros H. unfold quoted. cbn [all_chars].
  rewrite all_chars_app, H, q_plain by reflexivity.
  cbn [all_chars andb]. now rewrite q_plain by reflexivity.
Qed.

Lemma clean_spaces (n : nat) : all_chars q (spaces n) = true.
Proof.
  induction n as [|n IH]; [reflexivity|].
  cbn [spaces all_chars]. now rewrite IH, q_plain by reflexivity.
Qed.

Lemma clean_indent (k : Z) : all_chars q (indent k) = true.
Proof. apply clean_spaces. Qed.

Lemma clean_sp (p : bool) : all_chars q (sp_of p) = true.
Proof. destruct p; apply clean_literal; reflexivity. Qed.

Ltac clean_step :=
  repeat first
    [ rewrite all_chars_app
    | rewrite clean_quoted by (apply clean_escapeString
                               || (apply clean_literal; reflexivity))
    | rewrite clean_indent
    | rewrite clean_sp
    | rewrite clean_escapeString ].

Lemma clean_formatValues (sp : string) (b : bool) (vs : list string) :
  all_chars q sp = true -> all_chars q (formatValues sp b vs) = true.
Proof.
  intros Hsp. revert b.
  induction vs as [|v vs IH]; intros b; [reflexivity|].
  cbn [formatValues]. clean_step. rewrite IH.
  destruct b; cbn [all_chars andb append]; [reflexivity|].
  now rewrite Hsp, q_plain by reflexivity.
Qed.

Lemma clean_formatAttribute (a : MetadataAttribute) (p : bool) (k : Z) :
  all_chars q (formatAttribute a p k) = true.
Proof.
  unfold formatAttribute. fold (sp_of p). clean_step.
  cbn [all_chars andb append]. rewrite q_plain by reflexivity.
  cbn [andb].
  destruct (values a) as [|v [|v2 vs]].
  - apply clean_literal. reflexivity.
  - clean_step. reflexivity.
  - cbn [all_chars]. clean_step.
    rewrite clean_formatValues by apply clean_sp.
    cbn [all_chars andb]. now rewrite !q_plain by reflexivity.
Qed.

Variable p : bool.
Hypothesis q_nl : all_chars q (nl_of p) = true.

Lemma clean_formatAttributes (b : bool) (attrs : list MetadataAttribute) :
  all_chars q (formatAttributes (nl_of p) p b attrs) = true.
Proof.
  revert b. induction attrs as [|a attrs IH]; intros b; [reflexivity|].
  cbn [formatAttributes]. clean_step. rewrite clean_formatAttribute, IH.
  destruct b; cbn [all_chars andb append]; [reflexivity|].
  now rewrite q_nl, q_plain by reflexivity.
Qed.

Lemma clean_format (r : MetadataResult) : all_chars q (format r p) = true.
Proof.
  unfold format. fold (nl_of p) (sp_of p).
  clean_step. rewrite clean_formatAttributes, !q_nl.
  cbn [all_chars andb]. rewrite !q_plain by reflexivity.
  cbn [andb].
  destruct (success r); cbn [negb andb all_chars];
    rewrite ?q_plain by reflexivity; cbn [andb]; [reflexivity|].
  destruct (negb (empty (errorMessage r))); [|reflexivity].
  clean_step. rewrite q_nl. cbn [all_chars andb].
  now rewrite !q_plain by reflexivity.
Qed.

Lemma clean_getlines (s : string) :
  all_chars q s = true -> Forall (fun l => all_chars q l = true) (getlines s).
Proof.
  induction s as [|c s IH]; cbn [all_chars getlines]; [constructor|].
  intros H. apply andb_prop in H. destruct H as [Hc Hs].
  specialize (IH Hs).
  destruct (Ascii.eqb c "010").
  - constructor; [reflexivity | exact IH].
  - destruct (getlines s) as [|l ls].
    + constructor; [|constructor]. cbn [all_chars]. now rewrite Hc.
    + inversion IH as [|? ? Hl Hls]; subst.
      constructor; [|exact Hls]. cbn [all_chars]. now rewrite Hc, Hl.
Qed.

Lemma clean_indentLines (b : bool) (ls : list string) :
  all_chars q newline = true ->
  Forall (fun l => all_chars q l = true) ls ->
  all_chars q (indentLines b ls) = true.
Proof.
  intros Hn H. revert b.
  induction H as [|l ls Hl Hls IH]; intros b; [reflexivity|].
  cbn [indentLines]. clean_step. rewrite Hl, IH.
  destruct b; [reflexivity|]. now rewrite Hn.
Qed.

Lemma clean_formatResults (b : bool) (rs : list MetadataResult) :
  all_chars q newline = true \/ p = false ->
  all_chars q (formatResults (nl_of p) p b rs) = true.
Proof.
  intros Hn. revert b. induction rs as [|r rs IH]; intros b; [reflexivity|].
  cbn [formatResults]. clean_step. rewrite IH.
  assert (H1 : all_chars q (if b then EmptyString else ("," ++ nl_of p)%string)
               = true).
  { destruct b; [reflexivity|]. cbn [append all_chars].
    now rewrite q_nl, q_plain by reflexivity. }
  rewrite H1. cbn [andb]. rewrite andb_true_r.
  pose proof (clean_format r) as Hr.
  destruct p; [|exact Hr].
  destruct Hn as [Hn|Hn]; [|discriminate].
  apply clean_indentLines; [exact Hn|]. now apply clean_getlines.
Qed.

Lemma clean_formatArray (rs : list MetadataResult) :
  all_chars q newline = true \/ p = false ->
  all_chars q (formatArray rs p) = true.
Proof.
  intros Hn. unfold formatArray. fold (nl_of p).
  clean_step. rewrite clean_formatResults, !q_nl by exact Hn.
  cbn [all_chars andb]. now rewrite !q_plain by reflexivity.
Qed.

End Clean.

(** X16. The output holds no raw control character: every byte of a
    compact document or array is 0x20 or above, so it is a single line,
    and in pretty-printed output the only byte below 0x20 is the line
    feed the formatter itself puts between members. *)
Theorem output_has_no_raw_control_character :
  forall (r : MetadataResult) (rs : list MetadataResult),
    all_chars (fun c => negb (is_control c)) (format r false) = true
    /\ all_chars (fun c => negb (is_control c)) (formatArray rs false) = true
    /\ all_chars (fun c => negb (is_control c) || is_newline c)
         (format r true) = true
    /\ all_chars (fun c => negb (is_control c) || is_newline c)
         (formatArray rs true) = true.
Proof.
  intros r rs.
  assert (H1 : forall c, is_control c = false
                         -> negb (is_control c) = true)
    by (intros c H; now rewrite H).
  assert (H2 : forall c, is_control c = false
                         -> negb (is_control c) || is_newline c = true)
    by (intros c H; now rewrite H).
  repeat split.
  - apply clean_format; [exact H1 | reflexivity].
  - apply clean_formatArray; [exact H1 | reflexivity | now right].
  - apply clean_format; [exact H2 | reflexivity].
  - apply clean_formatArray; [exact H2 | reflexivity | now left].
Qed.

Lemma read_result_format (r : MetadataResult) (prettyPrint : bool) :
  read_result (format r prettyPrint)
  = Some (mkResult (type r) (identifier r) (attributes r) (success r)
            (if success r then EmptyString else errorMessage r)).
Proof.
  revert r prettyPrint. intros r p. rewrite format_text. unfold read_result.
  rewrite token_here by reflexivity. cbn [and_then].
  rewrite !key_blank by blank_tac. rewrite key_quoted by reflexivity.
  cbn [String.eqb Ascii.eqb Bool.eqb andb and_then].
  rewrite read_bool_format by blank_tac. cbn [and_then].
  rewrite token_here by reflexivity. cbn [and_then].
  rewrite !key_blank by blank_tac. rewrite key_quoted by reflexivity.
  cbn [String.eqb Ascii.eqb Bool.eqb andb and_then].
  rewrite read_string_blank by blank_tac. cbn [and_then].
  rewrite token_here by reflexivity. cbn [and_then].
  rewrite !key_blank by blank_tac. rewrite key_quoted by reflexivity.
  cbn [String.eqb Ascii.eqb Bool.eqb andb and_then].
  rewrite read_string_blank by blank_tac. cbn [and_then].
  rewrite token_here by reflexivity. cbn [and_then].
  rewrite key_blank by blank_tac.
  destruct r as [t i a s e]. cbn [type identifier attributes success errorMessage].
  destruct s; cbn [negb andb].
  - rewrite key_error_tail, read_tail_blank, read_tail_format by blank_tac.
    reflexivity.
  - destruct e as [|c e]; cbn [empty negb].
    + rewrite key_error_tail, read_tail_blank, read_tail_format by blank_tac.
      reflexivity.
    + rewrite key_blank by blank_tac. rewrite key_quoted by reflexivity.
      cbn [String.eqb Ascii.eqb Bool.eqb andb and_then].
      rewrite read_string_blank by blank_tac. cbn [and_then].
      rewrite token_here by reflexivity. cbn [and_then].
      rewrite read_tail_blank, read_tail_format by blank_tac.
      reflexivity.
Qed.

Lemma format_nonempty (r : MetadataResult) (p : bool) :
  format r p <> EmptyString.
Proof. rewrite format_text. discriminate. Qed.

(** X17. What [format] prints reads back: a reader of JSON text gets from
    the output, pretty-printed or compact, the success flag, the type, the
    identifier and every attribute with its name and values, in order.
    The error message comes back for a failed Result and is dropped for a
    successful one.  So two Results that print alike, in whichever of the
    two layouts, agree in all of these. *)
Theorem format_reads_back :
  forall (r : MetadataResult) (prettyPrint : bool),
    read_result (format r prettyPrint)
    = Some (mkResult (type r) (identifier r) (attributes r) (success r)
              (if success r then EmptyString else errorMessage r))
    /\ forall (r' : MetadataResult) (prettyPrint' : bool),
         format r prettyPrint = format r' prettyPrint' ->
         type r = type r' /\ identifier r = identifier r'
         /\ attributes r = attributes r' /\ success r = success r'
         /\ (success r = false -> errorMessage r = errorMessage r').
Proof.
  intros r p. split; [apply read_result_format|].
  intros r' p' H. apply (f_equal read_result) in H.
  rewrite !read_result_format in H. injection H as Ht Hi Ha Hs He.
  repeat split; try assumption.
  intros Hf. rewrite <- Hs, Hf in He. exact He.
Qed.

End JsonFacts.

(* ================================================================== *)
(** * The command line *)
(* ================================================================== *)

Module CliFacts.
Import CLib Types Effects Samples MoreSamples.
Import JsonFormatter JsonReader.
Import Cli.
Local Open Scope list_scope.

Lemma parsed_reject (argv : list string) (a : CommandLineArgs) (msg : string) :
  msg <> EmptyString -> parsed argv (reject a msg).
Proof.
  intros H. unfold parsed, reject. cbn [valid errorMessage mode].
  repeat split; try discriminate. intros _. exact H.
Qed.

Lemma parsed_leave (argv : list string) (a : CommandLineArgs) (m : Mode) :
  valid a = true -> m <> ModeNone -> is_query m = false ->
  parsed argv (set_mode a m).
Proof.
  intros Hv Hm Hq. unfold parsed, set_mode. cbn [valid errorMessage mode].
  repeat split.
  - intros _. exact Hm.
  - congruence.
  - congruence.
Qed.

Lemma between_query (seen : list string) (a : CommandLineArgs) (m : Mode)
  (opt value : string) :
  between seen a -> is_query m = true -> selects m opt = true ->
  between (seen ++ [opt; value]) (set_query a m value).
Proof.
  intros (Hv & _ & _) Hq Hs. unfold between, set_query.
  cbn [valid mode identifier]. repeat split.
  - exact Hv.
  - congruence.
  - intros _. exists seen, opt, []. split; [reflexivity | exact Hs].
Qed.

Lemma between_more (seen more : list string) (a b : CommandLineArgs) :
  between seen a -> valid b = valid a -> mode b = mode a ->
  identifier b = identifier a ->
  between (seen ++ more) b.
Proof.
  intros (Hv & Hn & Hq) Ev Em Ei. unfold between.
  rewrite Ev, Em, Ei. repeat split; [exact Hv | exact Hn |].
  intros H. destruct (Hq H) as (pre & opt & post & E & Hs).
  exists pre, opt, (post ++ more). split; [|exact Hs].
  rewrite E, <- app_assoc. reflexivity.
Qed.

Lemma parseArgs_from_parsed :
  forall (n : nat) (rest seen : list string) (a : CommandLineArgs),
    (length rest <= n)%nat ->
    between seen a ->
    parsed (seen ++ rest) (parseArgs_from rest a).
Proof.
  induction n as [|n IH]; intros rest seen a Hn Hb.
  - destruct rest as [|x rest]; [|cbn [length] in Hn; lia].
    cbn [parseArgs_from]. rewrite app_nil_r.
    destruct Hb as (Hv & Hnone & Hq).
    destruct (mode a) eqn:Em;
      try (apply parsed_reject; discriminate);
      unfold parsed; rewrite Em, Hv; repeat split; try discriminate;
      intros _ H; exact (Hq H).
  - destruct rest as [|arg rest].
    + apply (IH [] seen a); [cbn [length]; lia | exact Hb].
    + cbn [length] in Hn.
      assert (Hv : valid a = true) by apply Hb.
      assert (Step2 : forall (value : string) (rest1 : list string) b,
                 rest = value :: rest1 ->
                 between (seen ++ [arg; value]) b ->
                 parsed (seen ++ arg :: rest) (parseArgs_from rest1 b)).
      { intros value rest1 b E Hb'. subst rest. cbn [length] in Hn.
        replace (seen ++ arg :: value :: rest1)
          with ((seen ++ [arg; value]) ++ rest1)
          by (rewrite <- app_assoc; reflexivity).
        apply IH; [lia | exact Hb']. }
      cbn [parseArgs_from].
      destruct (String.eqb arg "-h" || String.eqb arg "--help");
        [apply parsed_leave; [exact Hv | discriminate | reflexivity]|].
      destruct (String.eqb arg "-v" || String.eqb arg "--version");
        [apply parsed_leave; [exact Hv | discriminate | reflexivity]|].
      destruct (String.eqb arg "-p" || String.eqb arg "--process") eqn:Ep.
      { destruct rest as [|value rest1];
          [apply parsed_reject; discriminate|].
        apply (Step2 value rest1); [reflexivity|].
        apply between_query; [exact Hb | reflexivity | exact Ep]. }
      destruct (String.eqb arg "-f" || String.eqb arg "--file") eqn:Ef.
      { destruct rest as [|value rest1];
          [apply parsed_reject; discriminate|].
        apply (Step2 value rest1); [reflexivity|].
        apply between_query; [exact Hb | reflexivity | exact Ef]. }
      destruct (String.eqb arg "-P" || String.eqb arg "--port") eqn:EP.
      { destruct rest as [|value rest1];
          [apply parsed_reject; discriminate|].
        apply (Step2 value rest1); [reflexivity|].
        apply between_query; [exact Hb | reflexivity | exact EP]. }
      destruct (String.eqb arg "--protocol").
      { destruct rest as [|proto rest1];
          [apply parsed_reject; discriminate|].
        destruct (String.eqb proto "tcp");
          [apply (Step2 proto rest1); [reflexivity|];
           apply between_more with (a := a); auto|].
        destruct (String.eqb proto "udp");
          [apply (Step2 proto rest1); [reflexivity|];
           apply between_more with (a := a); auto|].
        destruct (String.eqb proto "both");
          [apply (Step2 proto rest1); [reflexivity|];
           apply between_more with (a := a); auto|].
        apply parsed_reject; discriminate. }
      destruct (String.eqb arg "--compact").
      { replace (seen ++ arg :: rest) with ((seen ++ [arg]) ++ rest)
          by (rewrite <- app_assoc; reflexivity).
        apply IH; [lia|]. apply between_more with (a := a); auto. }
      apply parsed_reject. discriminate.
Qed.

Lemma between_start : between [] newArgs.
Proof.
  unfold between, newArgs. cbn [valid mode is_query].
  repeat split; discriminate.
Qed.

Lemma parseArgs_parsed (argv : list string) : parsed argv (parseArgs argv).
Proof.
  unfold parseArgs. destruct argv as [|arg rest].
  - apply parsed_leave; [reflexivity | discriminate | reflexivity].
  - apply (parseArgs_from_parsed (length (arg :: rest)) (arg :: rest) []
             newArgs); [lia | apply between_start].
Qed.

(** X18. [parseArgs] never accepts a command line without an operation;
    whenever it rejects one it gives a message; and when it accepts a
    query, the identifier is the argument that follows one of the options
    of that query on the command line. *)
Theorem parseArgs_accepts_only_operations :
  forall argv : list string,
    let a := parseArgs argv in
    (valid a = true -> mode a <> ModeNone)
    /\ (valid a = false -> Cli.errorMessage a <> EmptyString)
    /\ (valid a = true -> is_query (mode a) = true ->
        exists pre opt post,
          argv = pre ++ opt :: Cli.identifier a :: post
          /\ selects (mode a) opt = true).
Proof.
  intros argv. exact (parseArgs_parsed argv).
Qed.

Lemma parseArgs_accepts_only_operations_witness :
  valid (parseArgs ["--port"; "22"; "--compact"]) = true
  /\ mode (parseArgs ["--port"; "22"; "--compact"]) <> ModeNone.
Proof.
  split; [reflexivity|].
  exact (proj1 (parseArgs_accepts_only_operations
                  ["--port"; "22"; "--compact"]) eq_refl).
Defined.

Section WithHost.

Variable W : Type.
Variable popen_read : string -> M W (option (string * Z)).
Variable file_os : FileCollector.OS W.
Variable process_os : ProcessCollector.OS W.
Variable AIX : bool.

Local Abbreviation main := (Cli.main W popen_read file_os process_os AIX).

Lemma report_run (r : MetadataResult) (p : bool) :
  out (report r p) = (format r p ++ String "010" EmptyString)%string
  /\ err (report r p) = EmptyString
  /\ exit_code (report r p) = (if success r then 0 else 1).
Proof. repeat split. Qed.

Lemma out_nonempty (r : MetadataResult) (p : bool) :
  out (report r p) <> EmptyString.
Proof.
  cbn [report out]. rewrite JsonFacts.format_text. discriminate.
Qed.

Lemma main_cases (argv : list string) (w : W) :
  let a := parseArgs argv in
  let o := run (main argv) w in
  (valid a = false
   /\ o = mkRun 1 EmptyString
           (unlines [ ("Error: " ++ Cli.errorMessage a)%string;
                      "Use --help for usage information." ]))
  \/ (valid a = true /\ mode a = ModeHelp /\ o = mkRun 0 usage_text EmptyString)
  \/ (valid a = true /\ mode a = ModeVersion
      /\ o = mkRun 0 version_text EmptyString)
  \/ (valid a = true /\ is_query (mode a) = true
      /\ exists r : MetadataResult, o = report r (prettyPrint a)).
Proof.
  intros a o. subst o. unfold Cli.main, run. fold a.
  pose proof (parseArgs_parsed argv) as (Hmode & _ & _). fold a in Hmode.
  destruct (valid a); cbn [negb]; [|left; split; reflexivity].
  right. specialize (Hmode eq_refl).
  destruct (mode a) eqn:Em; try congruence; unfold bind, ret.
  - right. right. split; [reflexivity|]. split; [reflexivity|].
    destruct (ProcessCollector.collect W process_os AIX (Cli.identifier a) w)
      as [r w1]. exists r. reflexivity.
  - right. right. split; [reflexivity|]. split; [reflexivity|].
    destruct (FileCollector.collect W file_os (Cli.identifier a) w)
      as [r w1]. exists r. reflexivity.
  - right. right. split; [reflexivity|]. split; [reflexivity|].
    destruct (PortCollector.collect W popen_read AIX (protocol a)
                (Cli.identifier a) w) as [r w1]. exists r. reflexivity.
  - left. repeat split.
  - right. left. repeat split.
Qed.

Lemma internal_error_differs (msg : string) :
  unlines [ ("Error: " ++ msg)%string; "Use --help for usage information." ]
  <> unlines [ "Error: Internal error - unknown mode" ].
Proof.
  intros H. apply (f_equal String.length) in H.
  cbn [unlines] in H. rewrite !JsonFacts.length_append in H.
  cbn [String.length] in H. rewrite JsonFacts.length_append in H.
  cbn [String.length] in H. lia.
Qed.

(** X19. A run of the program ends with status 0 or 1 and writes to
    exactly one of its two streams: standard error when the arguments are
    rejected, with status 1, and standard output otherwise.  The report of
    an internal error for an unknown mode is never written. *)
Theorem main_writes_to_one_stream :
  forall (argv : list string) (w : W),
    let o := run (main argv) w in
    (exit_code o = 0 \/ exit_code o = 1)
    /\ (out o = EmptyString <-> err o <> EmptyString)
    /\ (err o <> EmptyString <-> valid (parseArgs argv) = false)
    /\ (err o <> EmptyString -> exit_code o = 1)
    /\ err o <> unlines [ "Error: Internal error - unknown mode" ].
Proof.
  intros argv w o.
  destruct (main_cases argv w)
    as [(Hv & E) | [(Hv & _ & E) | [(Hv & _ & E) | (Hv & _ & r & E)]]];
    fold o in E; rewrite E, Hv; clear E; cbn [exit_code out err report].
  - assert (He : unlines [ ("Error: " ++ Cli.errorMessage (parseArgs argv))%string;
                           "Use --help for usage information." ]
                 <> EmptyString) by (cbn [unlines append]; discriminate).
    split; [now right|].
    split; [split; intros _; [exact He | reflexivity]|].
    split; [split; intros _; [reflexivity | exact He]|].
    split; [reflexivity | apply internal_error_differs].
  - split; [now left|]. split; [split; intros H; [discriminate | congruence]|].
    split; [split; intros H; [congruence | discriminate]|].
    split; [congruence | discriminate].
  - split; [now left|]. split; [split; intros H; [discriminate | congruence]|].
    split; [split; intros H; [congruence | discriminate]|].
    split; [congruence | discriminate].
  - pose proof (out_nonempty r (prettyPrint (parseArgs argv))) as Hn.
    cbn [report out] in Hn.
    split; [destruct (success r); auto|].
    split; [split; intros H; [contradiction | congruence]|].
    split; [split; intros H; [congruence | discriminate]|].
    split; [congruence | discriminate].
Qed.

End WithHost.

Lemma main_writes_to_one_stream_witness :
  err (run (Cli.main unit ssh_host passwd_os empty_table true
              ["--frobnicate"]) tt) <> EmptyString
  /\ exit_code (run (Cli.main unit ssh_host passwd_os empty_table true
                       ["--frobnicate"]) tt) = 1.
Proof.
  assert (H : err (run (Cli.main unit ssh_host passwd_os empty_table true
                          ["--frobnicate"]) tt) <> EmptyString)
    by discriminate.
  split; [exact H|].
  exact (proj1 (proj2 (proj2 (proj2
           (main_writes_to_one_stream unit ssh_host passwd_os empty_table
              true ["--frobnicate"] tt)))) H).
Defined.

Section Answers.

Variable W : Type.
Variable popen_read : string -> M W (option (string * Z)).
Variable file_os : FileCollector.OS W.
Variable process_os : ProcessCollector.OS W.
Variable AIX : bool.

(** X20. When the arguments select a query, standard output receives one
    JSON document and a line feed, whether the query succeeded or not, and
    the exit status is 0 exactly when the [success] member of that
    document is true. *)
Theorem exit_status_matches_document :
  forall (argv : list string) (w : W),
    valid (parseArgs argv) = true ->
    is_query (mode (parseArgs argv)) = true ->
    let o := run (Cli.main W popen_read file_os process_os AIX argv) w in
    exists (doc : string) (r : MetadataResult),
      out o = (doc ++ String "010" EmptyString)%string
      /\ read_result doc = Some r
      /\ (exit_code o = 0 <-> success r = true)
      /\ (exit_code o = 1 <-> success r = false).
Proof.
  intros argv w Hv Hq o.
  destruct (main_cases W popen_read file_os process_os AIX argv w)
    as [(Hv' & _) | [(_ & Em & _) | [(_ & Em & _) | (_ & _ & r & E)]]];
    try congruence; try (rewrite Em in Hq; discriminate).
  fold o in E. rewrite E. cbn [report out exit_code].
  eexists. eexists. split; [reflexivity|].
  split; [apply JsonFacts.read_result_format|].
  cbn [success]. destruct (success r); split; split; intros; auto;
    discriminate.
Qed.

End Answers.

Lemma exit_status_matches_document_witness :
  valid (parseArgs ["--port"; "22x"; "--compact"]) = true
  /\ is_query (mode (parseArgs ["--port"; "22x"; "--compact"])) = true
  /\ exists (doc : string) (r : MetadataResult),
       out (run (Cli.main unit ssh_host passwd_os empty_table true
                   ["--port"; "22x"; "--compact"]) tt)
       = (doc ++ String "010" EmptyString)%string
       /\ read_result doc = Some r.
Proof.
  split; [reflexivity|]. split; [reflexivity|].
  destruct (exit_status_matches_document unit ssh_host passwd_os empty_table
              true ["--port"; "22x"; "--compact"] tt eq_refl eq_refl)
    as (doc & r & H1 & H2 & _).
  exists doc, r. split; [exact H1 | exact H2].
Defined.

End CliFacts.

(* ================================================================== *)
(** * The process collector's details *)
(* ================================================================== *)

Module ProcessProperties.
Import CLib Types Effects Spec Samples MoreSamples.
Import ProcessDetails ProcessSchema.
Import FileSchema.
Import CLibFacts DecFacts ProcessFacts FileProperties.
Local Open Scope list_scope.

(** ** The index of workload partitions *)

Lemma split_at_field (d : ascii) (f rest : string) :
  free_of d f = true ->
  split_at d (f ++ String d rest)%string = (f, Some rest).
Proof.
  induction f as [|c f IH]; cbn [free_of append split_at]; intros H.
  - now rewrite Ascii.eqb_refl.
  - apply andb_prop in H. destruct H as [Hc Hf].
    destruct (Ascii.eqb c d); [discriminate|]. now rewrite IH.
Qed.

Lemma split_at_last (d : ascii) (f : string) :
  free_of d f = true -> split_at d f = (f, None).
Proof.
  induction f as [|c f IH]; cbn [free_of split_at]; intros H; [reflexivity|].
  apply andb_prop in H. destruct H as [Hc Hf].
  destruct (Ascii.eqb c d); [discriminate|]. now rewrite IH.
Qed.

Lemma getline_field (d : ascii) (f rest : string) :
  free_of d f = true ->
  getline_delim d (Some (f ++ String d rest)%string) = Some (f, Some rest).
Proof.
  intros H. unfold getline_delim.
  rewrite <- (split_at_field d f rest H).
  destruct f; reflexivity.
Qed.

Lemma getline_last (d : ascii) (f : string) :
  f <> EmptyString -> free_of d f = true ->
  getline_delim d (Some f) = Some (f, None).
Proof.
  intros Hn H. unfold getline_delim. rewrite <- (split_at_last d f H).
  destruct f; [congruence | reflexivity].
Qed.

Lemma parseIndexLine_line (id ty nm k : string) :
  free_of ":" id = true -> free_of ":" ty = true -> free_of ":" nm = true ->
  free_of ":" k = true -> k <> EmptyString ->
  parseIndexLine (index_line id ty nm k) = Some (id, ty, nm, k).
Proof.
  intros H1 H2 H3 H4 Hk. unfold parseIndexLine, index_line.
  change (":" ++ ?x)%string with (String ":" x).
  rewrite (getline_field ":" id) by exact H1.
  change (":" ++ ?x)%string with (String ":" x).
  rewrite (getline_field ":" ty) by exact H2.
  change (":" ++ ?x)%string with (String ":" x).
  rewrite (getline_field ":" nm) by exact H3.
  now rewrite getline_last.
Qed.

Lemma free_of_digits (d : ascii) (s : string) :
  isdigit d = false -> all_digits s = true -> free_of d s = true.
Proof.
  intros Hd. induction s as [|c s IH]; cbn [all_digits free_of];
    [reflexivity|].
  intros H. apply andb_prop in H. destruct H as [Hc Hs].
  rewrite IH by exact Hs. rewrite andb_true_r.
  destruct (Ascii.eqb c d) eqn:E; [|reflexivity].
  apply Ascii.eqb_eq in E. subst c. congruence.
Qed.

Lemma atoi_dec (z : Z) : 1 <= z <= INT32_MAX -> atoi (dec z) = z.
Proof.
  intros H. unfold atoi. rewrite strtol_dec.
  - cbn [st_value]. now apply to_int32_pid.
  - unfold INT32_MAX, LONG_MIN, LONG_MAX in *. lia.
Qed.

Lemma index_cid_line (id ty nm : string) (cid : Z) :
  free_of ":" id = true -> free_of ":" ty = true -> free_of ":" nm = true ->
  1 <= cid <= INT32_MAX ->
  parseIndexLine (index_line id ty nm (dec cid)) = Some (id, ty, nm, dec cid)
  /\ atoi (dec cid) = cid.
Proof.
  intros H1 H2 H3 Hc.
  destruct (dec_nonneg_numeral cid ltac:(lia)) as [[Hne Hd] _].
  split; [|now apply atoi_dec].
  apply parseIndexLine_line; auto.
  apply free_of_digits; [reflexivity | exact Hd].
Qed.

Lemma scanIndex_skip (cid : Z) (before rest : list string)
  (r : MetadataResult) :
  Forall (fun l => index_cid l <> Some cid) before ->
  scanIndex cid (before ++ rest) r = scanIndex cid rest r.
Proof.
  induction 1 as [|l before Hl _ IH]; [reflexivity|].
  cbn [app scanIndex]. unfold index_cid in Hl.
  destruct (parseIndexLine l) as [[[[a b] c] d]|]; [|exact IH].
  destruct (atoi d =? cid) eqn:E; [|exact IH].
  apply Z.eqb_eq in E. congruence.
Qed.

(** ** The argument buffer *)

Lemma c_str_argument (a x : string) :
  free_of zero a = true -> c_str (a ++ String zero x)%string = a.
Proof.
  induction a as [|c a IH]; cbn [free_of append c_str]; intros H.
  - now rewrite Ascii.eqb_refl.
  - apply andb_prop in H. destruct H as [Hc Ha].
    destruct (Ascii.eqb c zero); [discriminate|]. now rewrite IH.
Qed.

Lemma advance_argument (a x : string) :
  advance (String.length a + 1) (a ++ String zero x)%string = x.
Proof.
  induction a as [|c a IH]; [reflexivity|].
  cbn [String.length plus append advance]. exact IH.
Qed.

Lemma length_args_buffer (args : list string) (tail : string) :
  (length args <= String.length (args_buffer args ++ tail)%string)%nat.
Proof.
  induction args as [|a args IH]; cbn [length args_buffer]; [lia|].
  rewrite append_assoc, JsonFacts.length_append. cbn [append String.length].
  lia.
Qed.

Lemma joinArgs_buffer :
  forall (args : list string) (fuel : nat) (first : bool)
         (cmdline tail : string),
    Forall argument args ->
    (tail = EmptyString \/ exists junk, tail = String zero junk) ->
    (length args <= fuel)%nat ->
    joinArgs fuel (args_buffer args ++ tail)%string first cmdline
    = (cmdline
       ++ (if first then EmptyString
           else match args with [] => EmptyString | _ => " " end)
       ++ String.concat " " args)%string.
Proof.
  assert (R : forall x : string, (x ++ EmptyString)%string = x).
  { induction x as [|c x IH]; cbn [append]; congruence. }
  induction args as [|a args IH]; intros fuel first cmdline tail Ha Ht Hf.
  - cbn [args_buffer append String.concat].
    replace (cmdline ++ (if first then EmptyString else EmptyString)
             ++ EmptyString)%string with cmdline
      by (destruct first; cbn [append]; now rewrite R).
    destruct fuel as [|fuel]; [reflexivity|].
    destruct Ht as [->|[junk ->]]; reflexivity.
  - inversion Ha as [|? ? [Hne Hfree] Hrest]; subst.
    destruct fuel as [|fuel]; [cbn [length] in Hf; lia|].
    cbn [args_buffer]. rewrite append_assoc. cbn [append].
    destruct a as [|c a]; [congruence|].
    cbn [joinArgs append].
    assert (Hc : Ascii.eqb c zero = false).
    { cbn [free_of] in Hfree. apply andb_prop in Hfree.
      destruct Hfree as [Hc _]. now destruct (Ascii.eqb c zero). }
    rewrite Hc.
    change (String c (a ++ String zero (args_buffer args ++ tail)))%string
      with (String c a ++ String zero (args_buffer args ++ tail))%string.
    rewrite c_str_argument by exact Hfree.
    rewrite advance_argument.
    rewrite IH by (auto; cbn [length] in Hf; lia).
    rewrite !append_assoc.
    destruct args as [|b args]; cbn [String.concat]; destruct first;
      cbn [append]; rewrite ?R; reflexivity.
Qed.

Lemma length_substring (n : nat) (s : string) :
  (String.length (substring 0 n s) <= n)%nat.
Proof.
  revert s. induction n as [|n IH]; intros [|c s]; cbn [substring String.length];
    try lia.
  specialize (IH s). lia.
Qed.

Lemma concat_nonempty (a : string) (args : list string) :
  a <> EmptyString -> String.concat " " (a :: args) <> EmptyString.
Proof.
  intros H. destruct a as [|c a]; [congruence|].
  destruct args; cbn [String.concat append]; discriminate.
Qed.

(** ** Every collector only adds attributes *)

Lemma extends_addList (r : MetadataResult) (n : string) (v : list string) :
  extends [attrN n v] r (addAttributeList r n v).
Proof. reflexivity. Qed.

Ltac shape_tac :=
  cbn [map name attr1 attrN app];
  repeat (first [left; reflexivity | right]).

Lemma followed_by_in (A B : list (list string)) (a b : list string) :
  In a A -> In b B -> In (a ++ b) (followed_by A B).
Proof.
  intros Ha Hb. unfold followed_by. apply in_flat_map.
  exists a. split; [exact Ha|]. now apply in_map.
Qed.

Lemma detail_shapes_checked :
  forallb (fun l => distinct l
                    && forallb (fun n => existsb (String.eqb n) detail_names) l)
          detail_shapes = true.
Proof. vm_compute. reflexivity. Qed.

Lemma detail_shape_known (rest : list MetadataAttribute) :
  In (map name rest) detail_shapes ->
  known rest /\ NoDup (map name rest).
Proof.
  intros H.
  pose proof (proj1 (forallb_forall _ _) detail_shapes_checked _ H) as C.
  apply andb_prop in C. destruct C as [Hd Hk].
  split; [|now apply distinct_NoDup].
  unfold known. apply Forall_forall. intros a Ha.
  apply In_existsb.
  apply (proj1 (forallb_forall _ _) Hk). now apply in_map.
Qed.

Lemma scanIndex_extends (cid : Z) (lines : list string) (r : MetadataResult) :
  exists tail,
    extends tail r (scanIndex cid lines r)
    /\ (map name tail = []
        \/ map name tail = ["wpar_name"; "wpar_id"; "wpar_type"]).
Proof.
  induction lines as [|l lines IH].
  - exists []. split; [apply extends_refl | now left].
  - cbn [scanIndex].
    destruct (parseIndexLine l) as [[[[a b] c] d]|]; [|exact IH].
    destruct (atoi d =? cid); [|exact IH].
    eexists. split; [peel|]. now right.
Qed.

Ltac same_attributes :=
  lazymatch goal with
  | |- (_, _) = (with_attributes ?r _, _) =>
      destruct r;
      cbv beta iota zeta delta [with_attributes addAttribute addAttributeInt
        type identifier attributes success errorMessage];
      rewrite <- ?app_assoc; reflexivity
  end.

Ltac nothing_added :=
  exists []; split; [apply extends_refl | now left].

Section WithHost.

Variable W : Type.
Variable host : Host W.

Lemma exe_aix (pid : Z) (r : MetadataResult) (w : W) :
  exists tail,
    extends tail r (fst (collectExecutablePath W host true pid r w))
    /\ In (map name tail) exe_names.
Proof.
  unfold collectExecutablePath, bind, ret.
  destruct (readlink host _ w) as [[len buf] w1].
  destruct (len >? 0).
  - eexists. split; [cbn [fst]; peel|]. shape_tac.
  - destruct (getprocs64 host pid w1) as [[count p] w2].
    destruct (count =? 1).
    + eexists. split; [cbn [fst]; peel|]. shape_tac.
    + nothing_added.
Qed.

Lemma exe_stub (pid : Z) (r : MetadataResult) (w : W) :
  exists tail,
    extends tail r (fst (collectExecutablePath W host false pid r w))
    /\ optional "exe_path" tail.
Proof.
  unfold collectExecutablePath, bind, ret.
  destruct (readlink host _ w) as [[len buf] w1].
  destruct (len >? 0).
  - eexists. split; [cbn [fst]; apply extends_add|]. right. eexists. reflexivity.
  - exists []. split; [apply extends_refl | now left].
Qed.

Lemma cwd_any (pid : Z) (r : MetadataResult) (w : W) :
  exists tail,
    extends tail r (fst (collectWorkingDirectory W host pid r w))
    /\ optional "cwd" tail /\ In (map name tail) cwd_names.
Proof.
  unfold collectWorkingDirectory, bind, ret.
  destruct (readlink host _ w) as [[len buf] w1].
  destruct (len >? 0).
  - eexists. split; [cbn [fst]; apply extends_add|].
    split; [right; eexists; reflexivity | shape_tac].
  - exists []. split; [apply extends_refl|]. split; now left.
Qed.

Lemma cmdline_aix (pid : Z) (r : MetadataResult) (w : W) :
  exists tail,
    extends tail r (fst (collectCommandLine W host true pid r w))
    /\ In (map name tail) cmdline_names.
Proof.
  unfold collectCommandLine, bind, ret.
  destruct (getprocs64 host pid w) as [[count p] w1].
  destruct (count =? 1); [|nothing_added].
  destruct (getargs host p w1) as [[rc buf] w2].
  destruct (rc =? 0); [|nothing_added].
  destruct (negb (empty _)).
  - eexists. split; [cbn [fst]; apply extends_add|]. shape_tac.
  - nothing_added.
Qed.

Lemma cmdline_stub (pid : Z) (r : MetadataResult) (w : W) :
  exists tail,
    extends tail r (fst (collectCommandLine W host false pid r w))
    /\ optional "cmdline" tail.
Proof.
  unfold collectCommandLine, bind, ret.
  destruct (ifstream host _ w) as [[text|] w1].
  - eexists. split; [cbn [fst]; apply extends_add|]. right. eexists. reflexivity.
  - exists []. split; [apply extends_refl | now left].
Qed.

Lemma cred_aix (pid : Z) (r : MetadataResult) (w : W) :
  exists tail,
    extends tail r (fst (collectCredentials W host true pid r w))
    /\ In (map name tail) cred_names.
Proof.
  unfold collectCredentials, bind, ret.
  destruct (read_prcred host _ w) as [[cred|] w1]; [|nothing_added].
  destruct (getpwuid host (pr_euid cred) w1) as [[pw|] w2]; cbn [fst].
  - eexists. split; [peel|]. shape_tac.
  - eexists. split; [peel|]. shape_tac.
Qed.

Lemma files_aix (pid : Z) (r : MetadataResult) (w : W) :
  exists tail,
    extends tail r (fst (collectOpenFiles W host true pid r w))
    /\ In (map name tail) files_names.
Proof.
  unfold collectOpenFiles, bind, ret.
  destruct (opendir host _ w) as [[entries|] w1]; [|nothing_added].
  destruct (scanFds W host _ entries [] w1) as [[|fd fds] w2]; cbn [fst].
  - nothing_added.
  - eexists. split; [apply extends_addList|]. shape_tac.
Qed.

Lemma wpar_aix (pid : Z) (r : MetadataResult) (w : W) :
  exists tail,
    extends tail r (fst (collectWparInfo W host true pid r w))
    /\ In (map name tail) wpar_names.
Proof.
  unfold collectWparInfo, bind, ret.
  destruct (getprocs64 host pid w) as [[count p] w1].
  destruct ((count =? 1) && (pi_pid host p =? pid)); [|nothing_added].
  destruct (pi_cid host p =? 0).
  - eexists. split; [cbn [fst]; peel|]. shape_tac.
  - destruct (ifstream host _ w1) as [[text|] w2]; cbn [fst].
    + destruct (scanIndex_extends (pi_cid host p) (getlines text)
                  (addAttribute (addAttributeInt r "wpar_cid" (pi_cid host p))
                     "is_container" "true")) as (t & Ht & Hk).
      eexists. split.
      * eapply extends_trans; [|exact Ht]. peel.
      * rewrite map_app. destruct Hk as [-> | ->]; shape_tac.
    + eexists. split; [peel|]. shape_tac.
Qed.

Ltac follow lemma :=
  match goal with
  | |- context [?f W host ?b ?pid ?r ?w] =>
      let t := fresh "t" in
      let Ht := fresh "Ht" in
      let Hk := fresh "Hk" in
      let r1 := fresh "r" in
      let w1 := fresh "w" in
      destruct (lemma pid r w) as (t & Ht & Hk);
      destruct (f W host b pid r w) as [r1 w1]; cbn [fst] in Ht
  end.

Ltac follow_cwd :=
  match goal with
  | |- context [collectWorkingDirectory W host ?pid ?r ?w] =>
      let t := fresh "t" in
      let Ht := fresh "Ht" in
      let Hk := fresh "Hk" in
      let r1 := fresh "r" in
      let w1 := fresh "w" in
      destruct (cwd_any pid r w) as (t & Ht & Hk);
      destruct (collectWorkingDirectory W host pid r w) as [r1 w1];
      cbn [fst] in Ht
  end.

Lemma collect_found (AIX : bool) (ident : string) (pid : Z) (w : W) :
  ProcessCollector.parsePid ident = Some pid ->
  forall (r0 : MetadataResult) (w0 : W),
    ProcessCollector.collectBasicInfo W (os W host AIX) AIX pid
      (mkResult "process" ident [] false "") w = ((true, r0), w0) ->
    collect W host AIX ident w
    = (r <- collectExecutablePath W host AIX pid (set_success r0 true) ;;
       r <- collectWorkingDirectory W host pid r ;;
       r <- collectCommandLine W host AIX pid r ;;
       r <- collectCredentials W host AIX pid r ;;
       r <- collectOpenFiles W host AIX pid r ;;
       r <- collectWparInfo W host AIX pid r ;;
       ret r) w0.
Proof.
  intros Hp r0 w0 Hb. unfold collect, ProcessCollector.collect.
  rewrite Hp. unfold bind at 1.
  change (set_identifier (set_type newResult "process") ident)
    with (mkResult "process" ident [] false "").
  rewrite Hb. reflexivity.
Qed.

(** X21. A build without [_AIX] reports success for every valid PID,
    whether or not such a process exists: the Result has type "process",
    the PID and a note, then at most an executable path, a working
    directory and a command line, and four closing attributes that say
    the process is in no container. *)
Theorem stub_build_reports_any_pid :
  forall (ident : string) (pid : Z) (w : W),
    ProcessCollector.parsePid ident = Some pid ->
    exists exe cwd cmd : list MetadataAttribute,
      run (collect W host false ident) w
      = mkResult "process" ident
          (stub_head pid ++ exe ++ cwd ++ cmd ++ stub_tail) true ""
      /\ optional "exe_path" exe /\ optional "cwd" cwd
      /\ optional "cmdline" cmd.
Proof.
  intros ident pid w Hp. unfold run.
  rewrite (collect_found false ident pid w Hp
             (mkResult "process" ident (stub_head pid) false "") w)
    by reflexivity.
  unfold bind, ret.
  follow exe_stub. follow_cwd. follow cmdline_stub.
  exists t, t0, t1.
  split; [|split; [exact Hk | split; [apply Hk0 | exact Hk1]]].
  unfold extends in Ht, Ht0, Ht1. subst r r0 r1.
  cbn [collectCredentials collectOpenFiles collectWparInfo fst ret].
  unfold ret. cbn [fst].
  cbv beta iota zeta delta [addAttribute addAttributeInt set_success type
    identifier attributes success errorMessage].
  unfold stub_tail. rewrite <- !app_assoc. reflexivity.
Qed.

(** X22. On AIX a valid PID gives a successful Result exactly when
    [getprocs64] returns one entry and that entry is the process asked
    for.  The successful Result has type "process", the identifier as
    given and no error message; its attributes are the basic ones of the
    entry followed by what the six later collectors add, each in its
    place, under names of a fixed list and without a name twice: the
    later collectors only add, and never fail the query. *)
Theorem aix_process_found_iff :
  forall (ident : string) (pid : Z) (w w1 : W) (count : Z)
         (p : procentry64 host),
    ProcessCollector.parsePid ident = Some pid ->
    getprocs64 host pid w = ((count, p), w1) ->
    let r := run (collect W host true ident) w in
    (success r = true <-> count = 1 /\ pi_pid host p = pid)
    /\ (success r = true ->
        type r = "process" /\ identifier r = ident
        /\ errorMessage r = EmptyString
        /\ exists rest,
             attributes r = fst (basicAttributes host p w1) ++ rest
             /\ In (map name rest) detail_shapes
             /\ known rest /\ NoDup (map name rest)).
Proof.
  intros ident pid w w1 count p Hp Hg r.
  destruct ((count =? 1) && (pi_pid host p =? pid)) eqn:E.
  - apply andb_prop in E. destruct E as [E1 E2].
    destruct (basicAttributes host p w1) as [basic w2] eqn:Hb.
    assert (Hr : exists rest,
               r = mkResult "process" ident (basic ++ rest) true ""
               /\ In (map name rest) detail_shapes).
    { subst r. unfold run.
      rewrite (collect_found true ident pid w Hp
                 (mkResult "process" ident basic false "") w2).
      - unfold bind, ret.
        follow exe_aix. follow_cwd. follow cmdline_aix. follow cred_aix.
        follow files_aix. follow wpar_aix. cbn [fst].
        unfold extends in Ht, Ht0, Ht1, Ht2, Ht3, Ht4.
        subst r r0 r1 r2 r3 r4.
        cbn [set_success type identifier attributes success errorMessage].
        eexists. split.
        + rewrite <- !app_assoc. reflexivity.
        + rewrite !map_app. unfold detail_shapes.
          repeat apply followed_by_in; try assumption. apply Hk0.
      - unfold ProcessCollector.collectBasicInfo, bind, ret.
        cbn [ProcessCollector.getprocs64 ProcessCollector.pi_pid
             ProcessCollector.emitBasicInfo os].
        rewrite Hg, E1, E2. cbn [negb orb].
        unfold emitBasicInfo, bind, ret. rewrite Hb. reflexivity. }
    destruct Hr as (rest & -> & Hk). cbn [success type identifier
      errorMessage attributes fst].
    apply Z.eqb_eq in E1, E2.
    split; [split; auto|]. intros _. repeat split.
    exists rest. split; [reflexivity|]. split; [exact Hk|].
    now apply detail_shape_known.
  - assert (Hr : r = createErrorResult ident
                       ("Process not found or access denied for PID: "
                        ++ ident)%string).
    { subst r. unfold collect.
      apply (collect_not_found W (os W host true) true ident pid w Hp).
      unfold ProcessCollector.collectBasicInfo, bind, ret.
      cbn [ProcessCollector.getprocs64 ProcessCollector.pi_pid os].
      rewrite Hg.
      destruct (count =? 1); destruct (pi_pid host p =? pid);
        try discriminate; reflexivity. }
    rewrite Hr. cbn [createErrorResult success set_success set_identifier
      set_errorMessage newResult].
    split; [|discriminate].
    split; [discriminate|]. intros [H1 H2].
    apply Z.eqb_eq in H1, H2. rewrite H1, H2 in E. discriminate.
Qed.

(** X23. What [collectWparInfo] adds on AIX.  Nothing when [getprocs64]
    does not return the process.  For a process of the global
    environment (CID 0) the CID and [is_container] "false", and the index
    file is not opened.  For any other CID the CID and [is_container]
    "true"; when the first line of [/etc/corrals/index] whose fourth
    field reads as that CID is [id:type:name:cid], then also the name,
    the id and the decoded type of that line, and nothing from later
    lines. *)
Theorem wpar_attributes :
  forall (pid : Z) (r : MetadataResult) (w w1 : W) (count : Z)
         (p : procentry64 host),
    getprocs64 host pid w = ((count, p), w1) ->
    ((count <> 1 \/ pi_pid host p <> pid) ->
     collectWparInfo W host true pid r w = (r, w1))
    /\ (count = 1 -> pi_pid host p = pid -> pi_cid host p = 0 ->
        collectWparInfo W host true pid r w
        = (with_attributes r
             [attr1 "wpar_cid" "0"; attr1 "is_container" "false"], w1))
    /\ (forall (text : string) (w2 : W) (before after : list string)
               (id ty nm : string),
          count = 1 -> pi_pid host p = pid ->
          1 <= pi_cid host p <= 65535 ->
          ifstream host "/etc/corrals/index" w1 = (Some text, w2) ->
          getlines text
          = before ++ index_line id ty nm (dec (pi_cid host p)) :: after ->
          free_of ":" id = true -> free_of ":" ty = true ->
          free_of ":" nm = true ->
          Forall (fun l => index_cid l <> Some (pi_cid host p)) before ->
          collectWparInfo W host true pid r w
          = (with_attributes r
               [ attr1 "wpar_cid" (dec (pi_cid host p));
                 attr1 "is_container" "true";
                 attr1 "wpar_name" nm;
                 attr1 "wpar_id" id;
                 attr1 "wpar_type" (wparTypeName ty) ], w2)).
Proof.
  intros pid r w w1 count p Hg.
  unfold collectWparInfo, bind, ret. rewrite Hg.
  split; [|split].
  - intros H.
    destruct (count =? 1) eqn:E1; destruct (pi_pid host p =? pid) eqn:E2;
      try reflexivity.
    apply Z.eqb_eq in E1, E2. tauto.
  - intros -> -> ->. rewrite !Z.eqb_refl. cbn [andb Z.eqb].
    same_attributes.
  - intros text w2 before after id ty nm -> <- Hc Hi Hl H1 H2 H3 Hb.
    rewrite !Z.eqb_refl. cbn [andb].
    destruct (pi_cid host p =? 0) eqn:E0; [apply Z.eqb_eq in E0; lia|].
    rewrite Hi, Hl, scanIndex_skip by exact Hb.
    cbn [scanIndex].
    destruct (index_cid_line id ty nm (pi_cid host p) H1 H2 H3) as [Hp Ha];
      [unfold INT32_MAX; lia|].
    rewrite Hp, Ha, Z.eqb_refl.
    same_attributes.
Qed.

(** X24. The command line on AIX: when [getargs] fills the buffer with
    arguments, each followed by a NUL, and the buffer ends there or goes
    on with a NUL, [cmdline] is these arguments joined by single spaces,
    and it is left out when there is no argument. *)
Theorem command_line_joins_arguments :
  forall (pid : Z) (r : MetadataResult) (w w1 w2 : W)
         (p : procentry64 host) (buf tail : string) (args : list string),
    getprocs64 host pid w = ((1, p), w1) ->
    getargs host p w1 = ((0, buf), w2) ->
    substr_to buf ARGS_BUFFER = (args_buffer args ++ tail)%string ->
    (tail = EmptyString \/ exists junk, tail = String zero junk) ->
    Forall argument args ->
    collectCommandLine W host true pid r w
    = (match args with
       | [] => r
       | _ => addAttribute r "cmdline" (String.concat " " args)
       end, w2).
Proof.
  intros pid r w w1 w2 p buf tail args Hg Ha Hs Ht Hargs.
  unfold collectCommandLine, bind, ret. rewrite Hg. cbn [Z.eqb Pos.eqb].
  rewrite Ha. cbn [Z.eqb]. rewrite Hs.
  rewrite joinArgs_buffer; [| exact Hargs | exact Ht |].
  - cbn [append]. destruct args as [|a args]; [reflexivity|].
    inversion Hargs as [|? ? [Hne _] _]; subst.
    pose proof (concat_nonempty a args Hne) as Hn.
    destruct (String.concat " " (a :: args)); [congruence | reflexivity].
  - pose proof (length_args_buffer args tail) as H1.
    rewrite <- Hs in H1.
    pose proof (length_substring ARGS_BUFFER buf) as H2.
    unfold substr_to in H1. lia.
Qed.

Lemma scanFds_step (fdDirPath d_name : string) (rest openFds : list string) :
  scanFds W host fdDirPath (d_name :: rest) openFds
  = if dot_entry d_name then scanFds W host fdDirPath rest openFds
    else
      ' (len, buf) <- readlink host (fdDirPath ++ "/" ++ d_name)%string ;;
      if len >? 0
      then scanFds W host fdDirPath rest
             (openFds ++ [(d_name ++ ":" ++ link_text len buf)%string])
      else scanFds W host fdDirPath rest (openFds ++ [d_name]).
Proof.
  destruct d_name as [|c d]; [reflexivity|].
  destruct c as [[] [] [] [] [] [] [] []]; reflexivity.
Qed.

Lemma scanFds_listing (fdDirPath : string) :
  forall (entries openFds : list string) (w : W),
  exists (new : list string) (w2 : W),
    scanFds W host fdDirPath entries openFds w = (openFds ++ new, w2)
    /\ listing host fdDirPath entries w new w2.
Proof.
  induction entries as [|d rest IH]; intros openFds w.
  - exists [], w. cbn [scanFds]. unfold ret. rewrite app_nil_r.
    split; [reflexivity | constructor].
  - rewrite scanFds_step.
    destruct (dot_entry d) eqn:Ed.
    + destruct (IH openFds w) as (new & w2 & E & L).
      exists new, w2. split; [exact E | now apply listing_dot].
    + unfold bind.
      destruct (readlink host (fdDirPath ++ "/" ++ d)%string w)
        as [[len buf] w1] eqn:Er.
      destruct (len >? 0) eqn:El.
      * destruct (IH (openFds ++ [(d ++ ":" ++ link_text len buf)%string]) w1)
          as (new & w2 & E & L).
        eexists. exists w2. rewrite E, <- app_assoc.
        split; [reflexivity|].
        apply (listing_link host fdDirPath d rest new w w1 w2 len buf);
          auto. rewrite Z.gtb_ltb in El. now apply Z.ltb_lt in El.
      * destruct (IH (openFds ++ [d]) w1) as (new & w2 & E & L).
        eexists. exists w2. rewrite E, <- app_assoc.
        split; [reflexivity|].
        apply (listing_name host fdDirPath d rest new w w1 w2 len buf);
          auto. rewrite Z.gtb_ltb in El. now apply Z.ltb_ge in El.
Qed.

(** X25. The open files on AIX: when the directory [/proc/<pid>/fd]
    cannot be opened nothing is added.  Otherwise [open_files] lists, in
    the order [readdir] gives them, exactly the entries whose name does not
    begin with a dot: an entry is listed as its name, a colon and the text
    [readlink] returned for it when [readlink] returned a positive length,
    and as its name alone when it did not, each [readlink] being made in
    the world the ones before it left.  The attribute is left out when no
    entry is listed. *)
Theorem open_files_lists_entries :
  forall (pid : Z) (r : MetadataResult) (w : W),
    match opendir host (proc_path pid "/fd") w with
    | (None, w1) => collectOpenFiles W host true pid r w = (r, w1)
    | (Some entries, w1) =>
        exists (fds : list string) (w2 : W),
          listing host (proc_path pid "/fd") entries w1 fds w2
          /\ collectOpenFiles W host true pid r w
             = (match fds with
                | [] => r
                | _ => addAttributeList r "open_files" fds
                end, w2)
    end.
Proof.
  intros pid r w. unfold collectOpenFiles, bind, ret.
  destruct (opendir host (proc_path pid "/fd") w) as [[entries|] w1];
    [|reflexivity].
  destruct (scanFds_listing (proc_path pid "/fd") entries [] w1)
    as (new & w2 & E & L).
  rewrite E. cbn [app]. exists new, w2. split; [exact L|].
  destruct new; reflexivity.
Qed.

End WithHost.

Lemma aix_process_found_iff_witness :
  ProcessCollector.parsePid "4242" = Some 4242
  /\ getprocs64 wpar_host 4242 tt = ((1, (4242, 3)), tt)
  /\ success (run (collect unit wpar_host true "4242") tt) = true.
Proof.
  split; [reflexivity|]. split; [reflexivity|].
  apply (proj1 (aix_process_found_iff unit wpar_host "4242" 4242 tt tt 1
                  (4242, 3) eq_refl eq_refl)).
  split; reflexivity.
Defined.

Lemma stub_build_reports_any_pid_witness :
  ProcessCollector.parsePid "7" = Some 7
  /\ exists exe cwd cmd : list MetadataAttribute,
       run (collect unit wpar_host false "7") tt
       = mkResult "process" "7"
           (stub_head 7 ++ exe ++ cwd ++ cmd ++ stub_tail) true "".
Proof.
  split; [reflexivity|].
  destruct (stub_build_reports_any_pid unit wpar_host "7" 7 tt eq_refl)
    as (exe & cwd & cmd & H & _).
  exists exe, cwd, cmd. exact H.
Defined.

Lemma wpar_attributes_witness :
  getprocs64 wpar_host 4242 tt = ((1, (4242, 3)), tt)
  /\ getlines wpar_index
     = ["1:S:dev:2"%string] ++ index_line "7" "A" "web" (dec 3) :: []
  /\ collectWparInfo unit wpar_host true 4242 newResult tt
     = (with_attributes newResult
          [ attr1 "wpar_cid" "3"; attr1 "is_container" "true";
            attr1 "wpar_name" "web"; attr1 "wpar_id" "7";
            attr1 "wpar_type" "application" ], tt).
Proof.
  split; [reflexivity|]. split; [reflexivity|].
  refine (proj2 (proj2 (wpar_attributes unit wpar_host 4242 newResult tt tt 1
                          (4242, 3) eq_refl))
            wpar_index tt ["1:S:dev:2"%string] [] "7" "A" "web"
            eq_refl eq_refl _ eq_refl eq_refl eq_refl eq_refl eq_refl _).
  - cbn [pi_cid wpar_host snd]. lia.
  - constructor; [|constructor]. vm_compute. discriminate.
Defined.

Lemma command_line_joins_arguments_witness :
  getprocs64 wpar_host 4242 tt = ((1, (4242, 3)), tt)
  /\ Forall argument ["ls"%string; "-l"%string]
  /\ collectCommandLine unit wpar_host true 4242 newResult tt
     = (addAttribute newResult "cmdline" "ls -l", tt).
Proof.
  assert (Ha : Forall argument ["ls"%string; "-l"%string]).
  { repeat constructor; discriminate. }
  split; [reflexivity|]. split; [exact Ha|].
  exact (command_line_joins_arguments unit wpar_host 4242 newResult tt tt tt
           (4242, 3) ls_arguments (String zero "") ["ls"%string; "-l"%string]
           eq_refl eq_refl eq_refl (or_intror (ex_intro _ "" eq_refl)) Ha).
Defined.

End ProcessProperties.
